(** * Collapsible sections and list filters: a shallow embedding

    The development follows the three scripts of the repository:

    - [snippets/collapsible_section/res/collapsiblesection.js]: the
      collapsible section controller and the list filter, written against
      the plain DOM ([CollapsibleSection], [Filter]);
    - the jQuery variant of the collapsible section ([CollapsibleSectionJq]);
    - [snippets/filter/res/filter_jquery.js]: the jQuery variant of the list
      filter ([FilterJq]).

    [Script] puts the two functions of the first script one after the
    other, as the file does.

    JavaScript strings are modelled by [string], [null]/[undefined] results
    of DOM getters by [option], a thrown [TypeError] by the [Throw] case of
    [Completion], and the objects the scripts mutate (the filter object, the
    elements of the page, [location.hash]) by explicit state passing. *)

From Stdlib Require Import Bool Arith List Ascii String Lia.
Import ListNotations.
Open Scope string_scope.

(* ================================================================== *)
(** ** Strings *)

Module Str.

Definition LF : ascii := ascii_of_nat 10.
Definition CR : ascii := ascii_of_nat 13.
Definition TAB : ascii := ascii_of_nat 9.
Definition FF : ascii := ascii_of_nat 12.

(** [.] in a pattern without the [s] flag: any character but a line
    terminator. *)
Definition isLineTerminator (c : ascii) : bool :=
  Ascii.eqb c LF || Ascii.eqb c CR.

Definition notLineTerminator (c : ascii) : bool := negb (isLineTerminator c).

(** [[^;]] *)
Definition notSemicolon (c : ascii) : bool := negb (Ascii.eqb c ";").

Definition notDollar (c : ascii) : bool := negb (Ascii.eqb c "$").

(** A character the URL parser keeps as it is when it stands in a fragment:
    printable ASCII but for the space and the characters it percent-encodes
    there, which are the double quote, [<], [>] and the backquote. *)
Definition fragmentSafe (c : ascii) : bool :=
  Nat.leb 33 (nat_of_ascii c) && Nat.leb (nat_of_ascii c) 126
  && negb (existsb (Ascii.eqb c) [ascii_of_nat 34; "<"; ">"; "`"]%char).

(** ASCII whitespace, the separators of a [class] attribute. *)
Definition isSpace (c : ascii) : bool :=
  Ascii.eqb c " " || Ascii.eqb c TAB || Ascii.eqb c LF
  || Ascii.eqb c FF || Ascii.eqb c CR.

Definition notSpace (c : ascii) : bool := negb (isSpace c).

Fixpoint drop (n : nat) (s : string) : string :=
  match n, s with
  | 0, _ => s
  | S _, EmptyString => EmptyString
  | S n', String _ s' => drop n' s'
  end.

Fixpoint takeWhile (f : ascii -> bool) (s : string) : string :=
  match s with
  | EmptyString => EmptyString
  | String c s' => if f c then String c (takeWhile f s') else EmptyString
  end.

Fixpoint dropWhile (f : ascii -> bool) (s : string) : string :=
  match s with
  | EmptyString => EmptyString
  | String c s' => if f c then dropWhile f s' else s
  end.

Fixpoint all (f : ascii -> bool) (s : string) : bool :=
  match s with
  | EmptyString => true
  | String c s' => f c && all f s'
  end.

Definition isEmpty (s : string) : bool :=
  match s with EmptyString => true | _ => false end.

(** The text left by [dropWhile f]: nothing, or a text whose first
    character fails [f]. *)
Definition stopsAt (f : ascii -> bool) (s : string) : Prop :=
  match s with
  | EmptyString => True
  | String c _ => f c = false
  end.

(** [s.startsWith(p)] *)
Fixpoint startsWith (p s : string) : bool :=
  match p with
  | EmptyString => true
  | String a p' =>
      match s with
      | EmptyString => false
      | String b s' => Ascii.eqb a b && startsWith p' s'
      end
  end.

(** [s.endsWith(c)] for a character [c]. *)
Fixpoint endsWithChar (c : ascii) (s : string) : bool :=
  match s with
  | EmptyString => false
  | String a EmptyString => Ascii.eqb a c
  | String _ s' => endsWithChar c s'
  end.

(** [p] occurs in [s] right after a separator [sep]. *)
Fixpoint startsAfter (sep : ascii) (p s : string) : bool :=
  match s with
  | EmptyString => false
  | String c s' => (Ascii.eqb c sep && startsWith p s') || startsAfter sep p s'
  end.

(** [cut p s] splits [s] around the leftmost occurrence of [p]. *)
Fixpoint cut (p s : string) {struct s} : option (string * string) :=
  if startsWith p s then Some (EmptyString, drop (length p) s)
  else match s with
       | EmptyString => None
       | String c s' =>
           match cut p s' with
           | Some (b, a) => Some (String c b, a)
           | None => None
           end
       end.

(** [s.split(sep)] for a one-character separator. *)
Fixpoint split (sep : ascii) (s : string) : list string :=
  match s with
  | EmptyString => [EmptyString]
  | String c s' =>
      if Ascii.eqb c sep then EmptyString :: split sep s'
      else match split sep s' with
           | [] => [String c EmptyString]
           | seg :: segs => String c seg :: segs
           end
  end.

(** The tokens of a [class] attribute value ([element.classList]). *)
Fixpoint tokens (cur : string) (s : string) : list string :=
  match s with
  | EmptyString => if isEmpty cur then [] else [cur]
  | String c s' =>
      if isSpace c
      then (if isEmpty cur then tokens EmptyString s'
            else cur :: tokens EmptyString s')
      else tokens (cur ++ String c EmptyString) s'
  end.

Definition classList (className : string) : list string :=
  tokens EmptyString className.

(** A class name: not empty, and without whitespace. *)
Definition isWord (w : string) : bool := negb (isEmpty w) && all notSpace w.

Fixpoint unwords (l : list string) : string :=
  match l with
  | [] => EmptyString
  | [w] => w
  | w :: l' => w ++ " " ++ unwords l'
  end.

End Str.

(* ================================================================== *)
(** ** JavaScript values the scripts rely on *)

(** The result of running a function body: it returns, or a [TypeError] is
    thrown from it; the state reached so far is kept in both cases, since
    the mutations made before a throw persist. *)
Inductive Completion (A : Type) : Type :=
| Normal (a : A)
| Throw (a : A).
Arguments Normal {A} a.
Arguments Throw {A} a.

Definition stateOf {A : Type} (c : Completion A) : A :=
  match c with Normal a => a | Throw a => a end.

Definition throws {A : Type} (c : Completion A) : bool :=
  match c with Normal _ => false | Throw _ => true end.

(** ['' + b] for a boolean [b]. *)
Definition stringOfBool (b : bool) : string := if b then "true" else "false".

(** A plain object used as a map from property names to strings, such as
    [currentFilter]: an object made by [{}] and written by indexed
    assignment only.  The entries are kept in the order [for (key in o)]
    enumerates them, which is the order of first assignment.

    The name [__proto__] is no property of such an object: [o['__proto__']]
    reads the prototype object, which is no string, and
    [o['__proto__'] = v] with a string [v] runs the setter the object
    inherits, which ignores a value that is no object and creates no
    property.  A name that was not assigned reads as [undefined]: the
    scripts assign a key before they read it, so that the other members the
    object inherits ([toString] and the like) do not show.  The names an
    engine enumerates in an order of its own (array indices, which come
    first) are not told apart. *)
Module JsObject.

Definition t : Type := list (string * string).

Definition empty : t := [].

(** [o[k] = v] for a name [k] other than [__proto__]. *)
Fixpoint assign (o : t) (k v : string) : t :=
  match o with
  | [] => [(k, v)]
  | (k', v') :: o' =>
      if String.eqb k' k then (k', v) :: o' else (k', v') :: assign o' k v
  end.

(** [o[k] = v] *)
Definition set (o : t) (k v : string) : t :=
  if String.eqb k "__proto__" then o else assign o k v.

Fixpoint lookup (o : t) (k : string) : option string :=
  match o with
  | [] => None
  | (k', v') :: o' => if String.eqb k' k then Some v' else lookup o' k
  end.

(** [o[k]] where it is a string; [None] stands for [undefined] and, at
    [__proto__], for the prototype object. *)
Definition get (o : t) (k : string) : option string :=
  if String.eqb k "__proto__" then None else lookup o k.

Definition keys (o : t) : list string := map fst o.

End JsObject.

(** Attributes of an element, by name.  Names are compared as they are
    given (an HTML document keeps and looks them up in lower case). *)
Module Attr.

Definition t : Type := list (string * string).

Fixpoint getAttribute (name : string) (a : t) : option string :=
  match a with
  | [] => None
  | (n, v) :: a' => if String.eqb n name then Some v else getAttribute name a'
  end.

Definition hasAttribute (name : string) (a : t) : bool :=
  match getAttribute name a with Some _ => true | None => false end.

Fixpoint setAttribute (name value : string) (a : t) : t :=
  match a with
  | [] => [(name, value)]
  | (n, v) :: a' =>
      if String.eqb n name then (n, value) :: a'
      else (n, v) :: setAttribute name value a'
  end.

Fixpoint removeAttribute (name : string) (a : t) : t :=
  match a with
  | [] => []
  | (n, v) :: a' =>
      if String.eqb n name then removeAttribute name a'
      else (n, v) :: removeAttribute name a'
  end.

End Attr.

(** [a === b] where [a] comes from [getAttribute] (a string or [null]) and
    [b] is a string. *)
Definition strictEq (a : option string) (b : string) : bool :=
  match a with
  | Some s => String.eqb s b
  | None => false
  end.

(* ================================================================== *)
(** ** Patterns of the filter scripts

    Both filter scripts build these patterns by splicing the filter key into
    the pattern source.  The functions below take the key as the literal
    text it stands for when none of its characters is a pattern syntax
    character; [plainKey] is that condition, together with the absence of
    the segment separator. *)

Module Pattern.
Import Str.

Definition isSyntaxCharacter (c : ascii) : bool :=
  existsb (Ascii.eqb c)
    ["^"; "$"; "\"; "."; "*"; "+"; "?"; "("; ")"; "["; "]"; "{"; "}"; "|"]%char.

Definition plainChar (c : ascii) : bool :=
  negb (isSyntaxCharacter c) && notSemicolon c.

Definition plainKey (key : string) : bool := all plainChar key.

(** [#!(.+)] tried at the start of [s]: capture 1. *)
Definition bangHere (s : string) : option string :=
  if startsWith "#!" s
  then let rest := takeWhile notLineTerminator (drop 2 s) in
       if isEmpty rest then None else Some rest
  else None.

(** [hash.match(/^#!(.+)/)], capture 1. *)
Definition matchAnchored (hash : string) : option string := bangHere hash.

(** [hash.match(/#!(.+)/)], capture 1: the leftmost position where the
    pattern matches. *)
Fixpoint matchUnanchored (hash : string) : option string :=
  match bangHere hash with
  | Some rest => Some rest
  | None =>
      match hash with
      | EmptyString => None
      | String _ hash' => matchUnanchored hash'
      end
  end.

(** [key=([^;]+)] tried at the start of [s]: capture 1. *)
Definition segmentHere (key s : string) : option string :=
  if startsWith (key ++ "=") s
  then let value := takeWhile notSemicolon (drop (length (key ++ "=")) s) in
       if isEmpty value then None else Some value
  else None.

(** The alternative [;] of [(?:^|;)] tried at every position of [s], from
    the left. *)
Fixpoint segmentAfterSemicolon (key s : string) : option string :=
  match s with
  | EmptyString => None
  | String c s' =>
      if Ascii.eqb c ";"
      then match segmentHere key s' with
           | Some value => Some value
           | None => segmentAfterSemicolon key s'
           end
      else segmentAfterSemicolon key s'
  end.

(** [s.match('(?:^|;)' + key + '=([^;]+)')], capture 1. *)
Definition matchFilterValue (key s : string) : option string :=
  match segmentHere key s with
  | Some value => Some value
  | None => segmentAfterSemicolon key s
  end.

(** The match in [s] of the pattern [regExp] of [updateUrlFromFilterPart]
    (the key, [=], then any number of characters other than [;], the whole
    in one group): the text before the match, the match, and the text
    after it. *)
Definition matchFilterPart (key s : string)
  : option (string * string * string) :=
  match cut (key ++ "=") s with
  | None => None
  | Some (before, after) =>
      Some (before,
            key ++ "=" ++ takeWhile notSemicolon after,
            dropWhile notSemicolon after)
  end.

(** The expansion of a replacement text for a pattern with one capture
    group that spans the whole match: [$$], [$&], [$`], [$'], [$1] and
    [$01] are substituted, any other character stands for itself. *)
Fixpoint getSubstitution (matched before after template : string) : string :=
  match template with
  | EmptyString => EmptyString
  | String c t =>
      if Ascii.eqb c "$"
      then match t with
           | EmptyString => String c EmptyString
           | String d t' =>
               if Ascii.eqb d "$"
               then String "$" (getSubstitution matched before after t')
               else if Ascii.eqb d "&"
               then matched ++ getSubstitution matched before after t'
               else if Ascii.eqb d "`"
               then before ++ getSubstitution matched before after t'
               else if Ascii.eqb d "'"
               then after ++ getSubstitution matched before after t'
               else if Ascii.eqb d "1"
               then matched ++ getSubstitution matched before after t'
               else if Ascii.eqb d "0"
               then match t' with
                    | String e t'' =>
                        if Ascii.eqb e "1"
                        then matched ++ getSubstitution matched before after t''
                        else String c (getSubstitution matched before after t)
                    | EmptyString =>
                        String c (getSubstitution matched before after t)
                    end
               else String c (getSubstitution matched before after t)
           end
      else String c (getSubstitution matched before after t)
  end.

(** [s.replace(regExp, replacement)] for the pattern of [matchFilterPart]
    (no [g] flag: the first match only). *)
Definition replaceFilterPart (key s replacement : string) : string :=
  match matchFilterPart key s with
  | None => s
  | Some (before, matched, after) =>
      before ++ getSubstitution matched before after replacement ++ after
  end.

(** [s.replace(pattern, '')] for a string [pattern]: the first occurrence
    is removed. *)
Definition removeFirst (pattern s : string) : string :=
  match cut pattern s with
  | None => s
  | Some (before, after) => before ++ after
  end.

End Pattern.

(* ================================================================== *)
(** ** The page a filter works on *)

Module Page.

(** An element child of the filtered list.  [displayNone] is the inline
    [display: none] that jQuery's [hide()] sets and [show()] clears; the
    [hidden] attribute lives in [attrs]. *)
Record Element : Type := mkElement {
  attrs : Attr.t;
  displayNone : bool
}.

(** A child node of the filtered list: an element, or a node of another
    type (text, comment). *)
Inductive Node : Type :=
| ElementNode (e : Element)
| OtherNode (data : string).

(** A form control matched by [[data-filter]]: its tag name, its [checked]
    and [selected] properties and the attributes the scripts use. *)
Record Control : Type := mkControl {
  tagName : string;
  checked : bool;
  selected : bool;
  data_filter : string;
  data_filter_off : option string;
  aria_controls : option string
}.

(** An element carrying [data-filter-name], with the controls
    [querySelectorAll('[data-filter]')] finds below it. *)
Record FilterPart : Type := mkFilterPart {
  data_filter_name : string;
  data_filter_default : option string;
  filterControls : list Control
}.

(** An element of class [_js-filter].  [self_part] is the container seen
    as a filter part when it carries [data-filter-name] itself;
    [descendant_parts] are the elements matching [[data-filter-name]]
    below it, in document order; [target] holds the child nodes of the
    element [document.getElementById] finds for [data-filter-target], and
    is [None] when it finds none. *)
Record FilterContainer : Type := mkFilterContainer {
  data_filter_target : option string;
  data_filter_join : option string;
  hidden : bool;
  self_part : option FilterPart;
  descendant_parts : list FilterPart;
  target : option (list Node)
}.

Definition setChecked (b : bool) (c : Control) : Control :=
  mkControl (tagName c) b (selected c) (data_filter c) (data_filter_off c)
    (aria_controls c).

Definition setSelected (b : bool) (c : Control) : Control :=
  mkControl (tagName c) (checked c) b (data_filter c) (data_filter_off c)
    (aria_controls c).

Definition setAriaControls (v : string) (c : Control) : Control :=
  mkControl (tagName c) (checked c) (selected c) (data_filter c)
    (data_filter_off c) (Some v).

Definition setControls (cs : list Control) (p : FilterPart) : FilterPart :=
  mkFilterPart (data_filter_name p) (data_filter_default p) cs.

Definition isHidden (e : Element) : bool := Attr.hasAttribute "hidden" (attrs e).

End Page.

(* ================================================================== *)
(** ** The list filter of [collapsiblesection.js] *)

Module Filter.
Import Page.

(** [joinType] is ['or'] or ['and']. *)
Inductive JoinType : Type := JoinAnd | JoinOr.

Definition isOr (j : JoinType) : bool :=
  match j with JoinOr => true | JoinAnd => false end.

(** The callback [updateFilterPartFromControls] runs on each control. *)
Definition controlStep (key : string) (filter : JsObject.t) (control : Control)
  : JsObject.t :=
  if (String.eqb (tagName control) "INPUT" && checked control)
     || (String.eqb (tagName control) "OPTION" && selected control)
  then JsObject.set filter key (data_filter control)
  else if String.eqb (tagName control) "INPUT" && negb (checked control)
    then match data_filter_off control with
         | Some off => JsObject.set filter key off
         | None => filter
         end
    else filter.

Definition updateFilterPartFromControls
  (filter : JsObject.t) (key : string) (controls : list Control) : JsObject.t :=
  let filter := JsObject.set filter key "" in
  fold_left (controlStep key) controls filter.

(** The key is taken to be a plain key, for which the pattern the
    function builds from it compiles and matches as [Pattern] has it; for
    a key that is no pattern text the [match] call throws, which is
    outside the model. *)
Definition updateFilterPartFromUrl
  (hash : string) (filter : JsObject.t) (key defaultValue : string)
  : JsObject.t :=
  let filterInUrl := Pattern.matchAnchored hash in
  let newFilterValue :=
    match filterInUrl with
    | Some rest =>
        match Pattern.matchFilterValue key rest with
        | Some value => value
        | None => defaultValue
        end
    | None => defaultValue
    end in
  JsObject.set filter key newFilterValue.

Definition updateControlsFromFilterPart
  (controls : list Control) (filter : JsObject.t) (key : string)
  : list Control :=
  map (fun control =>
         let shouldSelect :=
           strictEq (JsObject.get filter key) (data_filter control) in
         if String.eqb (tagName control) "OPTION"
         then setSelected shouldSelect control
         else setChecked shouldSelect control)
      controls.

(** ['' + filter[key]] *)
Definition valueText (filter : JsObject.t) (key : string) : string :=
  match JsObject.get filter key with
  | Some v => v
  | None =>
      if String.eqb key "__proto__" then "[object Object]" else "undefined"
  end.

(** [newFragment] once the existing filter was added to it: the fragment
    the update starts from. *)
Definition startFragment (hash : string) : string :=
  let existingFilter := Pattern.matchUnanchored hash in
  let newFragment := "#!" in
  match existingFilter with
  | Some rest => newFragment ++ rest
  | None => newFragment
  end.

(** The fragment [updateUrlFromFilterPart] hands to [history.pushState]. *)
Definition newFragmentFor (hash : string) (filter : JsObject.t) (key : string)
  : string :=
  let existingFilter := Pattern.matchUnanchored hash in
  let newFilterPart := key ++ "=" ++ valueText filter key in
  let newFragment := startFragment hash in
  match Pattern.matchFilterPart key newFragment with
  | Some _ => Pattern.replaceFilterPart key newFragment newFilterPart
  | None =>
      let newFragment :=
        match existingFilter with
        | Some _ => newFragment ++ ";"
        | None => newFragment
        end in
      newFragment ++ newFilterPart
  end.

(** [updateUrlFromFilterPart]: the value of [location.hash] afterwards.
    [pushState] tells whether [history.pushState] exists.  The browser is
    taken to keep the fragment as it is written, which it does when the
    fragment is made of [Str.fragmentSafe] characters, and the key to be a
    plain key: for a key that is no pattern text [new RegExp] throws,
    whether or not [history.pushState] exists, which is outside the
    model. *)
Definition updateUrlFromFilterPart
  (pushState : bool) (hash : string) (filter : JsObject.t) (key : string)
  : string :=
  if pushState then newFragmentFor hash filter key else hash.

(** The [for (key in filter)] loop run for one item, started with the
    given [shouldShow]: the final [shouldShow], and the keys whose
    attribute was read, in order. *)
Fixpoint forKeyInFilter
  (joinType : JoinType) (item : Element) (filter : JsObject.t)
  (shouldShow : bool) : bool * list string :=
  match filter with
  | [] => (shouldShow, [])
  | (key, wantedValue) :: filter' =>
      let itemValue := Attr.getAttribute ("data-filter-" ++ key) (attrs item) in
      if isOr joinType
      then if strictEq itemValue wantedValue || String.eqb wantedValue "*"
           then (true, [key])
           else let (b, ks) := forKeyInFilter joinType item filter' shouldShow in
                (b, key :: ks)
      else if negb (strictEq itemValue wantedValue)
              && negb (String.eqb wantedValue "*")
           then (false, [key])
           else let (b, ks) := forKeyInFilter joinType item filter' shouldShow in
                (b, key :: ks)
  end.

Definition shouldShow (joinType : JoinType) (filter : JsObject.t)
  (item : Element) : bool :=
  fst (forKeyInFilter joinType item filter (negb (isOr joinType))).

Definition keysRead (joinType : JoinType) (filter : JsObject.t)
  (item : Element) : list string :=
  snd (forKeyInFilter joinType item filter (negb (isOr joinType))).

Definition updateItem (joinType : JoinType) (filter : JsObject.t)
  (item : Element) : Element :=
  if shouldShow joinType filter item
  then mkElement (Attr.removeAttribute "hidden" (attrs item)) (displayNone item)
  else mkElement (Attr.setAttribute "hidden" "hidden" (attrs item))
                 (displayNone item).

Definition updateNode (joinType : JoinType) (filter : JsObject.t)
  (child : Node) : Node :=
  match child with
  | ElementNode item => ElementNode (updateItem joinType filter item)
  | OtherNode _ => child
  end.

(** [lst] is the source's [list]: [null] when the target element does not
    exist; reading [list.childNodes] then throws. *)
Definition updateListFromFilter
  (lst : option (list Node)) (filter : JsObject.t) (joinType : JoinType)
  : Completion (option (list Node)) :=
  match lst with
  | None => Throw None
  | Some children => Normal (Some (map (updateNode joinType filter) children))
  end.

(** The state a filter container's closures share: [currentFilter], the
    filter parts with their controls, the target list, the container's
    [hidden] attribute, and [location.hash].  The filter parts are taken
    not to lie inside one another, so that a control belongs to one part,
    and a control's [checked] property to be what was last written to it
    (the browser's unchecking of the other radio buttons of a group is not
    modelled). *)
Record State : Type := mkState {
  currentFilter : JsObject.t;
  filterParts : list FilterPart;
  list_ : option (list Node);
  containerHidden : bool;
  location_hash : string
}.

Definition defaultValueOf (filterPart : FilterPart) : string :=
  match data_filter_default filterPart with
  | Some d => d
  | None => "*"
  end.

(** ['' + listId], as [setAttribute] stores it. *)
Definition listIdText (listId : option string) : string :=
  match listId with Some s => s | None => "null" end.

(** The body of [setupFilterPart] but for the registration of the two
    listeners, which [onChange] and [onPopState] stand for. *)
Definition setupFilterPart
  (hash : string) (listId : option string) (filterPart : FilterPart)
  (currentFilter : JsObject.t) : JsObject.t * FilterPart :=
  let filterName := data_filter_name filterPart in
  let defaultValue := defaultValueOf filterPart in
  let currentFilter := JsObject.set currentFilter filterName defaultValue in
  let controls :=
    map (setAriaControls (listIdText listId)) (filterControls filterPart) in
  let currentFilter :=
    updateFilterPartFromUrl hash currentFilter filterName defaultValue in
  let controls :=
    updateControlsFromFilterPart controls currentFilter filterName in
  (currentFilter, setControls controls filterPart).

Fixpoint setupFilterParts
  (hash : string) (listId : option string) (parts : list FilterPart)
  (currentFilter : JsObject.t) : JsObject.t * list FilterPart :=
  match parts with
  | [] => (currentFilter, [])
  | filterPart :: parts' =>
      let (currentFilter, filterPart) :=
        setupFilterPart hash listId filterPart currentFilter in
      let (currentFilter, parts') :=
        setupFilterParts hash listId parts' currentFilter in
      (currentFilter, filterPart :: parts')
  end.

Definition joinTypeOf (filterContainer : FilterContainer) : JoinType :=
  if strictEq (data_filter_join filterContainer) "or" then JoinOr else JoinAnd.

Definition filterPartsOf (filterContainer : FilterContainer) : list FilterPart :=
  match self_part filterContainer with
  | Some p => [p]
  | None => descendant_parts filterContainer
  end.

Definition setupFilter (hash : string) (filterContainer : FilterContainer)
  : Completion State :=
  let listId := data_filter_target filterContainer in
  let lst := target filterContainer in
  let joinType := joinTypeOf filterContainer in
  let parts := filterPartsOf filterContainer in
  let (currentFilter, parts') :=
    setupFilterParts hash listId parts JsObject.empty in
  let containerHidden :=
    match parts with [] => hidden filterContainer | _ => false end in
  match updateListFromFilter lst currentFilter joinType with
  | Normal lst' => Normal (mkState currentFilter parts' lst' containerHidden hash)
  | Throw _ => Throw (mkState currentFilter parts' lst containerHidden hash)
  end.

(** What a run of the page does to a set-up container: the user leaves the
    controls of the filter part at index [i] with the given [checked] and
    [selected] properties, which fires [change] on that part; or the session
    history moves to an entry whose fragment is [hash], which fires
    [popstate]. *)
Inductive Event : Type :=
| Change (i : nat) (properties : list (bool * bool))
| PopState (hash : string).

Fixpoint withProperties (properties : list (bool * bool))
  (controls : list Control) : list Control :=
  match controls, properties with
  | control :: controls', (isChecked, isSelected) :: properties' =>
      setSelected isSelected (setChecked isChecked control)
      :: withProperties properties' controls'
  | _, _ => controls
  end.

Fixpoint replaceNth {A : Type} (i : nat) (x : A) (l : list A) : list A :=
  match l, i with
  | [], _ => []
  | _ :: l', 0 => x :: l'
  | y :: l', S i' => y :: replaceNth i' x l'
  end.

(** The [change] listener of the filter part at index [i]. *)
Definition onChange (pushState : bool) (joinType : JoinType) (i : nat)
  (st : State) : Completion State :=
  match nth_error (filterParts st) i with
  | None => Normal st
  | Some filterPart =>
      let filterName := data_filter_name filterPart in
      let currentFilter :=
        updateFilterPartFromControls (currentFilter st) filterName
          (filterControls filterPart) in
      let hash :=
        updateUrlFromFilterPart pushState (location_hash st) currentFilter
          filterName in
      match updateListFromFilter (list_ st) currentFilter joinType with
      | Normal lst' =>
          Normal (mkState currentFilter (filterParts st) lst'
                    (containerHidden st) hash)
      | Throw _ =>
          Throw (mkState currentFilter (filterParts st) (list_ st)
                   (containerHidden st) hash)
      end
  end.

(** The [popstate] listener registered for the filter part at index [i]. *)
Definition onPopState (joinType : JoinType) (i : nat) (st : State)
  : Completion State :=
  match nth_error (filterParts st) i with
  | None => Normal st
  | Some filterPart =>
      let filterName := data_filter_name filterPart in
      let defaultValue := defaultValueOf filterPart in
      let currentFilter :=
        updateFilterPartFromUrl (location_hash st) (currentFilter st)
          filterName defaultValue in
      let controls :=
        updateControlsFromFilterPart (filterControls filterPart)
          currentFilter filterName in
      let parts := replaceNth i (setControls controls filterPart) (filterParts st) in
      match updateListFromFilter (list_ st) currentFilter joinType with
      | Normal lst' =>
          Normal (mkState currentFilter parts lst' (containerHidden st)
                    (location_hash st))
      | Throw _ =>
          Throw (mkState currentFilter parts (list_ st) (containerHidden st)
                   (location_hash st))
      end
  end.

(** All [popstate] listeners of the container, in the order they were
    registered; a listener that throws does not stop the next one. *)
Fixpoint popStateListeners (joinType : JoinType) (n i : nat) (st : State)
  : State :=
  match n with
  | 0 => st
  | S n' =>
      popStateListeners joinType n' (S i) (stateOf (onPopState joinType i st))
  end.

Definition withControls (i : nat) (properties : list (bool * bool))
  (st : State) : State :=
  match nth_error (filterParts st) i with
  | None => st
  | Some filterPart =>
      mkState (currentFilter st)
        (replaceNth i
           (setControls (withProperties properties (filterControls filterPart))
              filterPart)
           (filterParts st))
        (list_ st) (containerHidden st) (location_hash st)
  end.

Definition withHash (hash : string) (st : State) : State :=
  mkState (currentFilter st) (filterParts st) (list_ st) (containerHidden st)
    hash.

Definition step (pushState : bool) (joinType : JoinType) (st : State)
  (ev : Event) : State :=
  match ev with
  | Change i properties =>
      stateOf (onChange pushState joinType i (withControls i properties st))
  | PopState hash =>
      popStateListeners joinType (List.length (filterParts st)) 0
        (withHash hash st)
  end.

Definition run (pushState : bool) (joinType : JoinType) (st : State)
  (evs : list Event) : State :=
  fold_left (step pushState joinType) evs st.

End Filter.

(* ================================================================== *)
(** ** The list filter of [filter_jquery.js] *)

Module FilterJq.
Import Page.

(** The callback [updateFilterPartFromControls] runs on each control. *)
Definition controlStep (key : string) (filter : JsObject.t) (control : Control)
  : JsObject.t :=
  if checked control || selected control
  then JsObject.set filter key (data_filter control)
  else filter.

Definition updateFilterPartFromControls
  (filter : JsObject.t) (key : string) (controls : list Control) : JsObject.t :=
  let filter := JsObject.set filter key "" in
  fold_left (controlStep key) controls filter.

Definition updateFilterPartFromUrl
  (hash : string) (filter : JsObject.t) (key : string) : JsObject.t :=
  let filterInUrl := Pattern.matchAnchored hash in
  let newFilterValue :=
    match filterInUrl with
    | Some rest =>
        match Pattern.matchFilterValue key rest with
        | Some value => value
        | None => ""
        end
    | None => ""
    end in
  JsObject.set filter key newFilterValue.

(** The text of [updateUrlFromFilterPart] is the same in both scripts. *)
Definition updateUrlFromFilterPart
  (pushState : bool) (hash : string) (filter : JsObject.t) (key : string)
  : string :=
  Filter.updateUrlFromFilterPart pushState hash filter key.

(** The [for (key in filter)] loop run for one item: whether [hide()] was
    called, and the keys whose attribute was read, in order. *)
Fixpoint forKeyInFilter (item : Element) (filter : JsObject.t)
  : bool * list string :=
  match filter with
  | [] => (false, [])
  | (key, wantedValue) :: filter' =>
      let itemValue := Attr.getAttribute ("data-filter-" ++ key) (attrs item) in
      if Nat.ltb 0 (String.length wantedValue) && negb (strictEq itemValue wantedValue)
      then (true, [key])
      else let (h, ks) := forKeyInFilter item filter' in (h, key :: ks)
  end.

Definition keysRead (filter : JsObject.t) (item : Element) : list string :=
  snd (forKeyInFilter (mkElement (attrs item) false) filter).

Definition updateItem (filter : JsObject.t) (item : Element) : Element :=
  let shown := mkElement (attrs item) false in
  if fst (forKeyInFilter shown filter)
  then mkElement (attrs shown) true
  else shown.

Definition updateNode (filter : JsObject.t) (child : Node) : Node :=
  match child with
  | ElementNode item => ElementNode (updateItem filter item)
  | OtherNode _ => child
  end.

(** [lst] is the source's [$list], a jQuery set holding the target element
    or nothing. *)
Definition updateListFromFilter
  (lst : option (list Node)) (filter : JsObject.t) : option (list Node) :=
  match lst with
  | None => None
  | Some children => Some (map (updateNode filter) children)
  end.

Definition updateControlsFromFilterPart
  (controls : list Control) (filter : JsObject.t) (key : string)
  : list Control :=
  map (fun control =>
         let shouldSelect :=
           strictEq (JsObject.get filter key) (data_filter control) in
         if String.eqb (tagName control) "OPTION"
         then setSelected shouldSelect control
         else setChecked shouldSelect control)
      controls.

End FilterJq.

(* ================================================================== *)
(** ** Collapsible sections *)

Module Collapsible.

(** A child node of the heading, whatever it is. *)
Definition Node : Type := string.

(** The [button] element the scripts create. *)
Record Trigger : Type := mkTrigger {
  t_attrs : Attr.t;
  t_children : list Node;
  t_onclick : bool
}.

(** The first descendant of class [heading].  The trigger element itself
    is kept in the controller's [trigger] field; [h_appended] says that
    the heading has it as its last child. *)
Record Heading : Type := mkHeading {
  h_children : list Node;
  h_appended : bool
}.

(** An element of class [collapsibleSection]: its [className], its first
    descendant of class [heading] if any, and the attributes of its
    descendants of class [contents], in document order. *)
Record Section : Type := mkSection {
  className : string;
  heading : option Heading;
  contents : list Attr.t
}.

(** A [CollapsibleSection] object together with the elements it refers
    to. *)
Record CollapsibleSection : Type := mkCollapsibleSection {
  section : Section;
  collapsed : bool;
  trigger : option Trigger
}.

Definition withClassName (cn : string) (o : CollapsibleSection)
  : CollapsibleSection :=
  mkCollapsibleSection
    (mkSection cn (heading (section o)) (contents (section o)))
    (collapsed o) (trigger o).

Definition withHeading (h : Heading) (o : CollapsibleSection)
  : CollapsibleSection :=
  mkCollapsibleSection
    (mkSection (className (section o)) (Some h) (contents (section o)))
    (collapsed o) (trigger o).

Definition withContents (cs : list Attr.t) (o : CollapsibleSection)
  : CollapsibleSection :=
  mkCollapsibleSection
    (mkSection (className (section o)) (heading (section o)) cs)
    (collapsed o) (trigger o).

Definition withTrigger (t : option Trigger) (o : CollapsibleSection)
  : CollapsibleSection :=
  mkCollapsibleSection (section o) (collapsed o) t.

Definition withCollapsed (b : bool) (o : CollapsibleSection)
  : CollapsibleSection :=
  mkCollapsibleSection (section o) b (trigger o).

Definition triggerSetAttribute (name value : string) (t : Trigger) : Trigger :=
  mkTrigger (Attr.setAttribute name value (t_attrs t)) (t_children t)
    (t_onclick t).

(** [document.createElement('button')] *)
Definition createButton : Trigger := mkTrigger [] [] false.

(** The observable state the specification speaks of: [aria-expanded] on
    the trigger, [aria-hidden] on the contents elements, the set of
    classes of the section, and the [collapsed] flag. *)
Definition ariaExpanded (o : CollapsibleSection) : option (option string) :=
  option_map (fun t => Attr.getAttribute "aria-expanded" (t_attrs t))
    (trigger o).

Definition ariaHidden (o : CollapsibleSection) : list (option string) :=
  map (Attr.getAttribute "aria-hidden") (contents (section o)).

Definition classes (o : CollapsibleSection) : list string :=
  Str.classList (className (section o)).

Definition hasClass (c : string) (o : CollapsibleSection) : bool :=
  existsb (String.eqb c) (classes o).

(** Two class lists denote the same set of classes. *)
Definition sameClasses (l1 l2 : list string) : Prop :=
  forall c, In c l1 <-> In c l2.

Definition sameClassesb (l1 l2 : list string) : bool :=
  forallb (fun c => existsb (String.eqb c) l2) l1
  && forallb (fun c => existsb (String.eqb c) l1) l2.

(** The two controllers show the same state: the same [aria-expanded] on
    the trigger, the same [aria-hidden] on the contents, the same set of
    classes on the section and the same [collapsed] flag. *)
Definition sameState (o o' : CollapsibleSection) : Prop :=
  ariaExpanded o' = ariaExpanded o
  /\ ariaHidden o' = ariaHidden o
  /\ sameClasses (classes o') (classes o)
  /\ collapsed o' = collapsed o.

End Collapsible.

(** *** [collapsiblesection.js] *)

Module CollapsibleSection.
Import Collapsible.

(** [new CollapsibleSection(element)] *)
Definition new (element : Section) : CollapsibleSection :=
  mkCollapsibleSection element false None.

(** [this.heading] and [this.contents]: what [querySelector] returned. *)
Definition this_heading (o : CollapsibleSection) : option Heading :=
  heading (section o).

Definition this_contents (o : CollapsibleSection) : option Attr.t :=
  hd_error (contents (section o)).

Definition setCollapseState (doCollapse : bool) (o : CollapsibleSection)
  : Completion CollapsibleSection :=
  let o :=
    if doCollapse
    then withClassName (className (section o) ++ " collapsed") o
    else withClassName
           (Pattern.removeFirst " collapsed" (className (section o))) o in
  match trigger o with
  | None => Throw o
  | Some t =>
      let o :=
        withTrigger
          (Some (triggerSetAttribute "aria-expanded"
                   (stringOfBool (negb doCollapse)) t)) o in
      match contents (section o) with
      | [] => Throw o
      | c :: cs =>
          let o :=
            withContents
              (Attr.setAttribute "aria-hidden" (stringOfBool doCollapse) c
                 :: cs) o in
          Normal (withCollapsed doCollapse o)
      end
  end.

(** The loop that moves the heading's child nodes into the trigger, one
    per iteration: the children left in the heading and those of the
    trigger. *)
Fixpoint moveChildren (headingChildren triggerChildren : list Node)
  : list Node * list Node :=
  match headingChildren with
  | [] => ([], triggerChildren)
  | firstChild :: rest => moveChildren rest (triggerChildren ++ [firstChild])%list
  end.

Definition init (o : CollapsibleSection) : Completion CollapsibleSection :=
  match this_heading o, this_contents o with
  | Some h, Some c =>
      let t := triggerSetAttribute "type" "button" createButton in
      let o := withTrigger (Some t) o in
      match Attr.getAttribute "id" c with
      | None => Throw o
      | Some contentsId =>
          let t :=
            if Nat.ltb 0 (String.length contentsId)
            then triggerSetAttribute "aria-controls" contentsId t
            else t in
          let t := mkTrigger (t_attrs t) (t_children t) true in
          let (hc, tc) := moveChildren (h_children h) (t_children t) in
          let t := mkTrigger (t_attrs t) tc (t_onclick t) in
          let o := withTrigger (Some t) (withHeading (mkHeading hc true) o) in
          match setCollapseState true o with
          | Normal o =>
              Normal (withClassName (className (section o) ++ " scripted") o)
          | Throw o => Throw o
          end
      end
  | _, _ => Normal o
  end.

(** The [onclick] handler of the trigger. *)
Definition onclick (o : CollapsibleSection) : Completion CollapsibleSection :=
  setCollapseState (negb (collapsed o)) o.

(** [n] clicks on the trigger, one after the other. *)
Fixpoint clicks (n : nat) (o : CollapsibleSection) : CollapsibleSection :=
  match n with
  | 0 => o
  | S n' => clicks n' (stateOf (onclick o))
  end.

(** [setCollapseState] called twice in succession, each time with the
    negation of the current state. *)
Definition toggleTwice (o : CollapsibleSection) : Completion CollapsibleSection :=
  match setCollapseState (negb (collapsed o)) o with
  | Normal o1 => setCollapseState (negb (collapsed o1)) o1
  | Throw o1 => Throw o1
  end.

(** The states an initialised section whose class attribute was [cn] goes
    through. *)
Inductive Toggled (cn : string) (o : CollapsibleSection) : Prop :=
| toggled (t : Trigger) (c : Attr.t) (cs : list Attr.t) :
    trigger o = Some t ->
    contents (section o) = c :: cs ->
    Attr.getAttribute "aria-expanded" (t_attrs t)
    = Some (stringOfBool (negb (collapsed o))) ->
    Attr.getAttribute "aria-hidden" c = Some (stringOfBool (collapsed o)) ->
    (collapsed o = true
     /\ (className (section o) = (cn ++ " collapsed") ++ " scripted"
         \/ className (section o) = (cn ++ " scripted") ++ " collapsed"))
    \/ (collapsed o = false /\ className (section o) = cn ++ " scripted") ->
    Toggled cn o.

End CollapsibleSection.

(** *** The jQuery variant

    [addClass] and [removeClass] work on the tokens of the [class]
    attribute; a jQuery set that holds no element ignores every call. *)

Module CollapsibleSectionJq.
Import Collapsible.

Definition addClass (c : string) (cn : string) : string :=
  if existsb (String.eqb c) (Str.classList cn)
  then Str.unwords (Str.classList cn)
  else Str.unwords (Str.classList cn ++ [c])%list.

Definition removeClass (c : string) (cn : string) : string :=
  Str.unwords (filter (fun x => negb (String.eqb c x)) (Str.classList cn)).

Definition new (element : Section) : CollapsibleSection :=
  mkCollapsibleSection element false None.

(** [this.contents.attr(name, value)]: on every element of the set. *)
Definition contentsAttr (name value : string) (cs : list Attr.t)
  : list Attr.t :=
  map (Attr.setAttribute name value) cs.

Definition setCollapseState (doCollapse : bool) (o : CollapsibleSection)
  : CollapsibleSection :=
  let o :=
    if doCollapse
    then withClassName (addClass "collapsed" (className (section o))) o
    else withClassName (removeClass "collapsed" (className (section o))) o in
  let o :=
    withTrigger
      (option_map
         (triggerSetAttribute "aria-expanded" (stringOfBool (negb doCollapse)))
         (trigger o)) o in
  let o :=
    withContents
      (contentsAttr "aria-hidden" (stringOfBool doCollapse)
         (contents (section o))) o in
  withCollapsed doCollapse o.

(** [this.contents.attr('id')]: the attribute of the first element of the
    set, [undefined] when there is none. *)
Definition contentsId (o : CollapsibleSection) : option string :=
  match contents (section o) with
  | [] => None
  | c :: _ => Attr.getAttribute "id" c
  end.

Definition init (o : CollapsibleSection) : CollapsibleSection :=
  let t := triggerSetAttribute "type" "button" createButton in
  let t :=
    match contentsId o with
    | Some id =>
        if Nat.ltb 0 (String.length id)
        then triggerSetAttribute "aria-controls" id t
        else t
    | None => t
    end in
  let o :=
    match heading (section o) with
    | Some h =>
        (* wrapInner, then children('button') and on('click', ...) *)
        withTrigger
          (Some (mkTrigger (t_attrs t) (h_children h) true))
          (withHeading (mkHeading [] true) o)
    | None => withTrigger None o
    end in
  let o := setCollapseState true o in
  withClassName (addClass "scripted" (className (section o))) o.

Definition onclick (o : CollapsibleSection) : CollapsibleSection :=
  setCollapseState (negb (collapsed o)) o.

Fixpoint clicks (n : nat) (o : CollapsibleSection) : CollapsibleSection :=
  match n with
  | 0 => o
  | S n' => clicks n' (onclick o)
  end.

Definition toggleTwice (o : CollapsibleSection) : CollapsibleSection :=
  let o1 := setCollapseState (negb (collapsed o)) o in
  setCollapseState (negb (collapsed o1)) o1.

(** The states the jQuery controller goes through once [init] has run: the
    class [collapsed] and the two attributes agree with the [collapsed]
    flag. *)
Inductive Toggled (o : CollapsibleSection) : Prop :=
| toggled :
    (collapsed o = true <-> In "collapsed" (classes o)) ->
    (forall t, trigger o = Some t ->
               Attr.getAttribute "aria-expanded" (t_attrs t)
               = Some (stringOfBool (negb (collapsed o)))) ->
    (forall c, In c (contents (section o)) ->
               Attr.getAttribute "aria-hidden" c
               = Some (stringOfBool (collapsed o))) ->
    Toggled o.

End CollapsibleSectionJq.

(* ================================================================== *)
(** ** The script [collapsiblesection.js] as a whole

    The file holds two functions that are called on the spot, one after
    the other: the first sets up every element of class
    [collapsibleSection], the second every element of class [_js-filter].
    An error thrown from a loop ends the loop, the function around it and
    the script.  The sections are taken not to share a heading or a
    contents element, and the filter containers to have lists of their
    own. *)

Module Script.
Import Collapsible Page.

(** The loop over [collapsibleSections]: the controllers created, each with
    the elements it refers to, and the sections the loop did not reach. *)
Fixpoint initSections (sections : list Section)
  : Completion (list CollapsibleSection * list Section) :=
  match sections with
  | [] => Normal ([], [])
  | element :: rest =>
      let collapsibleSection := CollapsibleSection.new element in
      match CollapsibleSection.init collapsibleSection with
      | Throw o => Throw ([o], rest)
      | Normal o =>
          match initSections rest with
          | Normal (os, unreached) => Normal (o :: os, unreached)
          | Throw (os, unreached) => Throw (o :: os, unreached)
          end
      end
  end.

(** [[].forEach.call(filterContainers, setupFilter)]: the state of the
    containers [setupFilter] was called on, and the containers not
    reached. *)
Fixpoint setupFilters (hash : string) (containers : list FilterContainer)
  : Completion (list Filter.State * list FilterContainer) :=
  match containers with
  | [] => Normal ([], [])
  | filterContainer :: rest =>
      match Filter.setupFilter hash filterContainer with
      | Throw st => Throw ([st], rest)
      | Normal st =>
          match setupFilters hash rest with
          | Normal (sts, unreached) => Normal (st :: sts, unreached)
          | Throw (sts, unreached) => Throw (st :: sts, unreached)
          end
      end
  end.

(** The page the script is loaded in: the elements
    [querySelectorAll('.collapsibleSection')] and
    [querySelectorAll('._js-filter')] return, in document order, and
    [location.hash]. *)
Record Document : Type := mkDocument {
  collapsibleSections : list Section;
  filterContainers : list FilterContainer;
  hash : string
}.

(** The page once the script has run or was stopped by an error. *)
Record Loaded : Type := mkLoaded {
  controllers : list CollapsibleSection;
  sectionsNotReached : list Section;
  filters : list Filter.State;
  containersNotReached : list FilterContainer
}.

Definition main (doc : Document) : Completion Loaded :=
  match initSections (collapsibleSections doc) with
  | Throw (os, unreached) =>
      Throw (mkLoaded os unreached [] (filterContainers doc))
  | Normal (os, unreached) =>
      match setupFilters (hash doc) (filterContainers doc) with
      | Throw (sts, rest) => Throw (mkLoaded os unreached sts rest)
      | Normal (sts, rest) => Normal (mkLoaded os unreached sts rest)
      end
  end.

End Script.

(* ================================================================== *)
(** ** Vocabulary of the specification *)

Module Spec.
Import Page.

(** The item's declared value for a key: its [data-filter-<key>]
    attribute. *)
Definition itemValue (key : string) (item : Element) : option string :=
  Attr.getAttribute ("data-filter-" ++ key) (attrs item).

(** Every key whose wanted value is not the [sentinel] has the item's
    attribute equal to that wanted value. *)
Definition allKeysMatch (sentinel : string) (filter : JsObject.t)
  (item : Element) : Prop :=
  forall key wanted,
    In (key, wanted) filter -> wanted <> sentinel ->
    itemValue key item = Some wanted.

(** The entry asks for a value other than the [sentinel] that the item
    does not have. *)
Definition mismatches (sentinel : string) (item : Element)
  (entry : string * string) : Prop :=
  snd entry <> sentinel /\ itemValue (fst entry) item <> Some (snd entry).

(** At least one non-wildcard key's wanted value equals the item's
    attribute. *)
Definition someNonWildcardKeyMatches (filter : JsObject.t) (item : Element)
  : Prop :=
  exists key wanted,
    In (key, wanted) filter /\ wanted <> "*" /\
    itemValue key item = Some wanted.

(** The filter mapping consists entirely of wildcard values. *)
Definition entirelyWildcards (filter : JsObject.t) : Prop :=
  forall key wanted, In (key, wanted) filter -> wanted = "*".

(** At least one key's wanted value is the wildcard or equals the item's
    attribute. *)
Definition someKeyMatchesOrIsWildcard (filter : JsObject.t) (item : Element)
  : Prop :=
  exists key wanted,
    In (key, wanted) filter /\
    (wanted = "*" \/ itemValue key item = Some wanted).

(** The item is shown after the filter was applied: it has no [hidden]
    attribute (plain DOM script), or no inline [display: none] (jQuery
    script). *)
Definition shown (item : Element) : Prop := isHidden item = false.
Definition shownJq (item : Element) : Prop := displayNone item = false.

(** The segments of the fragment that follow the fixed prefix [#!]. *)
Definition segments (hash : string) : list string :=
  Str.split ";" (Str.drop 2 hash).

(** The fragment contains no segment beginning with [key=]. *)
Definition noSegmentFor (key hash : string) : Prop :=
  forall seg, In seg (segments hash) -> Str.startsWith (key ++ "=") seg = false.

(** The first occurrence of the text [key=] in a fragment, if there is one,
    is at the start of a segment: right after the prefix [#!] or after a
    [;]. *)
Definition firstOccurrenceStartsSegment (key fragment : string) : bool :=
  match Str.cut (key ++ "=") fragment with
  | None => true
  | Some (before, _) =>
      String.eqb before "#!"
      || (Str.startsWith "#!" before && Str.endsWithChar ";" before)
  end.



(** The value a segment gives for a key: what follows [key=] in it, when the
    segment begins with [key=] and that value is not empty. *)
Definition segmentValue (key seg : string) : option string :=
  if Str.startsWith (key ++ "=") seg
  then let value := Str.drop (String.length (key ++ "=")) seg in
       if Str.isEmpty value then None else Some value
  else None.

(** The value of the first segment that gives one for the key. *)
Fixpoint firstValue (key : string) (segs : list string) : option string :=
  match segs with
  | [] => None
  | seg :: segs' =>
      match segmentValue key seg with
      | Some value => Some value
      | None => firstValue key segs'
      end
  end.

Definition notEquals (c : ascii) : bool := negb (Ascii.eqb c "=").

(** A value the fragment can carry as it is: characters the URL parser
    keeps, none of them [;] or [$]. *)
Definition plainValue (value : string) : bool :=
  Str.all Str.notSemicolon value && Str.all Str.notDollar value
  && Str.all Str.fragmentSafe value.

(** A control that is checked or selected, as [collapsiblesection.js]
    tells it: a checked [INPUT] or a selected [OPTION]. *)
Definition checkedOrSelected (c : Control) : bool :=
  (String.eqb (tagName c) "INPUT" && checked c)
  || (String.eqb (tagName c) "OPTION" && selected c).

(** An unchecked [INPUT] that carries [data-filter-off]. *)
Definition uncheckedWithOff (c : Control) : bool :=
  String.eqb (tagName c) "INPUT" && negb (checked c)
  && match data_filter_off c with Some _ => true | None => false end.

(** A control that is checked or selected, as [filter_jquery.js] tells
    it: its [checked] or its [selected] property is set. *)
Definition checkedOrSelectedJq (c : Control) : bool :=
  checked c || selected c.

(** [c] is the last control of [controls], in document order, that
    satisfies [p]; [post] are the controls after it. *)
Definition lastSuch (p : Control -> bool) (controls : list Control)
  (c : Control) (post : list Control) : Prop :=
  (exists pre, controls = (pre ++ c :: post)%list)
  /\ p c = true
  /\ forall c', In c' post -> p c' = false.

(** The value a fragment gives for a key: that of its first segment that
    begins with [key=] and goes on, when the fragment begins with [#!];
    the default value otherwise. *)
Definition urlValue (key hash defaultValue : string) : string :=
  if Str.startsWith "#!" hash
  then match firstValue key (segments hash) with
       | Some value => value
       | None => defaultValue
       end
  else defaultValue.

(** The property of a control the scripts write: [selected] on an [OPTION],
    [checked] on any other element.  A property holds what was last
    written to it; what the browser itself then does to the other controls
    (it unchecks the other radio buttons of a group, and picks an option
    for a drop-down in which none is selected) is outside the model. *)
Definition isOn (c : Control) : bool :=
  if String.eqb (tagName c) "OPTION" then selected c else checked c.

(** The controls show the value [v]: the ones whose [data-filter] is [v]
    are on, the others are off. *)
Definition controlsShow (v : string) (controls : list Control) : Prop :=
  forall c, In c controls -> isOn c = String.eqb (data_filter c) v.

(** A control that can be checked or selected by the user and stands for
    the value [v]: an [INPUT] or an [OPTION] whose [data-filter] is [v]. *)
Definition standsFor (v : string) (c : Control) : bool :=
  (String.eqb (tagName c) "INPUT" || String.eqb (tagName c) "OPTION")
  && String.eqb (data_filter c) v.

(** An [INPUT] that stands for another value than [v] and carries
    [data-filter-off]: the value of that attribute. *)
Definition offValue (v : string) (c : Control) : option string :=
  if String.eqb (tagName c) "INPUT" && negb (String.eqb (data_filter c) v)
  then data_filter_off c
  else None.

(** The properties of a control as the DOM has them before a script
    writes to them: an [OPTION] has no [checked] property and an element
    of another kind no [selected] property, and reading a missing property
    gives a value that counts as false. *)
Definition domProperties (c : Control) : Prop :=
  if String.eqb (tagName c) "OPTION" then checked c = false
  else selected c = false.

(** The value [updateFilterPartFromUrl] gives the key of a filter part when
    [location.hash] is [hash]. *)
Definition valueFromUrl (hash : string) (part : FilterPart) : string :=
  match Pattern.matchAnchored hash with
  | Some rest =>
      match Pattern.matchFilterValue (data_filter_name part) rest with
      | Some value => value
      | None => Filter.defaultValueOf part
      end
  | None => Filter.defaultValueOf part
  end.

(** The filter part is as the fragment [hash] has it: the filter maps its
    key to the value the fragment gives, and its controls show that
    value. *)
Definition restoredFrom (hash : string) (filter : JsObject.t)
  (part : FilterPart) : Prop :=
  JsObject.get filter (data_filter_name part) = Some (valueFromUrl hash part)
  /\ controlsShow (valueFromUrl hash part) (filterControls part).

(** The item matches the filter under the join type: every key matches or
    is the wildcard (['and']), some key matches or is the wildcard
    (['or']). *)
Definition matches (joinType : Filter.JoinType) (filter : JsObject.t)
  (item : Element) : Prop :=
  match joinType with
  | Filter.JoinAnd => allKeysMatch "*" filter item
  | Filter.JoinOr => someKeyMatchesOrIsWildcard filter item
  end.

(** In the state of a filter container, the items of the list that are
    shown are those that match the filter. *)
Definition listShowsMatches (joinType : Filter.JoinType) (st : Filter.State)
  : Prop :=
  forall children k item,
    Filter.list_ st = Some children ->
    nth_error children k = Some (ElementNode item) ->
    (shown item <-> matches joinType (Filter.currentFilter st) item).

(** What a control is apart from its [checked] and [selected] properties,
    and a filter part apart from those properties of its controls. *)
Definition attributesOf (c : Control)
  : string * string * option string * option string :=
  (tagName c, data_filter c, data_filter_off c, aria_controls c).

Definition partAttributes (part : FilterPart)
  : string * option string
    * list (string * string * option string * option string) :=
  (data_filter_name part, data_filter_default part,
   map attributesOf (filterControls part)).

(** A section that has a heading and a contents element, the first of
    which has no [id] attribute. *)
Definition lacksId (s : Collapsible.Section) : Prop :=
  exists h c cs,
    Collapsible.heading s = Some h
    /\ Collapsible.contents s = c :: cs
    /\ Attr.getAttribute "id" c = None.

(** Two controllers have brought their sections to the same state: the
    same trigger, heading and contents elements, the same [collapsed]
    flag, and the same set of classes on the section. *)
Definition samePage (o o' : Collapsible.CollapsibleSection) : Prop :=
  Collapsible.trigger o = Collapsible.trigger o'
  /\ Collapsible.heading (Collapsible.section o)
     = Collapsible.heading (Collapsible.section o')
  /\ Collapsible.contents (Collapsible.section o)
     = Collapsible.contents (Collapsible.section o')
  /\ Collapsible.collapsed o = Collapsible.collapsed o'
  /\ Collapsible.sameClasses (Collapsible.classes o) (Collapsible.classes o').

(** The names of the filter parts are plain keys: spliced into a pattern,
    they stand for themselves.  A name of another kind can make the
    pattern match other texts, or fail to compile, in which case building
    it throws: both are outside the model. *)
Definition plainNames (parts : list FilterPart) : Prop :=
  forall part, In part parts -> Pattern.plainKey (data_filter_name part) = true.

(** The text [p] occurs at most once in [s]. *)
Definition occursAtMostOnce (p s : string) : bool :=
  match Str.cut p s with
  | None => true
  | Some (_, after) =>
      match Str.cut p after with
      | None => true
      | Some _ => false
      end
  end.

End Spec.

(* ================================================================== *)
(** ** The page of the scenarios

    Two filter parts, a group of radio buttons for the key [country] and a
    checkbox for the key [tag], and a list of a Norwegian and a Swedish
    item, both tagged [eco]. *)

Module Scenario.
Import Page.

Definition norway : Element :=
  mkElement [("data-filter-country", "Norway"); ("data-filter-tag", "eco")]
    false.

Definition sweden : Element :=
  mkElement [("data-filter-country", "Sweden"); ("data-filter-tag", "eco")]
    false.

Definition hide (item : Element) : Element :=
  mkElement (attrs item ++ [("hidden", "hidden")])%list (displayNone item).

Definition country : FilterPart :=
  mkFilterPart "country" None
    [mkControl "INPUT" false false "Norway" None None;
     mkControl "INPUT" false false "Sweden" None None].

Definition tag : FilterPart :=
  mkFilterPart "tag" None [mkControl "INPUT" false false "eco" None None].

Definition container (join : option string) : FilterContainer :=
  mkFilterContainer (Some "list1") join true None [country; tag]
    (Some [ElementNode norway; OtherNode " "; ElementNode sweden]).

(** The page once [setupFilter] has run with an empty fragment. *)
Definition start (join : option string) : Filter.State :=
  stateOf (Filter.setupFilter "" (container join)).

End Scenario.

(* ================================================================== *)
(** * Properties *)

(** ** Applying the filter to the list *)

Section ApplyFilter.
Import Page Spec.

Lemma strictEq_true (a : option string) (b : string) :
  strictEq a b = true <-> a = Some b.
Proof.
  destruct a as [s|]; simpl.
  - rewrite String.eqb_eq. split; [intros ->; reflexivity | congruence].
  - split; discriminate.
Qed.

Lemma strictEq_false (a : option string) (b : string) :
  strictEq a b = false <-> a <> Some b.
Proof.
  rewrite <- strictEq_true. destruct (strictEq a b); split; congruence.
Qed.

Lemma hasAttribute_set (n v : string) (a : Attr.t) :
  Attr.hasAttribute n (Attr.setAttribute n v a) = true.
Proof.
  unfold Attr.hasAttribute.
  induction a as [|[n' v'] a IH]; simpl.
  - rewrite String.eqb_refl. reflexivity.
  - destruct (String.eqb n' n) eqn:E; simpl; rewrite E; auto.
Qed.

Lemma hasAttribute_remove (n : string) (a : Attr.t) :
  Attr.hasAttribute n (Attr.removeAttribute n a) = false.
Proof.
  unfold Attr.hasAttribute.
  induction a as [|[n' v'] a IH]; simpl; auto.
  destruct (String.eqb n' n) eqn:E; simpl; [|rewrite E]; auto.
Qed.

Lemma getAttribute_set_other (n m v : string) (a : Attr.t) :
  m <> n ->
  Attr.getAttribute m (Attr.setAttribute n v a) = Attr.getAttribute m a.
Proof.
  intros Hmn. induction a as [|[n' v'] a IH]; simpl.
  - destruct (String.eqb n m) eqn:E; auto.
    apply String.eqb_eq in E. congruence.
  - destruct (String.eqb n' n) eqn:E; simpl.
    + apply String.eqb_eq in E. subst n'.
      destruct (String.eqb n m) eqn:E'; auto.
      apply String.eqb_eq in E'. congruence.
    + rewrite IH. reflexivity.
Qed.

Lemma getAttribute_remove_other (n m : string) (a : Attr.t) :
  m <> n ->
  Attr.getAttribute m (Attr.removeAttribute n a) = Attr.getAttribute m a.
Proof.
  intros Hmn. induction a as [|[n' v'] a IH]; simpl; auto.
  destruct (String.eqb n' n) eqn:E; simpl.
  - apply String.eqb_eq in E. subst n'.
    destruct (String.eqb n m) eqn:E'; auto.
    apply String.eqb_eq in E'. congruence.
  - rewrite IH. reflexivity.
Qed.

(** The loop in AND mode: the result is [true] exactly when no entry
    mismatches. *)
Lemma and_loop_shows (item : Element) (filter : JsObject.t) :
  fst (Filter.forKeyInFilter Filter.JoinAnd item filter true) = true
  <-> allKeysMatch "*" filter item.
Proof.
  unfold allKeysMatch, itemValue.
  induction filter as [|[key wanted] filter IH]; simpl.
  - split; [intros _ k w [] | reflexivity].
  - destruct (strictEq _ wanted) eqn:Eq; simpl.
    + destruct (Filter.forKeyInFilter _ item filter true) as [b ks] eqn:El.
      simpl in *. rewrite IH. apply strictEq_true in Eq.
      split.
      * intros H k w [Hin|Hin] Hw; [|eauto]. inversion Hin; subst. exact Eq.
      * intros H k w Hin Hw. apply H; auto.
    + destruct (String.eqb wanted "*") eqn:Ew; simpl.
      * destruct (Filter.forKeyInFilter _ item filter true) as [b ks] eqn:El.
        simpl in *. rewrite IH. apply String.eqb_eq in Ew. subst wanted.
        split.
        -- intros H k w [Hin|Hin] Hw; [|eauto]. inversion Hin; subst.
           congruence.
        -- intros H k w Hin Hw. apply H; auto.
      * split; [discriminate|]. intros H. exfalso.
        apply String.eqb_neq in Ew. apply strictEq_false in Eq.
        apply Eq. apply H; auto.
Qed.

(** The loop in AND mode stops at the first mismatching entry. *)
Lemma and_loop_stops (item : Element) (pre post : JsObject.t)
  (key wanted : string) :
  (forall e, In e pre -> ~ mismatches "*" item e) ->
  mismatches "*" item (key, wanted) ->
  Filter.forKeyInFilter Filter.JoinAnd item (pre ++ (key, wanted) :: post)%list
    true
  = (false, (JsObject.keys pre ++ [key])%list).
Proof.
  unfold mismatches, itemValue. simpl. intros Hpre [Hw Hv].
  induction pre as [|[k w] pre IH]; simpl.
  - apply strictEq_false in Hv. rewrite Hv.
    apply String.eqb_neq in Hw. rewrite Hw. reflexivity.
  - destruct (negb (strictEq _ w) && negb (String.eqb w "*")) eqn:E.
    + exfalso. apply (Hpre (k, w)); [left; reflexivity|]. simpl.
      apply andb_true_iff in E. destruct E as [E1 E2].
      apply negb_true_iff in E1, E2.
      apply strictEq_false in E1. apply String.eqb_neq in E2. auto.
    + rewrite IH; [reflexivity|]. intros e He. apply Hpre. right. exact He.
Qed.

(** The same two facts for the loop of [filter_jquery.js], whose sentinel
    is the empty string. *)
Lemma length_pos_iff (s : string) :
  Nat.ltb 0 (String.length s) = true <-> s <> "".
Proof.
  destruct s; simpl; split; intros H; try discriminate; try reflexivity.
  exfalso. apply H. reflexivity.
Qed.

Lemma jq_loop_hides (item : Element) (filter : JsObject.t) :
  fst (FilterJq.forKeyInFilter item filter) = false
  <-> allKeysMatch "" filter item.
Proof.
  unfold allKeysMatch, itemValue.
  induction filter as [|[key wanted] filter IH]; simpl.
  - split; [intros _ k w [] | reflexivity].
  - destruct (Nat.ltb 0 (String.length wanted)) eqn:El; simpl.
    + destruct (strictEq _ wanted) eqn:Eq; simpl.
      * destruct (FilterJq.forKeyInFilter item filter) as [b ks] eqn:E.
        simpl in *. rewrite IH. apply strictEq_true in Eq.
        split.
        -- intros H k w [Hin|Hin] Hw; [|eauto]. inversion Hin; subst. exact Eq.
        -- intros H k w Hin Hw. apply H; auto.
      * split; [discriminate|]. intros H. exfalso.
        apply length_pos_iff in El. apply strictEq_false in Eq.
        apply Eq. apply H; auto.
    + destruct (FilterJq.forKeyInFilter item filter) as [b ks] eqn:E.
      simpl in *. rewrite IH.
      assert (wanted = "") as ->.
      { destruct wanted; [reflexivity | discriminate]. }
      split.
      * intros H k w [Hin|Hin] Hw; [|eauto]. inversion Hin; subst. congruence.
      * intros H k w Hin Hw. apply H; auto.
Qed.

Lemma jq_loop_stops (item : Element) (pre post : JsObject.t)
  (key wanted : string) :
  (forall e, In e pre -> ~ mismatches "" item e) ->
  mismatches "" item (key, wanted) ->
  FilterJq.forKeyInFilter item (pre ++ (key, wanted) :: post)%list
  = (true, (JsObject.keys pre ++ [key])%list).
Proof.
  unfold mismatches, itemValue. simpl. intros Hpre [Hw Hv].
  induction pre as [|[k w] pre IH]; simpl.
  - apply strictEq_false in Hv. rewrite Hv.
    apply length_pos_iff in Hw. rewrite Hw. reflexivity.
  - destruct (Nat.ltb 0 (String.length w) && negb (strictEq _ w)) eqn:E.
    + exfalso. apply (Hpre (k, w)); [left; reflexivity|]. simpl.
      apply andb_true_iff in E. destruct E as [E1 E2].
      apply negb_true_iff in E2.
      apply strictEq_false in E2. apply length_pos_iff in E1. auto.
    + rewrite IH; [reflexivity|]. intros e He. apply Hpre. right. exact He.
Qed.

Lemma updateItem_and_shown (filter : JsObject.t) (item : Element) :
  shown (Filter.updateItem Filter.JoinAnd filter item)
  <-> allKeysMatch "*" filter item.
Proof.
  rewrite <- and_loop_shows. unfold shown, isHidden, Filter.updateItem,
    Filter.shouldShow. simpl.
  destruct (fst (Filter.forKeyInFilter _ item filter true)); simpl.
  - rewrite hasAttribute_remove. tauto.
  - rewrite hasAttribute_set. split; discriminate.
Qed.

Lemma updateItem_jq_shown (filter : JsObject.t) (item : Element) :
  shownJq (FilterJq.updateItem filter item) <-> allKeysMatch "" filter item.
Proof.
  assert (allKeysMatch "" filter item
          <-> allKeysMatch "" filter (mkElement (attrs item) false)) as ->
    by reflexivity.
  rewrite <- jq_loop_hides. unfold shownJq, FilterJq.updateItem.
  destruct (fst (FilterJq.forKeyInFilter _ filter)); simpl;
    split; congruence.
Qed.

Lemma updateItem_or_shown (filter : JsObject.t) (item : Element) :
  shown (Filter.updateItem Filter.JoinOr filter item)
  <-> someKeyMatchesOrIsWildcard filter item.
Proof.
  unfold shown, isHidden, Filter.updateItem, Filter.shouldShow. simpl.
  assert (fst (Filter.forKeyInFilter Filter.JoinOr item filter false) = true
          <-> someKeyMatchesOrIsWildcard filter item) as H.
  { unfold someKeyMatchesOrIsWildcard, itemValue.
    induction filter as [|[key wanted] filter IH]; simpl.
    - split; [discriminate | intros (k & w & [] & _)].
    - destruct (strictEq _ wanted || String.eqb wanted "*") eqn:E.
      + simpl. split; [intros _|reflexivity].
        exists key, wanted. split; [left; reflexivity|].
        apply orb_true_iff in E. destruct E as [E|E].
        * right. apply strictEq_true. exact E.
        * left. apply String.eqb_eq. exact E.
      + destruct (Filter.forKeyInFilter _ item filter false) as [b ks].
        simpl in *. rewrite IH.
        apply orb_false_iff in E. destruct E as [E1 E2].
        apply strictEq_false in E1. apply String.eqb_neq in E2.
        split.
        * intros (k & w & Hin & H). exists k, w. auto.
        * intros (k & w & [Hin|Hin] & H).
          -- inversion Hin; subst. destruct H; congruence.
          -- exists k, w. auto. }
  destruct (fst (Filter.forKeyInFilter _ item filter false)); simpl.
  - rewrite hasAttribute_remove. tauto.
  - rewrite hasAttribute_set. rewrite <- H. split; discriminate.
Qed.

Lemma nth_error_updateNode (f : Element -> Element) (g : Node -> Node)
  (children : list Node) (i : nat) (item : Element) :
  (forall e, g (ElementNode e) = ElementNode (f e)) ->
  nth_error children i = Some (ElementNode item) ->
  nth_error (map g children) i = Some (ElementNode (f item)).
Proof.
  intros Hg H. rewrite nth_error_map, H. simpl. rewrite Hg. reflexivity.
Qed.

End ApplyFilter.

Section JoinModes.
Import Page Spec.

(** C1, as amended.  In [collapsiblesection.js] with join type ['and'],
    applying the filter to a list leaves every element child shown exactly
    when every key whose wanted value is not ["*"] has the item's
    [data-filter-<key>] attribute equal to that wanted value; at the first
    mismatching key the item is hidden and no further key is read for it.
    In [filter_jquery.js], which has no join mode and always joins
    conjunctively, the same holds with the empty string in the place of
    ["*"]. *)
Theorem updateListFromFilter_and_mode
  (children : list Node) (filter : JsObject.t) (i : nat) (item : Element) :
  nth_error children i = Some (ElementNode item) ->
  (exists children' item',
      Filter.updateListFromFilter (Some children) filter Filter.JoinAnd
      = Normal (Some children')
      /\ nth_error children' i = Some (ElementNode item')
      /\ (shown item' <-> allKeysMatch "*" filter item)
      /\ (forall pre key wanted post,
             filter = (pre ++ (key, wanted) :: post)%list ->
             (forall e, In e pre -> ~ mismatches "*" item e) ->
             mismatches "*" item (key, wanted) ->
             ~ shown item'
             /\ Filter.keysRead Filter.JoinAnd filter item
                = (JsObject.keys pre ++ [key])%list))
  /\
  (exists children' item',
      FilterJq.updateListFromFilter (Some children) filter = Some children'
      /\ nth_error children' i = Some (ElementNode item')
      /\ (shownJq item' <-> allKeysMatch "" filter item)
      /\ (forall pre key wanted post,
             filter = (pre ++ (key, wanted) :: post)%list ->
             (forall e, In e pre -> ~ mismatches "" item e) ->
             mismatches "" item (key, wanted) ->
             ~ shownJq item'
             /\ FilterJq.keysRead filter item
                = (JsObject.keys pre ++ [key])%list)).
Proof.
  intros Hi. split.
  - exists (map (Filter.updateNode Filter.JoinAnd filter) children),
      (Filter.updateItem Filter.JoinAnd filter item).
    split; [reflexivity|]. split.
    { apply nth_error_updateNode; [reflexivity | exact Hi]. }
    split; [apply updateItem_and_shown|].
    intros pre key wanted post -> Hpre Hmis.
    pose proof (and_loop_stops item pre post key wanted Hpre Hmis) as Hloop.
    split.
    + rewrite updateItem_and_shown, <- and_loop_shows, Hloop. discriminate.
    + unfold Filter.keysRead. simpl. rewrite Hloop. reflexivity.
  - exists (map (FilterJq.updateNode filter) children),
      (FilterJq.updateItem filter item).
    split; [reflexivity|]. split.
    { apply nth_error_updateNode; [reflexivity | exact Hi]. }
    split; [apply updateItem_jq_shown|].
    intros pre key wanted post -> Hpre Hmis.
    pose proof (jq_loop_stops (mkElement (attrs item) false) pre post key
                  wanted Hpre Hmis) as Hloop.
    split.
    + intros Hs. apply updateItem_jq_shown in Hs.
      change (allKeysMatch "" (pre ++ (key, wanted) :: post)%list
                (mkElement (attrs item) false)) in Hs.
      apply jq_loop_hides in Hs. rewrite Hloop in Hs. discriminate.
    + unfold FilterJq.keysRead. rewrite Hloop. reflexivity.
Qed.

(** The scenario of the specification: keys [country] and [tag], filter
    [{country: "Norway", tag: "*"}], a Norwegian and a Swedish item.  The
    Swedish item mismatches at the first key: it is hidden, and [tag] is
    not read for it. *)
Lemma updateListFromFilter_and_mode_witness :
  exists children' item',
    Filter.updateListFromFilter
      (Some [ElementNode Scenario.norway; ElementNode Scenario.sweden])
      [("country", "Norway"); ("tag", "*")] Filter.JoinAnd
    = Normal (Some children')
    /\ nth_error children' 1 = Some (ElementNode item')
    /\ ~ shown item'
    /\ Filter.keysRead Filter.JoinAnd [("country", "Norway"); ("tag", "*")]
         Scenario.sweden
       = ["country"].
Proof.
  destruct (updateListFromFilter_and_mode
              [ElementNode Scenario.norway; ElementNode Scenario.sweden]
              [("country", "Norway"); ("tag", "*")] 1 Scenario.sweden eq_refl)
    as [(children' & item' & Hlist & Hnth & _ & Hstop) _].
  exists children', item'. split; [exact Hlist|]. split; [exact Hnth|].
  apply (Hstop [] "country" "Norway" [("tag", "*")] eq_refl).
  - intros e [].
  - split; discriminate.
Defined.

(** C1 as stated fails on [filter_jquery.js]: with the filter
    [{country: "*"}] no key has a wanted value other than ["*"], yet the
    Norwegian item is hidden. *)
Lemma updateListFromFilter_jquery_star_hides :
  allKeysMatch "*" [("country", "*")]
    (mkElement [("data-filter-country", "Norway")] false)
  /\ FilterJq.updateListFromFilter
       (Some [ElementNode (mkElement [("data-filter-country", "Norway")] false)])
       [("country", "*")]
     = Some [ElementNode (mkElement [("data-filter-country", "Norway")] true)]
  /\ ~ shownJq (mkElement [("data-filter-country", "Norway")] true).
Proof.
  split; [|split].
  - intros key wanted [H|[]] Hw. inversion H; subst. congruence.
  - reflexivity.
  - unfold shownJq. simpl. discriminate.
Qed.

(** C2, as amended.  With join type ['or'], applying the filter leaves an
    element child shown exactly when at least one key's wanted value is
    ["*"] or equals the item's [data-filter-<key>] attribute. *)
Theorem updateListFromFilter_or_mode
  (children : list Node) (filter : JsObject.t) (i : nat) (item : Element) :
  nth_error children i = Some (ElementNode item) ->
  exists children' item',
    Filter.updateListFromFilter (Some children) filter Filter.JoinOr
    = Normal (Some children')
    /\ nth_error children' i = Some (ElementNode item')
    /\ (shown item' <-> someKeyMatchesOrIsWildcard filter item).
Proof.
  intros Hi.
  exists (map (Filter.updateNode Filter.JoinOr filter) children),
    (Filter.updateItem Filter.JoinOr filter item).
  split; [reflexivity|]. split.
  - apply nth_error_updateNode; [reflexivity | exact Hi].
  - apply updateItem_or_shown.
Qed.

(** The OR scenario of the specification: with the filter
    [{country: "*", tag: "eco"}] the Swedish item is shown. *)
Lemma updateListFromFilter_or_mode_witness :
  exists children' item',
    Filter.updateListFromFilter
      (Some [ElementNode Scenario.norway; ElementNode Scenario.sweden])
      [("country", "*"); ("tag", "eco")] Filter.JoinOr
    = Normal (Some children')
    /\ nth_error children' 1 = Some (ElementNode item')
    /\ shown item'.
Proof.
  destruct (updateListFromFilter_or_mode
              [ElementNode Scenario.norway; ElementNode Scenario.sweden]
              [("country", "*"); ("tag", "eco")] 1 Scenario.sweden eq_refl)
    as (children' & item' & Hlist & Hnth & Hshown).
  exists children', item'. split; [exact Hlist|]. split; [exact Hnth|].
  apply Hshown. exists "tag", "eco". split.
  - right. left. reflexivity.
  - right. reflexivity.
Defined.

(** C2 as stated fails: with the filter [{country: "*", tag: "eco"}] an
    item tagged [bio] is shown, although no non-wildcard key matches it and
    the filter is not made of wildcards only. *)
Lemma updateListFromFilter_or_wildcard_shows :
  Filter.updateListFromFilter
    (Some [ElementNode (mkElement [("data-filter-tag", "bio")] false)])
    [("country", "*"); ("tag", "eco")] Filter.JoinOr
  = Normal (Some [ElementNode (mkElement [("data-filter-tag", "bio")] false)])
  /\ shown (mkElement [("data-filter-tag", "bio")] false)
  /\ ~ (someNonWildcardKeyMatches [("country", "*"); ("tag", "eco")]
          (mkElement [("data-filter-tag", "bio")] false)
        \/ entirelyWildcards [("country", "*"); ("tag", "eco")]).
Proof.
  split; [reflexivity|]. split; [reflexivity|].
  intros [(key & wanted & Hin & Hw & Hv)|Hall].
  - destruct Hin as [H|[H|[]]]; inversion H; subst.
    + congruence.
    + discriminate Hv.
  - specialize (Hall "tag" "eco"). discriminate Hall. right. left. reflexivity.
Qed.

End JoinModes.

(** ** Reading a filter value off the controls *)

Section FromControls.
Import Page Spec.

Lemma set_proto (o : JsObject.t) (v : string) :
  JsObject.set o "__proto__" v = o.
Proof. reflexivity. Qed.

Lemma get_proto (o : JsObject.t) : JsObject.get o "__proto__" = None.
Proof. reflexivity. Qed.

Lemma set_assign (o : JsObject.t) (k v : string) :
  k <> "__proto__" -> JsObject.set o k v = JsObject.assign o k v.
Proof.
  intros Hk. unfold JsObject.set.
  apply String.eqb_neq in Hk. rewrite Hk. reflexivity.
Qed.

Lemma get_lookup (o : JsObject.t) (k : string) :
  k <> "__proto__" -> JsObject.get o k = JsObject.lookup o k.
Proof.
  intros Hk. unfold JsObject.get.
  apply String.eqb_neq in Hk. rewrite Hk. reflexivity.
Qed.

Lemma get_Some_name (o : JsObject.t) (k v : string) :
  JsObject.get o k = Some v -> k <> "__proto__".
Proof. intros H ->. discriminate H. Qed.

Lemma assign_assign (o : JsObject.t) (k a b : string) :
  JsObject.assign (JsObject.assign o k a) k b = JsObject.assign o k b.
Proof.
  induction o as [|[k' v'] o IH]; simpl.
  - rewrite String.eqb_refl. reflexivity.
  - destruct (String.eqb k' k) eqn:E; simpl; rewrite E; congruence.
Qed.

Lemma lookup_assign (o : JsObject.t) (k v : string) :
  JsObject.lookup (JsObject.assign o k v) k = Some v.
Proof.
  induction o as [|[k' v'] o IH]; simpl.
  - rewrite String.eqb_refl. reflexivity.
  - destruct (String.eqb k' k) eqn:E; simpl; rewrite E; auto.
Qed.

Lemma lookup_assign_other (o : JsObject.t) (k k2 v : string) :
  k2 <> k ->
  JsObject.lookup (JsObject.assign o k v) k2 = JsObject.lookup o k2.
Proof.
  intros Hk. induction o as [|[k' v'] o IH]; simpl.
  - destruct (String.eqb k k2) eqn:E; auto.
    apply String.eqb_eq in E. congruence.
  - destruct (String.eqb k' k) eqn:E; simpl.
    + apply String.eqb_eq in E. subst k'.
      destruct (String.eqb k k2) eqn:E2; auto.
      apply String.eqb_eq in E2. congruence.
    + rewrite IH. reflexivity.
Qed.

Lemma set_set (o : JsObject.t) (k a b : string) :
  JsObject.set (JsObject.set o k a) k b = JsObject.set o k b.
Proof.
  unfold JsObject.set. destruct (String.eqb k "__proto__"); [reflexivity|].
  apply assign_assign.
Qed.

Lemma get_set (o : JsObject.t) (k v : string) :
  k <> "__proto__" -> JsObject.get (JsObject.set o k v) k = Some v.
Proof.
  intros Hk. rewrite (get_lookup _ k Hk), (set_assign o k v Hk).
  apply lookup_assign.
Qed.

Lemma get_set_other (o : JsObject.t) (k k2 v : string) :
  k2 <> k -> JsObject.get (JsObject.set o k v) k2 = JsObject.get o k2.
Proof.
  intros Hk. unfold JsObject.get, JsObject.set.
  destruct (String.eqb k2 "__proto__"); [reflexivity|].
  destruct (String.eqb k "__proto__"); [reflexivity|].
  apply lookup_assign_other, Hk.
Qed.

Lemma controlStep_set (key : string) (o : JsObject.t) (v : string)
  (c : Control) :
  exists v', Filter.controlStep key (JsObject.set o key v) c = JsObject.set o key v'.
Proof.
  unfold Filter.controlStep.
  destruct (_ || _).
  - eexists. apply set_set.
  - destruct (_ && _); [destruct (data_filter_off c)|].
    + eexists. apply set_set.
    + eexists. reflexivity.
    + eexists. reflexivity.
Qed.

Lemma controls_set (key : string) (cs : list Control) (o : JsObject.t)
  (v : string) :
  exists v',
    fold_left (Filter.controlStep key) cs (JsObject.set o key v)
    = JsObject.set o key v'.
Proof.
  revert v. induction cs as [|c cs IH]; intros v; simpl.
  - eexists. reflexivity.
  - destruct (controlStep_set key o v c) as [v' ->]. apply IH.
Qed.

Lemma controls_idle (key : string) (cs : list Control) (o : JsObject.t) :
  (forall c, In c cs -> checkedOrSelected c = false) ->
  (forall c, In c cs -> uncheckedWithOff c = false) ->
  fold_left (Filter.controlStep key) cs o = o.
Proof.
  induction cs as [|c cs IH]; intros Hon Hoff; simpl; [reflexivity|].
  assert (Filter.controlStep key o c = o) as ->.
  { specialize (Hon c (or_introl eq_refl)).
    specialize (Hoff c (or_introl eq_refl)).
    unfold Filter.controlStep, checkedOrSelected, uncheckedWithOff in *.
    rewrite Hon.
    destruct (String.eqb (tagName c) "INPUT" && negb (checked c));
      [|reflexivity].
    destruct (data_filter_off c); [discriminate | reflexivity]. }
  apply IH; intros c' Hc'; [apply Hon | apply Hoff]; right; exact Hc'.
Qed.

Lemma updateFilterPartFromControls_last (filter : JsObject.t) (key : string)
  (controls post : list Control) (c : Control) :
  lastSuch checkedOrSelected controls c post ->
  (forall c', In c' post -> uncheckedWithOff c' = false) ->
  Filter.updateFilterPartFromControls filter key controls
  = JsObject.set filter key (data_filter c).
Proof.
  intros ([pre ->] & Hc & Hpost) Hoff.
  unfold Filter.updateFilterPartFromControls.
  change (fold_left (Filter.controlStep key) (pre ++ c :: post)%list
            (JsObject.set filter key "")
          = JsObject.set filter key (data_filter c)).
  rewrite fold_left_app. simpl.
  destruct (controls_set key pre filter "") as [v ->].
  assert (Filter.controlStep key (JsObject.set filter key v) c
          = JsObject.set filter key (data_filter c)) as ->.
  { unfold Filter.controlStep. unfold checkedOrSelected in Hc. rewrite Hc.
    apply set_set. }
  apply controls_idle; assumption.
Qed.

Lemma updateFilterPartFromControls_none (filter : JsObject.t) (key : string)
  (controls : list Control) :
  (forall c, In c controls -> checkedOrSelected c = false) ->
  (forall c, In c controls -> uncheckedWithOff c = false) ->
  Filter.updateFilterPartFromControls filter key controls
  = JsObject.set filter key "".
Proof.
  intros Hon Hoff. unfold Filter.updateFilterPartFromControls.
  change (fold_left (Filter.controlStep key) controls (JsObject.set filter key "")
          = JsObject.set filter key "").
  apply controls_idle; assumption.
Qed.

(** The same for [filter_jquery.js]. *)
Lemma controls_set_jq (key : string) (cs : list Control) (o : JsObject.t)
  (v : string) :
  exists v',
    fold_left (FilterJq.controlStep key) cs (JsObject.set o key v)
    = JsObject.set o key v'.
Proof.
  revert v. induction cs as [|c cs IH]; intros v; simpl.
  - eexists. reflexivity.
  - unfold FilterJq.controlStep at 2. destruct (_ || _).
    + rewrite set_set. apply IH.
    + apply IH.
Qed.

Lemma controls_idle_jq (key : string) (cs : list Control) (o : JsObject.t) :
  (forall c, In c cs -> checkedOrSelectedJq c = false) ->
  fold_left (FilterJq.controlStep key) cs o = o.
Proof.
  induction cs as [|c cs IH]; intros Hon; simpl; [reflexivity|].
  unfold FilterJq.controlStep at 2.
  rewrite (Hon c (or_introl eq_refl) : checked c || selected c = false).
  apply IH. intros c' Hc'. apply Hon. right. exact Hc'.
Qed.

Lemma updateFilterPartFromControls_jq_last (filter : JsObject.t)
  (key : string) (controls post : list Control) (c : Control) :
  lastSuch checkedOrSelectedJq controls c post ->
  FilterJq.updateFilterPartFromControls filter key controls
  = JsObject.set filter key (data_filter c).
Proof.
  intros ([pre ->] & Hc & Hpost).
  unfold FilterJq.updateFilterPartFromControls.
  change (fold_left (FilterJq.controlStep key) (pre ++ c :: post)%list
            (JsObject.set filter key "")
          = JsObject.set filter key (data_filter c)).
  rewrite fold_left_app. simpl.
  destruct (controls_set_jq key pre filter "") as [v ->].
  unfold FilterJq.controlStep at 2.
  rewrite (Hc : checked c || selected c = true), set_set.
  apply controls_idle_jq. exact Hpost.
Qed.

Lemma updateFilterPartFromControls_jq_none (filter : JsObject.t)
  (key : string) (controls : list Control) :
  (forall c, In c controls -> checkedOrSelectedJq c = false) ->
  FilterJq.updateFilterPartFromControls filter key controls
  = JsObject.set filter key "".
Proof.
  intros Hon. unfold FilterJq.updateFilterPartFromControls.
  change (fold_left (FilterJq.controlStep key) controls (JsObject.set filter key "")
          = JsObject.set filter key "").
  apply controls_idle_jq. exact Hon.
Qed.

End FromControls.

Section FromControlsTheorem.
Import Page Spec.

(** C10, as amended.  When [updateFilterPartFromControls] recomputes a key's
    value in [collapsiblesection.js], the value becomes the [data-filter]
    value of the last checked or selected control in document order,
    provided that no unchecked [INPUT] carrying [data-filter-off] comes
    after that control; if no control is checked or selected and no
    unchecked [INPUT] carries [data-filter-off], the value becomes the empty
    string.  In [filter_jquery.js], which does not read [data-filter-off],
    the value becomes the [data-filter] value of the last checked or
    selected control, and the empty string if there is none.  The key is
    any name but [__proto__], under which an assignment stores nothing. *)
Theorem updateFilterPartFromControls_value
  (filter : JsObject.t) (key : string) (controls : list Control) :
  key <> "__proto__" ->
  (forall c post,
      lastSuch checkedOrSelected controls c post ->
      (forall c', In c' post -> uncheckedWithOff c' = false) ->
      JsObject.get (Filter.updateFilterPartFromControls filter key controls) key
      = Some (data_filter c))
  /\ ((forall c, In c controls -> checkedOrSelected c = false) ->
      (forall c, In c controls -> uncheckedWithOff c = false) ->
      JsObject.get (Filter.updateFilterPartFromControls filter key controls) key
      = Some "")
  /\ (forall c post,
         lastSuch checkedOrSelectedJq controls c post ->
         JsObject.get (FilterJq.updateFilterPartFromControls filter key controls)
           key
         = Some (data_filter c))
  /\ ((forall c, In c controls -> checkedOrSelectedJq c = false) ->
      JsObject.get (FilterJq.updateFilterPartFromControls filter key controls)
        key
      = Some "").
Proof.
  intros Hk. repeat split.
  - intros c post Hlast Hoff.
    rewrite (updateFilterPartFromControls_last filter key controls post c);
      auto using get_set.
  - intros Hon Hoff.
    rewrite updateFilterPartFromControls_none; auto using get_set.
  - intros c post Hlast.
    rewrite (updateFilterPartFromControls_jq_last filter key controls post c);
      auto using get_set.
  - intros Hon.
    rewrite updateFilterPartFromControls_jq_none; auto using get_set.
Qed.

(** Two checked boxes: the second one gives the value. *)
Lemma updateFilterPartFromControls_value_witness :
  JsObject.get
    (Filter.updateFilterPartFromControls [("tag", "*")] "tag"
       [mkControl "INPUT" true false "eco" None None;
        mkControl "INPUT" true false "bio" None None;
        mkControl "INPUT" false false "raw" None None])
    "tag"
  = Some "bio".
Proof.
  assert (Hk : "tag" <> "__proto__") by discriminate.
  apply (proj1 (updateFilterPartFromControls_value [("tag", "*")] "tag"
                  [mkControl "INPUT" true false "eco" None None;
                   mkControl "INPUT" true false "bio" None None;
                   mkControl "INPUT" false false "raw" None None] Hk)
           (mkControl "INPUT" true false "bio" None None)
           [mkControl "INPUT" false false "raw" None None]).
  - split; [|split].
    + exists [mkControl "INPUT" true false "eco" None None]. reflexivity.
    + reflexivity.
    + intros c' [<-|[]]. reflexivity.
  - intros c' [<-|[]]. reflexivity.
Defined.

(** C10 as stated fails on [collapsiblesection.js]: the last checked control
    carries ["bio"], but an unchecked box with [data-filter-off] comes after
    it and its off value is what the key gets. *)
Lemma updateFilterPartFromControls_off_overrides :
  lastSuch checkedOrSelected
    [mkControl "INPUT" true false "eco" None None;
     mkControl "INPUT" true false "bio" None None;
     mkControl "INPUT" false false "raw" (Some "none") None]
    (mkControl "INPUT" true false "bio" None None)
    [mkControl "INPUT" false false "raw" (Some "none") None]
  /\ JsObject.get
       (Filter.updateFilterPartFromControls [("tag", "*")] "tag"
          [mkControl "INPUT" true false "eco" None None;
           mkControl "INPUT" true false "bio" None None;
           mkControl "INPUT" false false "raw" (Some "none") None])
       "tag"
     = Some "none"
  /\ Some "none" <> Some (data_filter (mkControl "INPUT" true false "bio" None None)).
Proof.
  split; [|split].
  - split; [|split].
    + exists [mkControl "INPUT" true false "eco" None None]. reflexivity.
    + reflexivity.
    + intros c' [<-|[]]. reflexivity.
  - reflexivity.
  - discriminate.
Qed.

End FromControlsTheorem.

(** ** Collapsible sections *)

Section CollapsibleInit.
Import Collapsible.

(** [init] of [collapsiblesection.js] returns at once, leaving the section
    and the controller as they were, when the section has no heading or no
    contents element. *)
Lemma init_without_heading_or_contents (s : Section) :
  heading s = None \/ contents s = [] ->
  CollapsibleSection.init (CollapsibleSection.new s)
  = Normal (CollapsibleSection.new s).
Proof.
  unfold CollapsibleSection.init, CollapsibleSection.this_heading,
    CollapsibleSection.this_contents. simpl.
  intros [-> | ->]; [reflexivity|]. destruct (heading s); reflexivity.
Qed.

(** C7, on the failing input.  [init] of the jQuery variant run on a section
    that has a contents element but no heading: the section gets the classes
    [collapsed] and [scripted] and its contents element gets
    [aria-hidden="true"]. *)
Lemma init_jquery_without_heading_marks_section :
  CollapsibleSectionJq.init
    (CollapsibleSectionJq.new
       (mkSection "collapsibleSection" None [[("id", "details")]]))
  = mkCollapsibleSection
      (mkSection "collapsibleSection collapsed scripted" None
         [[("id", "details"); ("aria-hidden", "true")]])
      true None.
Proof. reflexivity. Qed.

(** With both elements present, [init] of [collapsiblesection.js] throws
    exactly when the first contents element has no [id] attribute. *)
Lemma init_throws_iff_no_id (s : Section) (h : Heading) (c : Attr.t)
  (cs : list Attr.t) :
  heading s = Some h -> contents s = c :: cs ->
  (throws (CollapsibleSection.init (CollapsibleSection.new s)) = true
   <-> Attr.getAttribute "id" c = None).
Proof.
  intros Hh Hc. destruct s as [cn hd ct]. simpl in Hh, Hc. subst hd ct.
  unfold CollapsibleSection.init, CollapsibleSection.this_heading,
    CollapsibleSection.this_contents. simpl.
  destruct (Attr.getAttribute "id" c) as [contentsId|]; simpl.
  - destruct (CollapsibleSection.moveChildren _ _) as [hc tc].
    unfold CollapsibleSection.setCollapseState. simpl.
    split; discriminate.
  - split; reflexivity.
Qed.

(** C8, on the failing input.  [init] of [collapsiblesection.js] run on a
    section whose heading and contents are present, the contents element
    carrying no [id]: reading [contentsId.length] throws, after the trigger
    was created and before anything was attached. *)
Lemma init_throws_without_contents_id :
  CollapsibleSection.init
    (CollapsibleSection.new
       (mkSection "collapsibleSection" (Some (mkHeading ["Details"] false))
          [[("class", "contents")]]))
  = Throw
      (mkCollapsibleSection
         (mkSection "collapsibleSection" (Some (mkHeading ["Details"] false))
            [[("class", "contents")]])
         false
         (Some (mkTrigger [("type", "button")] [] false))).
Proof. reflexivity. Qed.

(** C9, on the failing input.  A section of classes [collapsibleSection] and
    [collapsedByDefault] is initialised by [collapsiblesection.js] and its
    state toggled twice: the first toggle removes the text [" collapsed"]
    from inside the class [collapsedByDefault], so that the section ends with
    another set of classes than it started with. *)
Lemma setCollapseState_twice_changes_classes :
  let s := mkSection "collapsibleSection collapsedByDefault"
             (Some (mkHeading ["Details"] false)) [[("id", "details")]] in
  let o1 := stateOf (CollapsibleSection.init (CollapsibleSection.new s)) in
  let o2 := stateOf (CollapsibleSection.setCollapseState (negb (collapsed o1)) o1) in
  let o3 := stateOf (CollapsibleSection.setCollapseState (negb (collapsed o2)) o2) in
  classes o1
  = ["collapsibleSection"; "collapsedByDefault"; "collapsed"; "scripted"]
  /\ className (section o2) = "collapsibleSectionByDefault collapsed scripted"
  /\ classes o3
     = ["collapsibleSectionByDefault"; "collapsed"; "scripted"; "collapsed"]
  /\ collapsed o3 = collapsed o1
  /\ ~ sameClasses (classes o1) (classes o3).
Proof.
  cbv zeta. repeat split; try reflexivity.
  intros H. specialize (H "collapsedByDefault").
  destruct H as [H _].
  assert (In "collapsedByDefault"
            (classes (stateOf (CollapsibleSection.init
               (CollapsibleSection.new
                  (mkSection "collapsibleSection collapsedByDefault"
                     (Some (mkHeading ["Details"] false))
                     [[("id", "details")]])))))) as Hin.
  { vm_compute. right. left. reflexivity. }
  specialize (H Hin). vm_compute in H.
  repeat (destruct H as [H|H]; [discriminate H|]). exact H.
Qed.

End CollapsibleInit.

(** ** Strings and patterns *)

Section StringFacts.
Import Str.

Lemma append_nil_r (s : string) : s ++ "" = s.
Proof. induction s; simpl; congruence. Qed.

Lemma append_assoc (a b c : string) : (a ++ b) ++ c = a ++ (b ++ c).
Proof. induction a; simpl; congruence. Qed.

Lemma startsWith_app (p x : string) : startsWith p (p ++ x) = true.
Proof.
  induction p as [|a p IH]; simpl; [reflexivity|].
  rewrite Ascii.eqb_refl. exact IH.
Qed.

Lemma startsWith_split (p s : string) :
  startsWith p s = true -> s = p ++ drop (length p) s.
Proof.
  revert s. induction p as [|a p IH]; intros s H; simpl in *.
  - reflexivity.
  - destruct s as [|b s]; [discriminate|].
    apply andb_true_iff in H. destruct H as [Hab H].
    apply Ascii.eqb_eq in Hab. subst b. f_equal. apply IH. exact H.
Qed.

Lemma startsWith_app_r (p s t : string) :
  startsWith p s = true -> startsWith p (s ++ t) = true.
Proof.
  revert s. induction p as [|a p IH]; intros s H; simpl in *.
  - reflexivity.
  - destruct s as [|b s]; [discriminate|]. simpl.
    apply andb_true_iff in H. destruct H as [Hab H].
    rewrite Hab. simpl. apply IH. exact H.
Qed.

Lemma drop_app (p x : string) : drop (length p) (p ++ x) = x.
Proof. induction p; simpl; auto. Qed.

(** [startsWith p] looks at the first [length p] characters only. *)
Lemma startsWith_within (p w x : string) :
  length p <= length w -> startsWith p (w ++ x) = startsWith p w.
Proof.
  revert w. induction p as [|a p IH]; intros w H; simpl in *.
  - reflexivity.
  - destruct w as [|b w]; simpl in *; [lia|].
    rewrite IH by lia. reflexivity.
Qed.

Lemma length_append (a b : string) : length (a ++ b) = length a + length b.
Proof. induction a; simpl; auto. Qed.

Lemma startsWith_tail (p u a x : string) :
  startsWith p (u ++ p ++ a) = startsWith p (u ++ p ++ x).
Proof.
  rewrite <- !append_assoc.
  rewrite (startsWith_within p (u ++ p) a) by (rewrite length_append; lia).
  rewrite (startsWith_within p (u ++ p) x) by (rewrite length_append; lia).
  reflexivity.
Qed.

Lemma cut_eq (p s b a : string) :
  cut p s = Some (b, a) -> s = b ++ p ++ a.
Proof.
  revert b. induction s as [|c s IH]; intros b; simpl.
  - destruct (startsWith p "") eqn:E; [|discriminate].
    intros H. inversion H; subst. simpl. apply startsWith_split in E.
    rewrite E at 1. reflexivity.
  - destruct (startsWith p (String c s)) eqn:E.
    + intros H. inversion H; subst. simpl. apply startsWith_split in E.
      exact E.
    + destruct (cut p s) as [[b' a']|]; [|discriminate].
      intros H. inversion H; subst. simpl. f_equal. apply IH. reflexivity.
Qed.

Lemma cut_here (p x : string) : cut p (p ++ x) = Some ("", x).
Proof.
  destruct (p ++ x) eqn:E; simpl; rewrite <- ?E, startsWith_app, drop_app;
    reflexivity.
Qed.

(** The leftmost occurrence stays where it is when the text after it
    changes. *)
Lemma cut_tail (p s b a x : string) :
  cut p s = Some (b, a) -> cut p (b ++ p ++ x) = Some (b, x).
Proof.
  revert b. induction s as [|c s IH]; intros b; simpl.
  - destruct (startsWith p "") eqn:E; [|discriminate].
    intros H. inversion H; subst. simpl. apply cut_here.
  - destruct (startsWith p (String c s)) eqn:E.
    + intros H. inversion H; subst. simpl. apply cut_here.
    + destruct (cut p s) as [[b' a']|] eqn:Ec; [|discriminate].
      intros H. inversion H; subst. simpl.
      pose proof (cut_eq _ _ _ _ Ec) as Hs. subst s.
      change (String c (b' ++ p ++ a)) with (String c b' ++ p ++ a) in E.
      rewrite (startsWith_tail p (String c b') a x) in E. simpl in E.
      rewrite E. rewrite (IH b' eq_refl). reflexivity.
Qed.

Lemma cut_none_tail (p : string) (c : ascii) (s : string) :
  cut p (String c s) = None ->
  startsWith p (String c s) = false /\ cut p s = None.
Proof.
  simpl. destruct (startsWith p (String c s)); [discriminate|].
  destruct (cut p s) as [[b a]|]; [discriminate|]. auto.
Qed.

Lemma cut_some_tail (p : string) (c : ascii) (s b a : string) :
  cut p (String c s) = Some (b, a) ->
  (b = "" /\ startsWith p (String c s) = true)
  \/ (exists b', b = String c b' /\ startsWith p (String c s) = false
                 /\ cut p s = Some (b', a)).
Proof.
  simpl. destruct (startsWith p (String c s)).
  - intros H. inversion H. auto.
  - destruct (cut p s) as [[b' a']|]; [|discriminate].
    intros H. inversion H; subst. right. exists b'. auto.
Qed.

Lemma takeWhile_dropWhile (f : ascii -> bool) (s : string) :
  takeWhile f s ++ dropWhile f s = s.
Proof.
  induction s as [|c s IH]; simpl; [reflexivity|].
  destruct (f c); simpl; congruence.
Qed.

Lemma all_app (f : ascii -> bool) (a b : string) :
  all f (a ++ b) = all f a && all f b.
Proof.
  induction a as [|c a IH]; simpl; [reflexivity|].
  rewrite IH, andb_assoc. reflexivity.
Qed.

Lemma all_takeWhile (f : ascii -> bool) (s : string) :
  all f (takeWhile f s) = true.
Proof.
  induction s as [|c s IH]; simpl; [reflexivity|].
  destruct (f c) eqn:E; simpl; [rewrite E|]; auto.
Qed.

Lemma takeWhile_all (f : ascii -> bool) (s : string) :
  all f s = true -> takeWhile f s = s.
Proof.
  induction s as [|c s IH]; simpl; [reflexivity|].
  intros H. apply andb_true_iff in H. destruct H as [-> H].
  rewrite IH by exact H. reflexivity.
Qed.

Lemma dropWhile_stops (f : ascii -> bool) (s : string) :
  stopsAt f (dropWhile f s).
Proof.
  induction s as [|c s IH]; simpl; [exact I|].
  destruct (f c) eqn:E; simpl; auto.
Qed.

Lemma takeWhile_app_stop (f : ascii -> bool) (v rest : string) :
  all f v = true -> stopsAt f rest -> takeWhile f (v ++ rest) = v.
Proof.
  intros Hv Hrest. induction v as [|c v IH]; simpl in *.
  - destruct rest as [|c rest]; simpl in *; [reflexivity|].
    rewrite Hrest. reflexivity.
  - apply andb_true_iff in Hv. destruct Hv as [-> Hv].
    rewrite IH by exact Hv. reflexivity.
Qed.

Lemma isEmpty_false (s : string) : isEmpty s = false <-> s <> "".
Proof. destruct s; simpl; split; congruence. Qed.

Lemma getSubstitution_literal (matched before after template : string) :
  all notDollar template = true ->
  Pattern.getSubstitution matched before after template = template.
Proof.
  induction template as [|c t IH]; simpl; [reflexivity|].
  intros H. apply andb_true_iff in H. destruct H as [Hc Ht].
  unfold notDollar in Hc. apply negb_true_iff in Hc. rewrite Hc.
  rewrite IH by exact Ht. reflexivity.
Qed.

End StringFacts.

(** ** Decoding the fragment *)

Section Decoding.
Import Str Pattern Spec.

Lemma all_impl (f g : ascii -> bool) (s : string) :
  (forall c, f c = true -> g c = true) -> all f s = true -> all g s = true.
Proof.
  intros Hfg. induction s as [|c s IH]; simpl; [reflexivity|].
  intros H. apply andb_true_iff in H. destruct H as [Hc H].
  rewrite (Hfg c Hc), IH by exact H. reflexivity.
Qed.

Lemma plainKey_notSemicolon (key : string) :
  plainKey key = true -> all notSemicolon (key ++ "=") = true.
Proof.
  intros H. rewrite all_app. apply andb_true_iff. split; [|reflexivity].
  revert H. apply all_impl. intros c Hc. unfold plainChar in Hc.
  apply andb_true_iff in Hc. destruct Hc as [_ Hc]. exact Hc.
Qed.

Lemma fragmentSafe_notLineTerminator (c : ascii) :
  fragmentSafe c = true -> notLineTerminator c = true.
Proof.
  unfold notLineTerminator, isLineTerminator. intros H.
  destruct (Ascii.eqb_spec c LF) as [-> | _]; [discriminate H|].
  destruct (Ascii.eqb_spec c CR) as [-> | _]; [discriminate H|].
  reflexivity.
Qed.

Lemma safe_notLineTerminator (s : string) :
  all fragmentSafe s = true -> all notLineTerminator s = true.
Proof. apply all_impl. exact fragmentSafe_notLineTerminator. Qed.

Lemma safeKey_notLineTerminator (key : string) :
  all fragmentSafe key = true -> all notLineTerminator (key ++ "=") = true.
Proof.
  intros H. rewrite all_app, (safe_notLineTerminator key H). reflexivity.
Qed.

Lemma plainKey_notDollar (key : string) :
  plainKey key = true -> all notDollar (key ++ "=") = true.
Proof.
  intros H. rewrite all_app. apply andb_true_iff. split; [|reflexivity].
  revert H. apply all_impl. intros c Hc. unfold plainChar in Hc.
  apply andb_true_iff in Hc. destruct Hc as [Hc _].
  unfold isSyntaxCharacter in Hc. simpl in Hc.
  apply negb_true_iff in Hc. apply orb_false_iff in Hc. destruct Hc as [_ Hc].
  apply orb_false_iff in Hc. destruct Hc as [Hc _].
  unfold notDollar. rewrite Hc. reflexivity.
Qed.

Lemma segmentHere_starts (key s v : string) :
  segmentHere key s = Some v -> startsWith (key ++ "=") s = true.
Proof.
  unfold segmentHere. destruct (startsWith (key ++ "=") s); [auto|discriminate].
Qed.

Lemma segmentAfterSemicolon_starts (key s v : string) :
  segmentAfterSemicolon key s = Some v ->
  startsAfter ";" (key ++ "=") s = true.
Proof.
  induction s as [|c s IH]; simpl; [discriminate|].
  destruct (Ascii.eqb c ";"); simpl.
  - destruct (segmentHere key s) as [v'|] eqn:E.
    + intros _. rewrite (segmentHere_starts _ _ _ E). reflexivity.
    + intros H. rewrite (IH H). apply orb_true_r.
  - exact IH.
Qed.

Lemma startsAfter_app_r (sep : ascii) (p s t : string) :
  startsAfter sep p s = true -> startsAfter sep p (s ++ t) = true.
Proof.
  induction s as [|c s IH]; simpl; [discriminate|].
  intros H. apply orb_true_iff in H. destruct H as [H|H].
  - apply andb_true_iff in H. destruct H as [-> H].
    rewrite (startsWith_app_r _ _ t H). reflexivity.
  - rewrite (IH H). apply orb_true_r.
Qed.

Lemma split_not_nil (sep : ascii) (s : string) : split sep s <> [].
Proof.
  induction s as [|c s IH]; simpl; [discriminate|].
  destruct (Ascii.eqb c sep); [discriminate|].
  destruct (split sep s); discriminate.
Qed.

(** The first segment begins with [p] when the text does and [p] holds no
    separator. *)
Lemma startsWith_first_segment (p s : string) :
  all notSemicolon p = true -> startsWith p s = true ->
  startsWith p (hd "" (split ";" s)) = true.
Proof.
  revert s. induction p as [|a p IH]; intros s Hp H; simpl in *.
  - reflexivity.
  - destruct s as [|b s]; [discriminate|].
    apply andb_true_iff in Hp. destruct Hp as [Ha Hp].
    apply andb_true_iff in H. destruct H as [Hab H].
    simpl. apply Ascii.eqb_eq in Hab. subst b.
    unfold notSemicolon in Ha. apply negb_true_iff in Ha. rewrite Ha.
    specialize (IH s Hp H).
    destruct (split ";" s) as [|seg segs] eqn:E.
    + exfalso. exact (split_not_nil _ _ E).
    + simpl in *. rewrite Ascii.eqb_refl. exact IH.
Qed.

Lemma tl_split_cons (c : ascii) (s : string) :
  incl (tl (split ";" s)) (tl (split ";" (String c s)))
  /\ (Ascii.eqb c ";" = true -> tl (split ";" (String c s)) = split ";" s).
Proof.
  simpl. destruct (Ascii.eqb c ";"); simpl.
  - split; [|reflexivity]. intros x Hx.
    destruct (split ";" s); [destruct Hx | right; exact Hx].
  - split; [|discriminate].
    destruct (split ";" s); simpl; apply incl_refl.
Qed.

Lemma startsAfter_later_segment (p s : string) :
  all notSemicolon p = true -> startsAfter ";" p s = true ->
  exists seg, In seg (tl (split ";" s)) /\ startsWith p seg = true.
Proof.
  intros Hp. induction s as [|c s IH]; [discriminate|].
  intros H. simpl in H. destruct (tl_split_cons c s) as [Hincl Hsemi].
  apply orb_true_iff in H. destruct H as [H|H].
  - apply andb_true_iff in H. destruct H as [Hc H].
    exists (hd "" (split ";" s)). split.
    + rewrite (Hsemi Hc).
      destruct (split ";" s) eqn:E; [exfalso; exact (split_not_nil _ _ E)|].
      left. reflexivity.
    + apply startsWith_first_segment; assumption.
  - destruct (IH H) as (seg & Hin & Hseg). exists seg. split; auto.
Qed.

(** A match of the decoding pattern lies at the start of a segment. *)
Lemma matchFilterValue_segment (key s t v : string) :
  plainKey key = true ->
  matchFilterValue key s = Some v ->
  exists seg, In seg (split ";" (s ++ t)) /\ startsWith (key ++ "=") seg = true.
Proof.
  intros Hk H. pose proof (plainKey_notSemicolon key Hk) as Hp.
  unfold matchFilterValue in H.
  destruct (segmentHere key s) as [v'|] eqn:E.
  - apply segmentHere_starts in E. apply (startsWith_app_r _ _ t) in E.
    exists (hd "" (split ";" (s ++ t))). split.
    + destruct (split ";" (s ++ t)) eqn:E';
        [exfalso; exact (split_not_nil _ _ E') | left; reflexivity].
    + apply startsWith_first_segment; assumption.
  - apply segmentAfterSemicolon_starts in H.
    apply (startsAfter_app_r _ _ _ t) in H.
    destruct (startsAfter_later_segment _ _ Hp H) as (seg & Hin & Hseg).
    exists seg. split; [|exact Hseg].
    destruct (split ";" (s ++ t)); [destruct Hin | right; exact Hin].
Qed.

Lemma matchAnchored_rest (hash rest : string) :
  matchAnchored hash = Some rest ->
  startsWith "#!" hash = true
  /\ rest = takeWhile notLineTerminator (drop 2 hash)
  /\ rest <> "".
Proof.
  unfold matchAnchored, bangHere.
  destruct (startsWith "#!" hash); [|discriminate].
  destruct (isEmpty _) eqn:E; [discriminate|].
  intros H. inversion H; subst. apply isEmpty_false in E. auto.
Qed.

Lemma updateFilterPartFromUrl_falls_back
  (hash : string) (filter : JsObject.t) (key defaultValue : string) :
  plainKey key = true ->
  startsWith "#!" hash = false \/ noSegmentFor key hash ->
  Filter.updateFilterPartFromUrl hash filter key defaultValue
  = JsObject.set filter key defaultValue.
Proof.
  intros Hk H. unfold Filter.updateFilterPartFromUrl.
  destruct (matchAnchored hash) as [rest|] eqn:Em; [|reflexivity].
  destruct (matchFilterValue key rest) as [v|] eqn:Ev; [|reflexivity].
  exfalso. apply matchAnchored_rest in Em. destruct Em as (Hs & Hrest & _).
  destruct H as [H|H]; [congruence|].
  destruct (matchFilterValue_segment key rest
              (dropWhile notLineTerminator (drop 2 hash)) v Hk Ev)
    as (seg & Hin & Hseg).
  rewrite Hrest, takeWhile_dropWhile in Hin.
  rewrite (H seg Hin) in Hseg. discriminate.
Qed.

(** In [filter_jquery.js], whose decoder takes no default value: for a key
    of plain characters other than [__proto__], when the fragment does not
    begin with [#!], or none of the segments that follow [#!] begins with
    [key=], [updateFilterPartFromUrl] sets the filter entry of the key to
    the empty string. *)
Lemma updateFilterPartFromUrl_jq_falls_back
  (hash : string) (filter : JsObject.t) (key : string) :
  plainKey key = true ->
  key <> "__proto__" ->
  startsWith "#!" hash = false \/ noSegmentFor key hash ->
  FilterJq.updateFilterPartFromUrl hash filter key
  = JsObject.set filter key ""
  /\ JsObject.get (FilterJq.updateFilterPartFromUrl hash filter key) key
     = Some "".
Proof.
  intros Hk Hname H.
  change (FilterJq.updateFilterPartFromUrl hash filter key)
    with (Filter.updateFilterPartFromUrl hash filter key "").
  rewrite (updateFilterPartFromUrl_falls_back hash filter key "" Hk H).
  split; [reflexivity | apply get_set, Hname].
Qed.

End Decoding.

(** ** Encoding a value and decoding it again *)

Section RoundTrip.
Import Str Pattern Spec.

Lemma startsWith_false_semicolon (p s y : string) :
  all notSemicolon p = true -> startsWith p s = false ->
  startsWith p (s ++ String ";" y) = false.
Proof.
  revert s. induction p as [|a p IH]; intros s Hp H; simpl in *.
  - discriminate.
  - apply andb_true_iff in Hp. destruct Hp as [Ha Hp].
    destruct s as [|b s]; simpl.
    + unfold notSemicolon in Ha. apply negb_true_iff in Ha. rewrite Ha.
      reflexivity.
    + apply andb_false_iff in H. destruct H as [H|H].
      * rewrite H. reflexivity.
      * rewrite (IH s Hp H). apply andb_false_r.
Qed.

Lemma cut_append_segment (p r x : string) :
  all notSemicolon p = true -> p <> "" -> cut p r = None ->
  cut p (r ++ ";" ++ p ++ x) = Some (r ++ ";", x).
Proof.
  intros Hp Hne. induction r as [|c r IH]; intros H.
  - change ("" ++ ";" ++ p ++ x) with (String ";" (p ++ x)).
    unfold cut; fold cut.
    assert (startsWith p (String ";" (p ++ x)) = false) as ->.
    { destruct p as [|a p]; [congruence|]. simpl in *.
      apply andb_true_iff in Hp. destruct Hp as [Ha _].
      unfold notSemicolon in Ha. apply negb_true_iff in Ha. rewrite Ha.
      reflexivity. }
    rewrite cut_here. reflexivity.
  - apply cut_none_tail in H. destruct H as [Hs Hc].
    change (String c r ++ ";" ++ p ++ x) with (String c (r ++ ";" ++ p ++ x)).
    unfold cut; fold cut.
    change (String c (r ++ ";" ++ p ++ x))
      with (String c r ++ String ";" (p ++ x)).
    rewrite (startsWith_false_semicolon p (String c r) (p ++ x) Hp Hs).
    change (String c r ++ String ";" (p ++ x))
      with (String c (r ++ ";" ++ p ++ x)).
    rewrite (IH Hc). reflexivity.
Qed.

Lemma cut_empty_before (p s a : string) :
  cut p s = Some ("", a) -> startsWith p s = true /\ a = drop (length p) s.
Proof.
  destruct s as [|c s]; simpl.
  - destruct (startsWith p ""); [|discriminate].
    intros H. inversion H. auto.
  - destruct (startsWith p (String c s)).
    + intros H. inversion H. auto.
    + destruct (cut p s) as [[b' a']|]; discriminate.
Qed.

Lemma cut_nonempty_before (p s : string) (c : ascii) (b a : string) :
  cut p s = Some (String c b, a) -> startsWith p s = false.
Proof.
  destruct s as [|d s]; simpl.
  - destruct (startsWith p ""); discriminate.
  - destruct (startsWith p (String d s)); [discriminate | reflexivity].
Qed.

Lemma segmentHere_value (key s a v : string) :
  cut (key ++ "=") s = Some ("", a) ->
  takeWhile notSemicolon a = v -> v <> "" ->
  segmentHere key s = Some v.
Proof.
  intros Hc Hv Hne. apply cut_empty_before in Hc. destruct Hc as [Hs Ha].
  unfold segmentHere. rewrite Hs, <- Ha, Hv.
  apply isEmpty_false in Hne. rewrite Hne. reflexivity.
Qed.

Lemma segmentAfterSemicolon_value (key s b a v : string) :
  cut (key ++ "=") s = Some (b, a) -> endsWithChar ";" b = true ->
  takeWhile notSemicolon a = v -> v <> "" ->
  segmentAfterSemicolon key s = Some v.
Proof.
  intros Hc Hb Hv Hne. revert b Hc Hb.
  induction s as [|c s IH]; intros b Hc Hb.
  - simpl in Hc. destruct (startsWith (key ++ "=") ""); [|discriminate].
    inversion Hc; subst. discriminate.
  - apply cut_some_tail in Hc.
    destruct Hc as [[-> _] | (b' & -> & Hs & Hc)]; [discriminate|].
    simpl. destruct b' as [|d b''].
    + simpl in Hb. rewrite Hb.
      rewrite (segmentHere_value key s a v Hc Hv Hne). reflexivity.
    + assert (segmentHere key s = None) as ->.
      { unfold segmentHere. rewrite (cut_nonempty_before _ _ _ _ _ Hc).
        reflexivity. }
      assert (segmentAfterSemicolon key s = Some v) as ->.
      { apply (IH (String d b'')); [exact Hc | exact Hb]. }
      destruct (Ascii.eqb c ";"); reflexivity.
Qed.

(** The decoding pattern finds the leftmost occurrence of [key=] when that
    occurrence starts a segment and its value is not empty. *)
Lemma matchFilterValue_leftmost (key s b a v : string) :
  cut (key ++ "=") s = Some (b, a) ->
  b = "" \/ endsWithChar ";" b = true ->
  takeWhile notSemicolon a = v -> v <> "" ->
  matchFilterValue key s = Some v.
Proof.
  intros Hc [-> | Hb] Hv Hne; unfold matchFilterValue.
  - rewrite (segmentHere_value key s a v Hc Hv Hne). reflexivity.
  - destruct b as [|c b]; [discriminate|].
    assert (segmentHere key s = None) as ->.
    { unfold segmentHere. rewrite (cut_nonempty_before _ _ _ _ _ Hc).
      reflexivity. }
    exact (segmentAfterSemicolon_value key s _ a v Hc Hb Hv Hne).
Qed.

Lemma bangHere_rest (s r : string) :
  bangHere s = Some r -> all notLineTerminator r = true /\ r <> "".
Proof.
  unfold bangHere. destruct (startsWith "#!" s); [|discriminate].
  destruct (isEmpty _) eqn:E; [discriminate|].
  intros H. inversion H; subst. apply isEmpty_false in E.
  split; [apply all_takeWhile | exact E].
Qed.

Lemma matchUnanchored_rest (hash r : string) :
  matchUnanchored hash = Some r ->
  all notLineTerminator r = true /\ r <> "".
Proof.
  induction hash as [|c hash IH]; simpl.
  - discriminate.
  - destruct (bangHere (String c hash)) eqn:E.
    + intros H. inversion H; subst. exact (bangHere_rest _ _ E).
    + exact IH.
Qed.

Lemma matchAnchored_bang (body : string) :
  all notLineTerminator body = true -> body <> "" ->
  matchAnchored ("#!" ++ body) = Some body.
Proof.
  intros Hb Hne. unfold matchAnchored, bangHere. simpl.
  rewrite (takeWhile_all _ _ Hb). apply isEmpty_false in Hne. rewrite Hne.
  reflexivity.
Qed.

Lemma all_dropWhile (f g : ascii -> bool) (s : string) :
  all f s = true -> all f (dropWhile g s) = true.
Proof.
  induction s as [|c s IH]; simpl; [reflexivity|].
  intros H. destruct (g c); [|exact H].
  apply andb_true_iff in H. apply IH. apply H.
Qed.

Lemma endsWithChar_app (c : ascii) (s : string) :
  endsWithChar c (s ++ String c "") = true.
Proof.
  induction s as [|a s IH]; simpl.
  - apply Ascii.eqb_refl.
  - destruct (s ++ String c "") eqn:E; [|exact IH].
    destruct s; discriminate.
Qed.

(** Decoding the fragment whose text after [#!] is [body]. *)
Lemma decode_body (body : string) (filter : JsObject.t)
  (key defaultValue v : string) :
  all notLineTerminator body = true ->
  matchFilterValue key body = Some v ->
  Filter.updateFilterPartFromUrl ("#!" ++ body) filter key defaultValue
  = JsObject.set filter key v.
Proof.
  intros Hb Hv. unfold Filter.updateFilterPartFromUrl.
  assert (body <> "") as Hne.
  { intros ->. unfold matchFilterValue, segmentHere in Hv.
    assert (startsWith (key ++ "=") "" = false) as E
      by (destruct key; reflexivity).
    rewrite E in Hv. discriminate. }
  rewrite (matchAnchored_bang body Hb Hne), Hv. reflexivity.
Qed.

Lemma before_shape (before : string) :
  String.eqb before "#!" || (startsWith "#!" before && endsWithChar ";" before)
  = true ->
  exists b, before = "#!" ++ b /\ (b = "" \/ endsWithChar ";" b = true).
Proof.
  intros H. apply orb_true_iff in H. destruct H as [H|H].
  - apply String.eqb_eq in H. subst. exists "". auto.
  - apply andb_true_iff in H. destruct H as [Hs He].
    destruct before as [|c1 before]; [discriminate Hs|].
    destruct before as [|c2 b]; cbn [startsWith] in Hs.
    { rewrite andb_false_r in Hs. discriminate Hs. }
    apply andb_true_iff in Hs. destruct Hs as [H1 Hs].
    apply andb_true_iff in Hs. destruct Hs as [H2 _].
    apply Ascii.eqb_eq in H1, H2. subst c1 c2.
    exists b. split; [reflexivity|].
    destruct b; [simpl in He; discriminate He | right; exact He].
Qed.

Lemma cut_after_bang (p b a r : string) :
  cut p ("#!" ++ r) = Some ("#!" ++ b, a) -> cut p r = Some (b, a).
Proof.
  intros H. simpl in H. apply cut_some_tail in H.
  destruct H as [[H _] | (b1 & Hb1 & _ & H)]; [discriminate|].
  inversion Hb1; subst b1. apply cut_some_tail in H.
  destruct H as [[H _] | (b2 & Hb2 & _ & H)]; [discriminate|].
  inversion Hb2; subst b2. exact H.
Qed.

Lemma cut_none_after_bang (p r : string) :
  cut p ("#!" ++ r) = None -> cut p r = None.
Proof.
  intros H. simpl in H. apply cut_none_tail in H. destruct H as [_ H].
  apply cut_none_tail in H. apply H.
Qed.

Lemma key_eq_not_empty (key : string) : key ++ "=" <> "".
Proof. destruct key; discriminate. Qed.

(** The fragment written by [updateUrlFromFilterPart] decodes to the value
    it was given. *)
Lemma newFragmentFor_decodes
  (hash key value defaultValue : string) (filter filter' : JsObject.t) :
  plainKey key = true -> all fragmentSafe key = true ->
  JsObject.get filter key = Some value ->
  value <> "" -> plainValue value = true ->
  firstOccurrenceStartsSegment key (Filter.startFragment hash) = true ->
  Filter.updateFilterPartFromUrl (Filter.newFragmentFor hash filter key)
    filter' key defaultValue
  = JsObject.set filter' key value.
Proof.
  intros Hk Hsafe Hget Hne Hval Hfirst.
  unfold plainValue in Hval.
  apply andb_true_iff in Hval. destruct Hval as [Hval HvL].
  apply safe_notLineTerminator in HvL.
  apply andb_true_iff in Hval. destruct Hval as [HvS HvD].
  pose proof (plainKey_notSemicolon key Hk) as HpS.
  pose proof (safeKey_notLineTerminator key Hsafe) as HpL.
  pose proof (plainKey_notDollar key Hk) as HpD.
  unfold Filter.newFragmentFor, Filter.valueText. rewrite Hget.
  unfold firstOccurrenceStartsSegment in Hfirst.
  unfold matchFilterPart, replaceFilterPart, matchFilterPart.
  assert (exists r0, Filter.startFragment hash = "#!" ++ r0
                     /\ all notLineTerminator r0 = true
                     /\ (matchUnanchored hash = None -> r0 = "")
                     /\ (forall r, matchUnanchored hash = Some r -> r0 = r))
    as (r0 & Hfrag & Hr0 & Hnone & Hsome).
  { unfold Filter.startFragment.
    destruct (matchUnanchored hash) as [r|] eqn:E.
    - exists r. destruct (matchUnanchored_rest _ _ E) as [HrL _].
      repeat split; auto; congruence.
    - exists "". repeat split; auto; congruence. }
  rewrite Hfrag in *.
  destruct (cut (key ++ "=") ("#!" ++ r0)) as [[before after]|] eqn:Ecut.
  - (* the key's text is there: it is replaced *)
    destruct (before_shape before Hfirst) as (b & -> & Hb).
    apply cut_after_bang in Ecut.
    pose proof (cut_eq _ _ _ _ Ecut) as Hr0eq.
    rewrite getSubstitution_literal.
    2:{ rewrite <- append_assoc, all_app, HpD, HvD. reflexivity. }
    rewrite Hr0eq, !all_app in Hr0.
    apply andb_true_iff in Hr0. destruct Hr0 as [HbL Hr0].
    apply andb_true_iff in Hr0. destruct Hr0 as [_ HaL].
    replace (("#!" ++ b) ++ (key ++ "=" ++ value)
             ++ dropWhile notSemicolon after)
      with ("#!" ++ (b ++ (key ++ "=")
                       ++ value ++ dropWhile notSemicolon after)).
    2:{ rewrite !append_assoc. reflexivity. }
    apply decode_body.
    + rewrite (all_app _ b), (all_app _ (key ++ "=")), (all_app _ value),
        HbL, HpL, HvL. simpl.
      apply all_dropWhile. exact HaL.
    + apply (matchFilterValue_leftmost key _ b
               (value ++ dropWhile notSemicolon after) value).
      * exact (cut_tail _ _ _ _ _ Ecut).
      * exact Hb.
      * apply takeWhile_app_stop; [exact HvS | apply dropWhile_stops].
      * exact Hne.
  - (* the key's text is not there: it is appended *)
    apply cut_none_after_bang in Ecut.
    destruct (matchUnanchored hash) as [r|] eqn:E.
    + rewrite (Hsome r eq_refl) in *.
      destruct (matchUnanchored_rest _ _ E) as [HrL _].
      replace ((("#!" ++ r) ++ ";") ++ key ++ "=" ++ value)
        with ("#!" ++ (r ++ ";" ++ (key ++ "=") ++ value)).
      2:{ rewrite !append_assoc. reflexivity. }
      apply decode_body.
      * rewrite (all_app _ r), (all_app _ ";"), (all_app _ (key ++ "=")),
          HrL, HpL, HvL. reflexivity.
      * apply (matchFilterValue_leftmost key _ (r ++ ";") value value).
        -- apply cut_append_segment;
             [exact HpS | apply key_eq_not_empty | exact Ecut].
        -- right. apply endsWithChar_app.
        -- apply takeWhile_all. exact HvS.
        -- exact Hne.
    + rewrite (Hnone eq_refl) in *.
      replace (("#!" ++ "") ++ key ++ "=" ++ value)
        with ("#!" ++ ((key ++ "=") ++ value)).
      2:{ simpl. rewrite !append_assoc. reflexivity. }
      apply decode_body.
      * rewrite all_app, HpL, HvL. reflexivity.
      * apply (matchFilterValue_leftmost key _ "" value value).
        -- apply cut_here.
        -- left. reflexivity.
        -- apply takeWhile_all. exact HvS.
        -- exact Hne.
Qed.

End RoundTrip.

Section FragmentTheorems.
Import Str Pattern Spec.

(** C3, on the failing input.  The fragment encodes [subtype=a] and
    [type=b]; writing the value [c] for the key [type] replaces the text
    [type=a] inside the segment of [subtype], the first place where the
    unanchored pattern matches: the value encoded for [subtype] changes from
    [a] to [c], and the segment of [type] keeps its old value. *)
Lemma updateUrlFromFilterPart_overwrites_other_key :
  Filter.updateUrlFromFilterPart true "#!subtype=a;type=b"
    [("subtype", "a"); ("type", "c")] "type"
  = "#!subtype=c;type=b"
  /\ FilterJq.updateUrlFromFilterPart true "#!subtype=a;type=b"
       [("subtype", "a"); ("type", "c")] "type"
     = "#!subtype=c;type=b"
  /\ JsObject.get
       (Filter.updateFilterPartFromUrl "#!subtype=a;type=b" [] "subtype" "*")
       "subtype"
     = Some "a"
  /\ JsObject.get
       (Filter.updateFilterPartFromUrl "#!subtype=c;type=b" [] "subtype" "*")
       "subtype"
     = Some "c".
Proof. repeat split. Qed.

(** C4, as amended.  With [history.pushState] available, for every key of
    plain characters and every value that is not empty and contains no [;]
    and no [$], both made of characters the URL parser keeps as they are,
    when the first occurrence of the text [key=] in the fragment the update
    starts from, if there is one, starts a segment: encoding the value with
    [updateUrlFromFilterPart] and decoding the key from the resulting
    fragment with [updateFilterPartFromUrl] yields the value. *)
Theorem url_roundtrip
  (hash key value defaultValue : string) (filter filter' : JsObject.t) :
  plainKey key = true -> all fragmentSafe key = true ->
  JsObject.get filter key = Some value ->
  value <> "" -> plainValue value = true ->
  firstOccurrenceStartsSegment key (Filter.startFragment hash) = true ->
  JsObject.get
    (Filter.updateFilterPartFromUrl
       (Filter.updateUrlFromFilterPart true hash filter key)
       filter' key defaultValue)
    key
  = Some value.
Proof.
  intros Hk Hsafe Hget Hne Hval Hfirst. unfold Filter.updateUrlFromFilterPart.
  rewrite (newFragmentFor_decodes hash key value defaultValue filter filter');
    eauto using get_set, get_Some_name.
Qed.

(** The tag is changed from [eco] to [bio] in a fragment that also encodes
    a country. *)
Lemma url_roundtrip_witness :
  JsObject.get
    (Filter.updateFilterPartFromUrl
       (Filter.updateUrlFromFilterPart true "#!country=Norway;tag=eco"
          [("country", "Norway"); ("tag", "bio")] "tag")
       [("country", "Norway"); ("tag", "bio")] "tag" "*")
    "tag"
  = Some "bio".
Proof.
  apply (url_roundtrip "#!country=Norway;tag=eco" "tag" "bio" "*"
           [("country", "Norway"); ("tag", "bio")]
           [("country", "Norway"); ("tag", "bio")]).
  - reflexivity.
  - reflexivity.
  - reflexivity.
  - discriminate.
  - reflexivity.
  - reflexivity.
Defined.

(** C4 as stated fails.  None of these values contains a [;].  The empty
    value is written as [tag=], which the decoding pattern does not match,
    so that the default comes back; [$$] in a value that replaces an
    existing segment is written as one [$]; and the value written for
    [type] lands in the segment of [subtype], where decoding [type] does not
    find it. *)
Lemma url_roundtrip_loses_value :
  (all notSemicolon "" = true
   /\ JsObject.get
        (Filter.updateFilterPartFromUrl
           (Filter.updateUrlFromFilterPart true "" [("tag", "")] "tag")
           [("tag", "")] "tag" "*")
        "tag"
      = Some "*"
   /\ Some "*" <> Some "")
  /\ (all notSemicolon "a$$b" = true
      /\ JsObject.get
           (Filter.updateFilterPartFromUrl
              (Filter.updateUrlFromFilterPart true "#!tag=eco"
                 [("tag", "a$$b")] "tag")
              [("tag", "a$$b")] "tag" "*")
           "tag"
         = Some "a$b"
      /\ Some "a$b" <> Some "a$$b")
  /\ (all notSemicolon "c" = true
      /\ JsObject.get
           (Filter.updateFilterPartFromUrl
              (Filter.updateUrlFromFilterPart true "#!subtype=a"
                 [("type", "c")] "type")
              [("type", "c")] "type" "*")
           "type"
         = Some "*"
      /\ Some "*" <> Some "c").
Proof.
  repeat split; discriminate.
Qed.

(** C5, as amended.  For every key of plain characters (no pattern syntax
    character, no [;]) other than [__proto__], and every fragment: when the
    fragment does not begin with [#!], or none of the segments that follow
    [#!] begins with [key=], [updateFilterPartFromUrl] sets the filter entry
    of the key to the default value it was given. *)
Theorem updateFilterPartFromUrl_default
  (hash : string) (filter : JsObject.t) (key defaultValue : string) :
  plainKey key = true ->
  key <> "__proto__" ->
  startsWith "#!" hash = false \/ noSegmentFor key hash ->
  Filter.updateFilterPartFromUrl hash filter key defaultValue
  = JsObject.set filter key defaultValue
  /\ JsObject.get
       (Filter.updateFilterPartFromUrl hash filter key defaultValue) key
     = Some defaultValue.
Proof.
  intros Hk Hname H.
  rewrite (updateFilterPartFromUrl_falls_back hash filter key defaultValue Hk H).
  split; [reflexivity | apply get_set, Hname].
Qed.

(** The fragment encodes a country only; the tag falls back to its
    default. *)
Lemma updateFilterPartFromUrl_default_witness :
  JsObject.get
    (Filter.updateFilterPartFromUrl "#!country=Norway"
       [("country", "Norway"); ("tag", "eco")] "tag" "*")
    "tag"
  = Some "*".
Proof.
  apply (updateFilterPartFromUrl_default "#!country=Norway"
           [("country", "Norway"); ("tag", "eco")] "tag" "*").
  - reflexivity.
  - discriminate.
  - right. intros seg [<-|[]]. reflexivity.
Defined.

(** C5 as stated fails for a key that holds the separator.  The segments of
    [#!a;b=1] are [a] and [b=1], none of which begins with [a;b=], but the
    decoding pattern of the key [a;b] matches the text [a;b=1] and the entry
    gets the value [1], not the default. *)
Lemma updateFilterPartFromUrl_key_with_separator :
  segments "#!a;b=1" = ["a"; "b=1"]
  /\ noSegmentFor "a;b" "#!a;b=1"
  /\ JsObject.get (Filter.updateFilterPartFromUrl "#!a;b=1" [] "a;b" "*") "a;b"
     = Some "1"
  /\ Some "1" <> Some "*".
Proof.
  split; [reflexivity|]. split; [|split; [reflexivity | discriminate]].
  intros seg [<-|[<-|[]]]; reflexivity.
Qed.

End FragmentTheorems.

(** ** The entries of the filter mapping *)

Section FilterEntries.
Import Page Spec.



















End FilterEntries.

Section FilterEntriesTheorem.
Import Page Spec.




End FilterEntriesTheorem.

(** ** Toggling a collapsible section twice *)

Section ToggleTwice.
Import Str Collapsible.

Lemma startsWith_false_sep (sep : ascii) (p s y : string) :
  all (fun c => negb (Ascii.eqb c sep)) p = true ->
  startsWith p s = false ->
  startsWith p (s ++ String sep y) = false.
Proof.
  revert s. induction p as [|a p IH]; intros s Hp H; simpl in *.
  - discriminate.
  - apply andb_true_iff in Hp. destruct Hp as [Ha Hp].
    destruct s as [|b s]; simpl.
    + apply negb_true_iff in Ha. rewrite Ha. reflexivity.
    + apply andb_false_iff in H. destruct H as [H|H].
      * rewrite H. reflexivity.
      * rewrite (IH s Hp H). apply andb_false_r.
Qed.

(** A text [sep ++ q], where [sep] does not occur in [q], that does not occur
    in [r] is found in [r ++ sep ++ q ++ x] right after [r]. *)
Lemma cut_append_word (sep : ascii) (q r x : string) :
  all (fun c => negb (Ascii.eqb c sep)) q = true ->
  cut (String sep q) r = None ->
  cut (String sep q) (r ++ String sep q ++ x) = Some (r, x).
Proof.
  intros Hq. induction r as [|c r IH]; intros H.
  - simpl append. apply (cut_here (String sep q) x).
  - apply cut_none_tail in H. destruct H as [Hs Hc].
    change (String c r ++ String sep q ++ x)
      with (String c (r ++ String sep q ++ x)).
    unfold cut; fold cut.
    assert (startsWith (String sep q) (String c (r ++ String sep q ++ x))
            = false) as ->.
    { simpl in *. apply andb_false_iff in Hs. destruct Hs as [Hs|Hs].
      - rewrite Hs. reflexivity.
      - rewrite (startsWith_false_sep sep q r (q ++ x) Hq Hs).
        apply andb_false_r. }
    rewrite (IH Hc). reflexivity.
Qed.

Lemma cut_append_other (sep : ascii) (q r y : string) :
  all (fun c => negb (Ascii.eqb c sep)) q = true ->
  cut (String sep q) r = None ->
  cut (String sep q) (String sep y) = None ->
  cut (String sep q) (r ++ String sep y) = None.
Proof.
  intros Hq Hr Hy. induction r as [|c r IH].
  - exact Hy.
  - apply cut_none_tail in Hr. destruct Hr as [Hs Hc].
    change (String c r ++ String sep y) with (String c (r ++ String sep y)).
    unfold cut; fold cut.
    assert (startsWith (String sep q) (String c (r ++ String sep y)) = false)
      as ->.
    { simpl in *. apply andb_false_iff in Hs. destruct Hs as [Hs|Hs].
      - rewrite Hs. reflexivity.
      - rewrite (startsWith_false_sep sep q r y Hq Hs). apply andb_false_r. }
    rewrite (IH Hc). reflexivity.
Qed.

Lemma removeFirst_collapsed_scripted (cn : string) :
  cut " collapsed" cn = None ->
  Pattern.removeFirst " collapsed" ((cn ++ " collapsed") ++ " scripted")
  = cn ++ " scripted".
Proof.
  intros H. unfold Pattern.removeFirst. rewrite append_assoc.
  rewrite (cut_append_word " " "collapsed" cn " scripted" eq_refl H).
  reflexivity.
Qed.

Lemma removeFirst_scripted_collapsed (cn : string) :
  cut " collapsed" cn = None ->
  Pattern.removeFirst " collapsed" ((cn ++ " scripted") ++ " collapsed")
  = cn ++ " scripted".
Proof.
  intros H. unfold Pattern.removeFirst.
  assert (cut " collapsed" (cn ++ " scripted") = None) as H'.
  { apply (cut_append_other " " "collapsed" cn "scripted" eq_refl H).
    reflexivity. }
  pose proof (cut_append_word " " "collapsed" (cn ++ " scripted") ""
                eq_refl H') as Hc.
  change (String " " "collapsed" ++ "") with " collapsed" in Hc.
  rewrite Hc. apply append_nil_r.
Qed.

Lemma tokens_app_space (cur a w : string) :
  tokens cur (a ++ String " " w) = (tokens cur a ++ tokens "" w)%list.
Proof.
  revert cur. induction a as [|c a IH]; intros cur; simpl.
  - destruct (isEmpty cur); reflexivity.
  - destruct (isSpace c).
    + destruct (isEmpty cur); simpl; rewrite IH; reflexivity.
    + apply IH.
Qed.

Lemma classList_app_class (cn : string) :
  classList (cn ++ " collapsed") = (classList cn ++ ["collapsed"])%list
  /\ classList (cn ++ " scripted") = (classList cn ++ ["scripted"])%list.
Proof.
  unfold classList. split; apply tokens_app_space.
Qed.

Lemma getAttribute_set_same (n v : string) (a : Attr.t) :
  Attr.getAttribute n (Attr.setAttribute n v a) = Some v.
Proof.
  induction a as [|[n' v'] a IH]; simpl.
  - rewrite String.eqb_refl. reflexivity.
  - destruct (String.eqb n' n) eqn:E; simpl; rewrite E; auto.
Qed.

(** [setCollapseState] on a controller that has its trigger and a contents
    element. *)
Lemma setCollapseState_normal (doCollapse : bool) (o : CollapsibleSection)
  (t : Trigger) (c : Attr.t) (cs : list Attr.t) :
  trigger o = Some t -> contents (section o) = c :: cs ->
  CollapsibleSection.setCollapseState doCollapse o
  = Normal
      (mkCollapsibleSection
         (mkSection
            (if doCollapse then className (section o) ++ " collapsed"
             else Pattern.removeFirst " collapsed" (className (section o)))
            (heading (section o))
            (Attr.setAttribute "aria-hidden" (stringOfBool doCollapse) c :: cs))
         doCollapse
         (Some (triggerSetAttribute "aria-expanded"
                  (stringOfBool (negb doCollapse)) t))).
Proof.
  destruct o as [[cn h ct] col tr]. simpl. intros -> ->.
  unfold CollapsibleSection.setCollapseState.
  destruct doCollapse; reflexivity.
Qed.

Lemma init_toggled (s : Section) (h : Heading) (c : Attr.t)
  (cs : list Attr.t) (o : CollapsibleSection) :
  heading s = Some h -> contents s = c :: cs ->
  CollapsibleSection.init (CollapsibleSection.new s) = Normal o ->
  CollapsibleSection.Toggled (className s) o.
Proof.
  destruct s as [cn hd ct]. simpl. intros -> ->.
  unfold CollapsibleSection.init, CollapsibleSection.this_heading,
    CollapsibleSection.this_contents; simpl.
  destruct (Attr.getAttribute "id" c) as [contentsId|]; [|discriminate].
  destruct (CollapsibleSection.moveChildren _ _) as [hc tc].
  unfold CollapsibleSection.setCollapseState. simpl.
  intros H. inversion H; subst; clear H.
  eapply CollapsibleSection.toggled; simpl; try reflexivity.
  - apply getAttribute_set_same.
  - apply getAttribute_set_same.
  - left. auto.
Qed.

Lemma onclick_toggled (cn : string) (o : CollapsibleSection) :
  cut " collapsed" cn = None -> CollapsibleSection.Toggled cn o ->
  exists o',
    CollapsibleSection.onclick o = Normal o'
    /\ CollapsibleSection.Toggled cn o'
    /\ collapsed o' = negb (collapsed o)
    /\ heading (section o') = heading (section o)
    /\ tl (contents (section o')) = tl (contents (section o)).
Proof.
  intros Hcn [t c cs Ht Hc He Hh Hclass].
  unfold CollapsibleSection.onclick.
  rewrite (setCollapseState_normal _ o t c cs Ht Hc).
  eexists. split; [reflexivity|]. split; [|split; [reflexivity|]].
  - eapply CollapsibleSection.toggled; simpl; try reflexivity.
    + apply getAttribute_set_same.
    + apply getAttribute_set_same.
    + destruct Hclass as [[Hcol [Hcl|Hcl]] | [Hcol Hcl]];
        rewrite Hcol, Hcl; simpl.
      * right. split; [reflexivity|].
        apply removeFirst_collapsed_scripted. exact Hcn.
      * right. split; [reflexivity|].
        apply removeFirst_scripted_collapsed. exact Hcn.
      * left. auto.
  - simpl. rewrite Hc. auto.
Qed.

Lemma clicks_toggled (cn : string) (n : nat) (o : CollapsibleSection) :
  cut " collapsed" cn = None -> CollapsibleSection.Toggled cn o ->
  CollapsibleSection.Toggled cn (CollapsibleSection.clicks n o).
Proof.
  intros Hcn. revert o. induction n as [|n IH]; intros o Ho; simpl.
  - exact Ho.
  - destruct (onclick_toggled cn o Hcn Ho) as (o' & -> & Ho' & _).
    apply IH. exact Ho'.
Qed.

Lemma sameClasses_swap (l : list string) (a b : string) :
  sameClasses (l ++ [a; b]) (l ++ [b; a]).
Proof.
  intros c. rewrite !in_app_iff. simpl. tauto.
Qed.

Lemma toggleTwice_toggled (cn : string) (o : CollapsibleSection) :
  cut " collapsed" cn = None -> CollapsibleSection.Toggled cn o ->
  exists o', CollapsibleSection.toggleTwice o = Normal o' /\ sameState o o'.
Proof.
  intros Hcn Ho.
  destruct (onclick_toggled cn o Hcn Ho) as (o1 & H1 & Ho1 & Hcol1 & _ & Htl1).
  destruct (onclick_toggled cn o1 Hcn Ho1) as (o2 & H2 & Ho2 & Hcol2 & _ & Htl2).
  exists o2. unfold CollapsibleSection.toggleTwice.
  unfold CollapsibleSection.onclick in H1, H2. rewrite H1, H2.
  split; [reflexivity|].
  assert (collapsed o2 = collapsed o) as Hcol.
  { rewrite Hcol2, Hcol1. apply negb_involutive. }
  destruct Ho as [t c cs Ht Hc He Hh Hclass].
  destruct Ho2 as [t2 c2 cs2 Ht2 Hc2 He2 Hh2 Hclass2].
  rewrite Hc2 in Htl2. rewrite Hc in Htl1. simpl in Htl1, Htl2.
  assert (cs2 = cs) as -> by congruence.
  unfold sameState. split; [|split; [|split]].
  - unfold ariaExpanded. rewrite Ht, Ht2. simpl. rewrite He, He2, Hcol.
    reflexivity.
  - unfold ariaHidden. rewrite Hc, Hc2. simpl. rewrite Hh, Hh2, Hcol.
    reflexivity.
  - unfold classes.
    destruct (classList_app_class cn) as [Hcc Hcs].
    destruct (classList_app_class (cn ++ " collapsed")) as [_ Hcs'].
    destruct (classList_app_class (cn ++ " scripted")) as [Hcc' _].
    destruct Hclass as [[Hb [Hcl|Hcl]] | [Hb Hcl]];
      destruct Hclass2 as [[Hb2 [Hcl2|Hcl2]] | [Hb2 Hcl2]];
      try congruence; rewrite Hcl, Hcl2; try (intros x; tauto).
    + rewrite Hcs', Hcc, Hcc', Hcs, <- !app_assoc. simpl.
      apply sameClasses_swap.
    + rewrite Hcs', Hcc, Hcc', Hcs, <- !app_assoc. simpl.
      apply sameClasses_swap.
  - exact Hcol.
Qed.

End ToggleTwice.

(** ** Toggling twice in the jQuery variant *)

Section ToggleTwiceJq.
Import Str Collapsible.

Lemma tokens_words (s cur : string) :
  all notSpace cur = true ->
  Forall (fun w => isWord w = true) (tokens cur s).
Proof.
  revert cur. induction s as [|c s IH]; intros cur Hcur; simpl.
  - destruct (isEmpty cur) eqn:E; constructor; [|constructor].
    unfold isWord. rewrite E, Hcur. reflexivity.
  - destruct (isSpace c) eqn:Ec.
    + destruct (isEmpty cur) eqn:E.
      * apply IH. reflexivity.
      * constructor; [|apply IH; reflexivity].
        unfold isWord. rewrite E, Hcur. reflexivity.
    + apply IH. rewrite all_app, Hcur. simpl. unfold notSpace.
      rewrite Ec. reflexivity.
Qed.

Lemma classList_words (cn : string) :
  Forall (fun w => isWord w = true) (classList cn).
Proof. apply tokens_words. reflexivity. Qed.

Lemma tokens_word_prefix (w cur rest : string) :
  all notSpace w = true -> tokens cur (w ++ rest) = tokens (cur ++ w) rest.
Proof.
  revert cur. induction w as [|c w IH]; intros cur H; simpl.
  - rewrite append_nil_r. reflexivity.
  - simpl in H. apply andb_true_iff in H. destruct H as [Hc H].
    unfold notSpace in Hc. apply negb_true_iff in Hc. rewrite Hc.
    rewrite (IH _ H), append_assoc. reflexivity.
Qed.

Lemma tokens_space (cur s : string) :
  tokens cur (String " " s)
  = if isEmpty cur then tokens "" s else cur :: tokens "" s.
Proof. reflexivity. Qed.

Lemma unwords_cons (w w' : string) (l : list string) :
  unwords (w :: w' :: l) = w ++ String " " (unwords (w' :: l)).
Proof. reflexivity. Qed.

Lemma classList_unwords (l : list string) :
  Forall (fun w => isWord w = true) l -> classList (unwords l) = l.
Proof.
  unfold classList. induction 1 as [|w l Hw Hl IH]; [reflexivity|].
  unfold isWord in Hw. apply andb_true_iff in Hw. destruct Hw as [Hne Hw].
  apply negb_true_iff in Hne.
  destruct l as [|w' l].
  - simpl. rewrite <- (append_nil_r w) at 1.
    rewrite (tokens_word_prefix w "" "" Hw). simpl. rewrite Hne. reflexivity.
  - rewrite unwords_cons, (tokens_word_prefix w "" _ Hw).
    change ("" ++ w) with w.
    rewrite tokens_space, Hne, IH. reflexivity.
Qed.

Lemma existsb_eqb_In (c : string) (l : list string) :
  existsb (String.eqb c) l = true <-> In c l.
Proof.
  rewrite existsb_exists. split.
  - intros (x & Hx & E). apply String.eqb_eq in E. subst. exact Hx.
  - intros H. exists c. split; [exact H | apply String.eqb_refl].
Qed.

Lemma classList_addClass (c cn : string) :
  isWord c = true ->
  forall x, In x (classList (CollapsibleSectionJq.addClass c cn))
            <-> In x (classList cn) \/ x = c.
Proof.
  intros Hc x. unfold CollapsibleSectionJq.addClass.
  destruct (existsb (String.eqb c) (classList cn)) eqn:E.
  - rewrite classList_unwords by apply classList_words.
    apply existsb_eqb_In in E. split; [auto|]. intros [H| ->]; assumption.
  - rewrite classList_unwords.
    + rewrite in_app_iff. simpl. intuition.
    + apply Forall_app. split; [apply classList_words|].
      constructor; [exact Hc | constructor].
Qed.

Lemma classList_removeClass (c cn : string) :
  forall x, In x (classList (CollapsibleSectionJq.removeClass c cn))
            <-> In x (classList cn) /\ x <> c.
Proof.
  intros x. unfold CollapsibleSectionJq.removeClass.
  rewrite classList_unwords.
  - rewrite filter_In, negb_true_iff, String.eqb_neq.
    split; intros [H1 H2]; split; auto.
  - pose proof (classList_words cn) as H. rewrite Forall_forall in *.
    intros w Hw. apply filter_In in Hw. apply H. apply Hw.
Qed.

Lemma setCollapseState_jq_toggled (b : bool) (o : CollapsibleSection) :
  CollapsibleSectionJq.Toggled (CollapsibleSectionJq.setCollapseState b o)
  /\ collapsed (CollapsibleSectionJq.setCollapseState b o) = b
  /\ (forall x,
         In x (classes (CollapsibleSectionJq.setCollapseState b o))
         <-> (if b then In x (classes o) \/ x = "collapsed"
              else In x (classes o) /\ x <> "collapsed"))
  /\ option_map (fun _ => tt)
       (trigger (CollapsibleSectionJq.setCollapseState b o))
     = option_map (fun _ => tt) (trigger o)
  /\ List.length (contents (section (CollapsibleSectionJq.setCollapseState b o)))
     = List.length (contents (section o)).
Proof.
  destruct o as [[cn h ct] col tr].
  assert (forall x,
             In x (classes (CollapsibleSectionJq.setCollapseState b
                              (mkCollapsibleSection (mkSection cn h ct) col tr)))
             <-> (if b then In x (classList cn) \/ x = "collapsed"
                  else In x (classList cn) /\ x <> "collapsed")) as Hcl.
  { intros x. unfold CollapsibleSectionJq.setCollapseState, classes.
    destruct b; simpl.
    - apply classList_addClass. reflexivity.
    - apply classList_removeClass. }
  split; [|split; [|split; [exact Hcl|split]]].
  - constructor.
    + rewrite Hcl.
      destruct b; simpl; split; auto; try discriminate.
      intros [_ H]. congruence.
    + unfold CollapsibleSectionJq.setCollapseState. simpl.
      destruct b; destruct tr as [t|]; simpl; intros t' Ht;
        inversion Ht; subst; simpl; apply getAttribute_set_same.
    + unfold CollapsibleSectionJq.setCollapseState,
        CollapsibleSectionJq.contentsAttr.
      destruct b; simpl; intros c Hc; apply in_map_iff in Hc;
        destruct Hc as (c0 & <- & _); apply getAttribute_set_same.
  - unfold CollapsibleSectionJq.setCollapseState. destruct b; reflexivity.
  - unfold CollapsibleSectionJq.setCollapseState.
    destruct b; destruct tr; reflexivity.
  - unfold CollapsibleSectionJq.setCollapseState,
      CollapsibleSectionJq.contentsAttr.
    destruct b; simpl; apply length_map.
Qed.

Lemma init_jq_toggled (s : Section) :
  CollapsibleSectionJq.Toggled
    (CollapsibleSectionJq.init (CollapsibleSectionJq.new s)).
Proof.
  unfold CollapsibleSectionJq.init. cbv zeta.
  match goal with
  | |- context [CollapsibleSectionJq.setCollapseState true ?x] =>
      destruct (setCollapseState_jq_toggled true x)
        as ([Hc Ht Hh] & Hcol & Hcl & _);
      set (o := CollapsibleSectionJq.setCollapseState true x) in *
  end.
  constructor.
  - unfold classes in *. simpl.
    rewrite (classList_addClass "scripted" _ eq_refl). tauto.
  - exact Ht.
  - exact Hh.
Qed.

Lemma clicks_jq_toggled (n : nat) (o : CollapsibleSection) :
  CollapsibleSectionJq.Toggled o ->
  CollapsibleSectionJq.Toggled (CollapsibleSectionJq.clicks n o).
Proof.
  revert o. induction n as [|n IH]; intros o Ho; simpl; [exact Ho|].
  apply IH. apply setCollapseState_jq_toggled.
Qed.

Lemma map_const_length {A B : Type} (l l' : list A) (f : A -> B) (v : B) :
  (forall x, In x l -> f x = v) -> (forall x, In x l' -> f x = v) ->
  List.length l = List.length l' -> map f l = map f l'.
Proof.
  revert l'. induction l as [|a l IH]; intros [|a' l'] H H' Hlen;
    simpl in *; try discriminate; [reflexivity|].
  rewrite (H a), (H' a') by auto. f_equal. apply IH; auto.
Qed.

Lemma toggleTwice_jq_toggled (o : CollapsibleSection) :
  CollapsibleSectionJq.Toggled o ->
  sameState o (CollapsibleSectionJq.toggleTwice o).
Proof.
  intros [Hc Ht Hh]. unfold CollapsibleSectionJq.toggleTwice. cbv zeta.
  set (o1 := CollapsibleSectionJq.setCollapseState (negb (collapsed o)) o).
  destruct (setCollapseState_jq_toggled (negb (collapsed o)) o)
    as (_ & Hcol1 & Hcl1 & Htr1 & Hlen1).
  fold o1 in Hcol1, Hcl1, Htr1, Hlen1.
  set (o2 := CollapsibleSectionJq.setCollapseState (negb (collapsed o1)) o1).
  destruct (setCollapseState_jq_toggled (negb (collapsed o1)) o1)
    as ([Hc2 Ht2 Hh2] & Hcol2 & Hcl2 & Htr2 & Hlen2).
  fold o2 in Hc2, Ht2, Hh2, Hcol2, Hcl2, Htr2, Hlen2.
  assert (collapsed o2 = collapsed o) as Hcol.
  { rewrite Hcol2, Hcol1. apply negb_involutive. }
  unfold sameState. split; [|split; [|split]].
  - unfold ariaExpanded.
    destruct (trigger o2) as [t2|] eqn:E2; destruct (trigger o) as [t|] eqn:E;
      simpl.
    + rewrite (Ht2 t2 eq_refl), (Ht t eq_refl), Hcol. reflexivity.
    + rewrite Htr1 in Htr2. discriminate.
    + rewrite Htr1 in Htr2. discriminate.
    + reflexivity.
  - unfold ariaHidden.
    apply (map_const_length _ _ _ (Some (stringOfBool (collapsed o)))).
    + intros x Hx. rewrite (Hh2 x Hx), Hcol. reflexivity.
    + exact Hh.
    + congruence.
  - intros x. rewrite Hcl2, Hcol1, negb_involutive.
    destruct (collapsed o) eqn:Eo; simpl in *.
    + rewrite Hcl1.
      destruct (string_dec x "collapsed") as [->|Hx].
      * split; [intros _; apply Hc; reflexivity | auto].
      * tauto.
    + rewrite Hcl1. split.
      * intros [[H| ->] Hx]; [exact H | congruence].
      * intros H. split; [auto|]. intros ->. apply Hc in H. discriminate.
  - exact Hcol.
Qed.

End ToggleTwiceJq.

Section ToggleTwiceTheorems.
Import Str Collapsible.

(** In [collapsiblesection.js], for a section that [init] set up and whose
    class attribute did not contain the text [" collapsed"], after any
    number of clicks on the trigger: calling [setCollapseState] twice, each
    time with the negation of the current state, throws nothing and brings
    back the same [aria-expanded], the same [aria-hidden], the same set of
    classes and the same [collapsed] flag. *)
Theorem setCollapseState_twice_restores
  (s : Section) (h : Heading) (c : Attr.t) (cs : list Attr.t)
  (o : CollapsibleSection) (n : nat) :
  heading s = Some h -> contents s = c :: cs ->
  cut " collapsed" (className s) = None ->
  CollapsibleSection.init (CollapsibleSection.new s) = Normal o ->
  exists o',
    CollapsibleSection.toggleTwice (CollapsibleSection.clicks n o) = Normal o'
    /\ sameState (CollapsibleSection.clicks n o) o'.
Proof.
  intros Hh Hc Hcn Hinit.
  apply (toggleTwice_toggled (className s)); [exact Hcn|].
  apply clicks_toggled; [exact Hcn|].
  exact (init_toggled s h c cs o Hh Hc Hinit).
Qed.

(** A section of class [collapsibleSection], clicked once. *)
Lemma setCollapseState_twice_restores_witness :
  exists o o',
    CollapsibleSection.init
      (CollapsibleSection.new
         (mkSection "collapsibleSection" (Some (mkHeading ["Details"] false))
            [[("id", "details")]]))
    = Normal o
    /\ CollapsibleSection.toggleTwice (CollapsibleSection.clicks 1 o)
       = Normal o'.
Proof.
  eexists.
  destruct (setCollapseState_twice_restores
              (mkSection "collapsibleSection"
                 (Some (mkHeading ["Details"] false)) [[("id", "details")]])
              (mkHeading ["Details"] false) [("id", "details")] [] _ 1
              eq_refl eq_refl eq_refl eq_refl) as (o' & H & _).
  exists o'. split; [reflexivity | exact H].
Defined.

(** In the jQuery variant, for every section on which [init] ran, after any
    number of clicks on the trigger: calling [setCollapseState] twice, each
    time with the negation of the current state, brings back the same
    [aria-expanded], the same [aria-hidden], the same set of classes and the
    same [collapsed] flag. *)
Theorem setCollapseState_jquery_twice_restores (s : Section) (n : nat) :
  sameState
    (CollapsibleSectionJq.clicks n
       (CollapsibleSectionJq.init (CollapsibleSectionJq.new s)))
    (CollapsibleSectionJq.toggleTwice
       (CollapsibleSectionJq.clicks n
          (CollapsibleSectionJq.init (CollapsibleSectionJq.new s)))).
Proof.
  apply toggleTwice_jq_toggled. apply clicks_jq_toggled. apply init_jq_toggled.
Qed.

End ToggleTwiceTheorems.

Section Witnesses.
Import Collapsible.

Lemma init_without_heading_or_contents_witness :
  CollapsibleSection.init
    (CollapsibleSection.new
       (mkSection "collapsibleSection" None [[("id", "details")]]))
  = Normal
      (CollapsibleSection.new
         (mkSection "collapsibleSection" None [[("id", "details")]])).
Proof.
  apply (init_without_heading_or_contents
           (mkSection "collapsibleSection" None [[("id", "details")]])).
  left. reflexivity.
Defined.

Lemma init_throws_iff_no_id_witness :
  throws
    (CollapsibleSection.init
       (CollapsibleSection.new
          (mkSection "collapsibleSection" (Some (mkHeading ["Details"] false))
             [[("class", "contents")]])))
  = true.
Proof.
  apply (init_throws_iff_no_id
           (mkSection "collapsibleSection" (Some (mkHeading ["Details"] false))
              [[("class", "contents")]])
           (mkHeading ["Details"] false) [("class", "contents")] []
           eq_refl eq_refl).
  reflexivity.
Defined.

Lemma updateFilterPartFromUrl_jq_falls_back_witness :
  FilterJq.updateFilterPartFromUrl "#country=Norway" [("tag", "eco")] "tag"
  = [("tag", "")]
  /\ JsObject.get
       (FilterJq.updateFilterPartFromUrl "#country=Norway" [("tag", "eco")]
          "tag") "tag"
     = Some "".
Proof.
  apply (updateFilterPartFromUrl_jq_falls_back "#country=Norway"
           [("tag", "eco")] "tag").
  - reflexivity.
  - discriminate.
  - left. reflexivity.
Defined.

End Witnesses.

(** ** Frame properties *)

Section Frames.
Import Page Spec.

(** Recomputing the value of a key from its controls leaves the value of
    every other key as it was. *)
Theorem updateFilterPartFromControls_other_keys
  (filter : JsObject.t) (key other : string) (controls : list Control) :
  other <> key ->
  JsObject.get (Filter.updateFilterPartFromControls filter key controls) other
  = JsObject.get filter other.
Proof.
  intros H. unfold Filter.updateFilterPartFromControls.
  destruct (controls_set key controls filter "") as [v ->].
  apply get_set_other. exact H.
Qed.

Lemma updateFilterPartFromControls_other_keys_witness :
  JsObject.get
    (Filter.updateFilterPartFromControls
       [("country", "Norway"); ("tag", "*")] "tag"
       [mkControl "INPUT" true false "eco" None None])
    "country"
  = Some "Norway".
Proof.
  apply (updateFilterPartFromControls_other_keys
           [("country", "Norway"); ("tag", "*")] "tag" "country"
           [mkControl "INPUT" true false "eco" None None]).
  discriminate.
Defined.

(** Applying the filter touches no attribute of an item but [hidden]. *)
Theorem updateItem_other_attributes
  (joinType : Filter.JoinType) (filter : JsObject.t) (item : Element)
  (name : string) :
  name <> "hidden" ->
  Attr.getAttribute name (attrs (Filter.updateItem joinType filter item))
  = Attr.getAttribute name (attrs item).
Proof.
  intros H. unfold Filter.updateItem.
  destruct (Filter.shouldShow joinType filter item); simpl.
  - apply getAttribute_remove_other. exact H.
  - apply getAttribute_set_other. exact H.
Qed.

Lemma updateItem_other_attributes_witness :
  Attr.getAttribute "data-filter-country"
    (attrs (Filter.updateItem Filter.JoinAnd [("country", "Norway")]
              Scenario.sweden))
  = Some "Sweden".
Proof.
  apply (updateItem_other_attributes Filter.JoinAnd [("country", "Norway")]
           Scenario.sweden "data-filter-country").
  discriminate.
Defined.

End Frames.

(** ** The scenarios of the specification *)

Section Scenarios.
Import Page Scenario.

(** [data-filter-join] unset, filter [{country: "Norway", tag: "*"}]: only
    the Norwegian item is shown. *)
Example scenario_and :
  Filter.updateListFromFilter (target (container None))
    [("country", "Norway"); ("tag", "*")] (Filter.joinTypeOf (container None))
  = Normal (Some [ElementNode norway; OtherNode " "; ElementNode (hide sweden)]).
Proof. reflexivity. Qed.

(** Join type ['or'], filter [{country: "*", tag: "eco"}]: both items are
    shown. *)
Example scenario_or :
  Filter.updateListFromFilter (target (container (Some "or")))
    [("country", "*"); ("tag", "eco")]
    (Filter.joinTypeOf (container (Some "or")))
  = Normal (Some [ElementNode norway; OtherNode " "; ElementNode sweden]).
Proof. reflexivity. Qed.

(** The box of the key [tag], which has no [data-filter-off], is checked
    and then unchecked: the value of the key becomes ["eco"] and then the
    empty string.  In [collapsiblesection.js] the empty string is a value
    like any other, which no item has: both items end hidden. *)
Example scenario_uncheck :
  Filter.currentFilter
    (Filter.run true Filter.JoinAnd (start None) [Filter.Change 1 [(true, false)]])
  = [("country", "*"); ("tag", "eco")]
  /\ Filter.currentFilter
       (Filter.run true Filter.JoinAnd (start None)
          [Filter.Change 1 [(true, false)]; Filter.Change 1 [(false, false)]])
     = [("country", "*"); ("tag", "")]
  /\ Filter.list_
       (Filter.run true Filter.JoinAnd (start None)
          [Filter.Change 1 [(true, false)]; Filter.Change 1 [(false, false)]])
     = Some [ElementNode (hide norway); OtherNode " "; ElementNode (hide sweden)]
  /\ Filter.location_hash
       (Filter.run true Filter.JoinAnd (start None)
          [Filter.Change 1 [(true, false)]; Filter.Change 1 [(false, false)]])
     = "#!tag=".
Proof. repeat split. Qed.

(** The same two changes in [filter_jquery.js], where the empty string is
    the value that matches everything: both items end shown. *)
Example scenario_uncheck_jquery :
  FilterJq.updateListFromFilter (target (container None))
    (FilterJq.updateFilterPartFromControls [("country", ""); ("tag", "eco")]
       "tag" [mkControl "INPUT" false false "eco" None None])
  = Some [ElementNode norway; OtherNode " "; ElementNode sweden].
Proof. reflexivity. Qed.

(** Norway is chosen, then Sweden, then the history goes back to the entry
    of the first change: the filter, the radio buttons and the list are
    those of the fragment of that entry. *)
Example scenario_popstate :
  Filter.location_hash
    (Filter.run true Filter.JoinAnd (start None)
       [Filter.Change 0 [(true, false); (false, false)]])
  = "#!country=Norway"
  /\ Filter.location_hash
       (Filter.run true Filter.JoinAnd (start None)
          [Filter.Change 0 [(true, false); (false, false)];
           Filter.Change 0 [(false, false); (true, false)]])
     = "#!country=Sweden"
  /\ Filter.currentFilter
       (Filter.run true Filter.JoinAnd (start None)
          [Filter.Change 0 [(true, false); (false, false)];
           Filter.Change 0 [(false, false); (true, false)];
           Filter.PopState "#!country=Norway"])
     = [("country", "Norway"); ("tag", "*")]
  /\ map (fun p => map checked (filterControls p))
       (Filter.filterParts
          (Filter.run true Filter.JoinAnd (start None)
             [Filter.Change 0 [(true, false); (false, false)];
              Filter.Change 0 [(false, false); (true, false)];
              Filter.PopState "#!country=Norway"]))
     = [[true; false]; [false]]
  /\ Filter.list_
       (Filter.run true Filter.JoinAnd (start None)
          [Filter.Change 0 [(true, false); (false, false)];
           Filter.Change 0 [(false, false); (true, false)];
           Filter.PopState "#!country=Norway"])
     = Some [ElementNode norway; OtherNode " "; ElementNode (hide sweden)].
Proof. repeat split. Qed.

End Scenarios.

(** ** What encoding one key does to the other keys *)

Section OtherKeys.
Import Str Pattern Spec.

Lemma hd_split (s : string) :
  hd "" (split ";" s) = takeWhile notSemicolon s.
Proof.
  induction s as [|c s IH]; simpl; [reflexivity|].
  unfold notSemicolon at 1.
  destruct (Ascii.eqb c ";"); simpl; [reflexivity|].
  destruct (split ";" s) eqn:E; simpl in *; [|congruence].
  exfalso. exact (split_not_nil _ _ E).
Qed.

Lemma startsWith_takeWhile (p s : string) :
  all notSemicolon p = true ->
  startsWith p (takeWhile notSemicolon s) = startsWith p s.
Proof.
  revert s. induction p as [|a p IH]; intros s Hp; simpl in *; [reflexivity|].
  apply andb_true_iff in Hp. destruct Hp as [Ha Hp].
  destruct s as [|b s]; simpl; [reflexivity|].
  destruct (notSemicolon b) eqn:Eb; simpl.
  - rewrite (IH s Hp). reflexivity.
  - destruct (Ascii.eqb_spec a b) as [->|]; [congruence | reflexivity].
Qed.

Lemma drop_takeWhile (p s : string) :
  startsWith p s = true -> all notSemicolon p = true ->
  drop (length p) (takeWhile notSemicolon s)
  = takeWhile notSemicolon (drop (length p) s).
Proof.
  revert s. induction p as [|a p IH]; intros s H Hp; simpl in *; [reflexivity|].
  destruct s as [|b s]; [discriminate|].
  apply andb_true_iff in Hp. destruct Hp as [Ha Hp].
  apply andb_true_iff in H. destruct H as [Hab H].
  apply Ascii.eqb_eq in Hab. subst b. simpl. rewrite Ha. simpl.
  apply IH; assumption.
Qed.

Lemma segmentHere_first_segment (key s : string) :
  plainKey key = true ->
  segmentHere key s = segmentValue key (hd "" (split ";" s)).
Proof.
  intros Hk. pose proof (plainKey_notSemicolon key Hk) as Hp.
  rewrite hd_split. unfold segmentHere, segmentValue.
  rewrite (startsWith_takeWhile _ s Hp).
  destruct (startsWith (key ++ "=") s) eqn:E; [|reflexivity].
  rewrite (drop_takeWhile _ s E Hp). reflexivity.
Qed.

Lemma firstValue_split (key s : string) :
  firstValue key (split ";" s)
  = match segmentValue key (hd "" (split ";" s)) with
    | Some value => Some value
    | None => firstValue key (tl (split ";" s))
    end.
Proof.
  destruct (split ";" s) eqn:E; [|reflexivity].
  exfalso. exact (split_not_nil _ _ E).
Qed.

Lemma segmentAfterSemicolon_later_segments (key s : string) :
  plainKey key = true ->
  segmentAfterSemicolon key s = firstValue key (tl (split ";" s)).
Proof.
  intros Hk. induction s as [|c s IH]; [reflexivity|].
  simpl. destruct (Ascii.eqb c ";"); simpl.
  - rewrite (segmentHere_first_segment key s Hk), IH.
    symmetry. apply firstValue_split.
  - rewrite IH. destruct (split ";" s); reflexivity.
Qed.

(** The decoding pattern gives the value of the first segment that has one
    for the key. *)
Lemma matchFilterValue_segments (key s : string) :
  plainKey key = true ->
  matchFilterValue key s = firstValue key (split ";" s).
Proof.
  intros Hk. unfold matchFilterValue.
  rewrite (segmentHere_first_segment key s Hk),
    (segmentAfterSemicolon_later_segments key s Hk).
  symmetry. apply firstValue_split.
Qed.

Lemma split_app_semicolon (a c : string) :
  split ";" (a ++ String ";" c) = (split ";" a ++ split ";" c)%list.
Proof.
  induction a as [|x a IH]; simpl; [reflexivity|].
  rewrite IH. destruct (Ascii.eqb x ";"); [reflexivity|].
  destruct (split ";" a) eqn:E; [|reflexivity].
  exfalso. exact (split_not_nil _ _ E).
Qed.

Lemma split_word (w : string) :
  all notSemicolon w = true -> split ";" w = [w].
Proof.
  induction w as [|c w IH]; simpl; [reflexivity|].
  intros H. apply andb_true_iff in H. destruct H as [Hc H].
  unfold notSemicolon in Hc. apply negb_true_iff in Hc.
  rewrite Hc, (IH H). reflexivity.
Qed.

Lemma endsWithChar_split (c : ascii) (b : string) :
  endsWithChar c b = true -> exists b', b = b' ++ String c "".
Proof.
  induction b as [|a b IH]; [discriminate|].
  simpl. destruct b as [|a' b].
  - intros H. apply Ascii.eqb_eq in H. subst. exists "". reflexivity.
  - intros H. destruct (IH H) as [b' Hb']. exists (String a b').
    simpl. rewrite <- Hb'. reflexivity.
Qed.

(** The segments of a text in which the word [w] stands as a segment of its
    own: those before it, [w], and those after it. *)
Lemma split_around (b rest : string) :
  b = "" \/ endsWithChar ";" b = true -> stopsAt notSemicolon rest ->
  exists before after,
    forall w, all notSemicolon w = true ->
              split ";" (b ++ w ++ rest) = (before ++ w :: after)%list.
Proof.
  intros Hb Hrest.
  assert (exists after,
             forall w, all notSemicolon w = true ->
                       split ";" (w ++ rest) = w :: after) as [after Hafter].
  { destruct rest as [|c rest'].
    - exists []. intros w Hw. rewrite append_nil_r. apply split_word. exact Hw.
    - simpl in Hrest. unfold notSemicolon in Hrest.
      apply negb_false_iff in Hrest. apply Ascii.eqb_eq in Hrest. subst c.
      exists (split ";" rest'). intros w Hw.
      rewrite split_app_semicolon, (split_word w Hw). reflexivity. }
  destruct Hb as [-> | Hb].
  - exists [], after. intros w Hw. simpl. apply Hafter. exact Hw.
  - destruct (endsWithChar_split _ _ Hb) as [b' ->].
    exists (split ";" b'), after. intros w Hw.
    rewrite append_assoc. simpl append at 2.
    rewrite split_app_semicolon, (Hafter w Hw). reflexivity.
Qed.

Lemma firstValue_skip (key : string) (before after : list string) (w : string) :
  segmentValue key w = None ->
  firstValue key (before ++ w :: after) = firstValue key (before ++ after).
Proof.
  intros Hw. induction before as [|seg before IH]; simpl.
  - rewrite Hw. reflexivity.
  - rewrite IH. reflexivity.
Qed.

Lemma startsWith_key_eq (other key x : string) :
  all notEquals other = true -> all notEquals key = true ->
  startsWith (other ++ "=") (key ++ "=" ++ x) = true -> other = key.
Proof.
  revert key. induction other as [|a other IH]; intros key Ho Hk H.
  - destruct key as [|b key]; [reflexivity|].
    cbn [startsWith append] in H. cbn [all] in Hk.
    apply andb_true_iff in Hk. destruct Hk as [Hb _].
    apply andb_true_iff in H. destruct H as [H _].
    apply Ascii.eqb_eq in H. subst b. discriminate Hb.
  - cbn [all] in Ho. apply andb_true_iff in Ho. destruct Ho as [Ha Ho].
    destruct key as [|b key].
    + cbn [startsWith append] in H.
      apply andb_true_iff in H. destruct H as [H _].
      apply Ascii.eqb_eq in H. subst a. discriminate Ha.
    + cbn [startsWith append] in H. cbn [all] in Hk.
      apply andb_true_iff in Hk. destruct Hk as [_ Hk].
      apply andb_true_iff in H. destruct H as [Hab H].
      apply Ascii.eqb_eq in Hab. subst b. f_equal.
      apply (IH key Ho Hk H).
Qed.

Lemma segmentValue_other_key (other key x : string) :
  all notEquals other = true -> all notEquals key = true -> other <> key ->
  segmentValue other ((key ++ "=") ++ x) = None.
Proof.
  intros Ho Hk Hne. unfold segmentValue. rewrite append_assoc.
  destruct (startsWith (other ++ "=") (key ++ "=" ++ x)) eqn:E; [|reflexivity].
  exfalso. apply Hne. exact (startsWith_key_eq other key x Ho Hk E).
Qed.

(** Decoding the fragment whose text after [#!] is [body], whatever the
    pattern finds in it. *)
Lemma decode_segments (body : string) (filter : JsObject.t)
  (key defaultValue : string) :
  plainKey key = true ->
  all notLineTerminator body = true -> body <> "" ->
  Filter.updateFilterPartFromUrl ("#!" ++ body) filter key defaultValue
  = JsObject.set filter key
      match firstValue key (split ";" body) with
      | Some value => value
      | None => defaultValue
      end.
Proof.
  intros Hk Hb Hne. unfold Filter.updateFilterPartFromUrl.
  rewrite (matchAnchored_bang body Hb Hne), (matchFilterValue_segments _ _ Hk).
  reflexivity.
Qed.

Lemma decode_hash_segments (hash : string) (filter : JsObject.t)
  (key defaultValue : string) :
  plainKey key = true ->
  Filter.updateFilterPartFromUrl hash filter key defaultValue
  = JsObject.set filter key
      match matchAnchored hash with
      | Some rest =>
          match firstValue key (split ";" rest) with
          | Some value => value
          | None => defaultValue
          end
      | None => defaultValue
      end.
Proof.
  intros Hk. unfold Filter.updateFilterPartFromUrl.
  destruct (matchAnchored hash); [|reflexivity].
  rewrite (matchFilterValue_segments _ _ Hk). reflexivity.
Qed.

End OtherKeys.

Section OtherKeysTheorem.
Import Str Pattern Spec.

(** With [history.pushState] available, plain keys without [=], a plain
    value, and a fragment in which the first occurrence of the text [key=],
    if there is one, starts a segment: writing the value of the key with
    [updateUrlFromFilterPart] leaves what [updateFilterPartFromUrl] decodes
    for every other key as it was.  The fragment is one that both patterns
    read alike, as any fragment beginning with [#!] or holding no [#!] is. *)
Theorem updateUrlFromFilterPart_other_keys
  (hash key other value defaultValue : string) (filter filter' : JsObject.t) :
  plainKey key = true -> all fragmentSafe key = true ->
  all notEquals key = true ->
  plainKey other = true -> all notEquals other = true -> other <> key ->
  JsObject.get filter key = Some value -> plainValue value = true ->
  matchAnchored hash = matchUnanchored hash ->
  firstOccurrenceStartsSegment key (Filter.startFragment hash) = true ->
  Filter.updateFilterPartFromUrl
    (Filter.updateUrlFromFilterPart true hash filter key)
    filter' other defaultValue
  = Filter.updateFilterPartFromUrl hash filter' other defaultValue.
Proof.
  intros Hk Hsafe HkE Ho HoE Hne Hget Hval Hhash Hfirst.
  unfold plainValue in Hval.
  apply andb_true_iff in Hval. destruct Hval as [Hval HvL].
  apply safe_notLineTerminator in HvL.
  apply andb_true_iff in Hval. destruct Hval as [HvS HvD].
  pose proof (plainKey_notSemicolon key Hk) as HpS.
  pose proof (safeKey_notLineTerminator key Hsafe) as HpL.
  pose proof (plainKey_notDollar key Hk) as HpD.
  assert (forall x, segmentValue other ((key ++ "=") ++ x) = None) as Hskip.
  { intros x. apply segmentValue_other_key; assumption. }
  rewrite (decode_hash_segments hash filter' other defaultValue Ho), Hhash.
  unfold Filter.updateUrlFromFilterPart, Filter.newFragmentFor,
    Filter.valueText. rewrite Hget.
  unfold firstOccurrenceStartsSegment in Hfirst.
  unfold matchFilterPart, replaceFilterPart, matchFilterPart.
  unfold Filter.startFragment in *.
  destruct (matchUnanchored hash) as [r|] eqn:E.
  - destruct (matchUnanchored_rest _ _ E) as [HrL Hrne].
    destruct (cut (key ++ "=") ("#!" ++ r)) as [[before after]|] eqn:Ecut.
    + destruct (before_shape before Hfirst) as (b & -> & Hb).
      apply cut_after_bang in Ecut.
      pose proof (cut_eq _ _ _ _ Ecut) as Hr.
      rewrite getSubstitution_literal.
      2:{ rewrite <- append_assoc, all_app, HpD, HvD. reflexivity. }
      destruct (split_around b (dropWhile notSemicolon after) Hb
                  (dropWhile_stops _ _)) as (Lb & La & Hsplit).
      replace (("#!" ++ b) ++ (key ++ "=" ++ value)
               ++ dropWhile notSemicolon after)
        with ("#!" ++ (b ++ ((key ++ "=") ++ value)
                         ++ dropWhile notSemicolon after)).
      2:{ rewrite !append_assoc. reflexivity. }
      rewrite decode_segments.
      * rewrite Hsplit by (rewrite all_app, HpS, HvS; reflexivity).
        rewrite (firstValue_skip other Lb La _ (Hskip value)).
        assert (r = b ++ ((key ++ "=") ++ takeWhile notSemicolon after)
                      ++ dropWhile notSemicolon after) as Hr'.
        { rewrite Hr, !append_assoc, takeWhile_dropWhile. reflexivity. }
        rewrite Hr' at 1.
        rewrite Hsplit by (rewrite all_app, HpS, all_takeWhile; reflexivity).
        rewrite (firstValue_skip other Lb La _ (Hskip _)). reflexivity.
      * exact Ho.
      * rewrite Hr, !all_app in HrL.
        apply andb_true_iff in HrL. destruct HrL as [HbL HrL].
        apply andb_true_iff in HrL. destruct HrL as [_ HaL].
        rewrite (all_app _ b), (all_app _ ((key ++ "=") ++ value)),
          (all_app _ (key ++ "=")), HbL, HpL, HvL. simpl.
        apply all_dropWhile. exact HaL.
      * intros Hempty. destruct b; [|discriminate Hempty].
        destruct key; discriminate Hempty.
    + replace ((("#!" ++ r) ++ ";") ++ key ++ "=" ++ value)
        with ("#!" ++ (r ++ String ";" ((key ++ "=") ++ value))).
      2:{ rewrite !append_assoc. reflexivity. }
      rewrite decode_segments.
      * rewrite split_app_semicolon.
        rewrite (split_word ((key ++ "=") ++ value))
          by (rewrite all_app, HpS, HvS; reflexivity).
        rewrite (firstValue_skip other (split ";" r) [] _ (Hskip value)).
        rewrite app_nil_r. reflexivity.
      * exact Ho.
      * rewrite (all_app _ r), HrL. simpl.
        rewrite (all_app _ (key ++ "=")), HpL, HvL. reflexivity.
      * destruct r; discriminate.
  - destruct (cut (key ++ "=") "#!") as [[before after]|] eqn:Ecut.
    + exfalso. destruct (before_shape before Hfirst) as (b & -> & _).
      apply (cut_after_bang _ b after "") in Ecut.
      apply cut_eq in Ecut. destruct b; [|discriminate Ecut].
      destruct key; discriminate Ecut.
    + replace ("#!" ++ key ++ "=" ++ value)
        with ("#!" ++ ((key ++ "=") ++ value)).
      2:{ rewrite !append_assoc. reflexivity. }
      rewrite decode_segments.
      * rewrite (split_word ((key ++ "=") ++ value))
          by (rewrite all_app, HpS, HvS; reflexivity).
        simpl. rewrite (Hskip value). reflexivity.
      * exact Ho.
      * rewrite all_app, HpL, HvL. reflexivity.
      * destruct key; discriminate.
Qed.

(** The tag is changed in a fragment that also encodes a country: the
    country is decoded as before. *)
Lemma updateUrlFromFilterPart_other_keys_witness :
  Filter.updateFilterPartFromUrl
    (Filter.updateUrlFromFilterPart true "#!country=Norway;tag=eco"
       [("country", "Norway"); ("tag", "bio")] "tag")
    [] "country" "*"
  = Filter.updateFilterPartFromUrl "#!country=Norway;tag=eco" [] "country" "*".
Proof.
  apply (updateUrlFromFilterPart_other_keys "#!country=Norway;tag=eco"
           "tag" "country" "bio" "*"
           [("country", "Norway"); ("tag", "bio")] []);
    try reflexivity.
  discriminate.
Defined.

End OtherKeysTheorem.

(** ** Applying the filter again, and filters that match nothing *)

Section ApplyTwice.
Import Page Spec.

Lemma setAttribute_twice (n v : string) (a : Attr.t) :
  Attr.setAttribute n v (Attr.setAttribute n v a) = Attr.setAttribute n v a.
Proof.
  induction a as [|[m w] a IH]; simpl.
  - rewrite String.eqb_refl. reflexivity.
  - destruct (String.eqb m n) eqn:E; simpl; rewrite E; [reflexivity|].
    rewrite IH. reflexivity.
Qed.

Lemma removeAttribute_twice (n : string) (a : Attr.t) :
  Attr.removeAttribute n (Attr.removeAttribute n a) = Attr.removeAttribute n a.
Proof.
  induction a as [|[m w] a IH]; simpl; [reflexivity|].
  destruct (String.eqb m n) eqn:E; simpl; [exact IH|].
  rewrite E, IH. reflexivity.
Qed.

Lemma data_filter_not_hidden (key : string) : "data-filter-" ++ key <> "hidden".
Proof. discriminate. Qed.

(** The loop over the keys reads the [data-filter-<key>] attributes of the
    item and nothing else. *)
Lemma forKeyInFilter_reads (j : Filter.JoinType) (filter : JsObject.t)
  (item item' : Element) (b : bool) :
  (forall key, itemValue key item' = itemValue key item) ->
  Filter.forKeyInFilter j item' filter b = Filter.forKeyInFilter j item filter b.
Proof.
  intros H. induction filter as [|[key wanted] filter IH];
    cbn [Filter.forKeyInFilter]; [reflexivity|].
  pose proof (H key) as Hk. unfold itemValue in Hk. rewrite Hk, IH. reflexivity.
Qed.

Lemma itemValue_updateItem (j : Filter.JoinType) (filter : JsObject.t)
  (item : Element) (key : string) :
  itemValue key (Filter.updateItem j filter item) = itemValue key item.
Proof.
  unfold itemValue, Filter.updateItem.
  destruct (Filter.shouldShow j filter item); simpl.
  - apply getAttribute_remove_other, data_filter_not_hidden.
  - apply getAttribute_set_other, data_filter_not_hidden.
Qed.

Lemma updateItem_twice (j : Filter.JoinType) (filter : JsObject.t)
  (item : Element) :
  Filter.updateItem j filter (Filter.updateItem j filter item)
  = Filter.updateItem j filter item.
Proof.
  assert (Hs : Filter.shouldShow j filter (Filter.updateItem j filter item)
               = Filter.shouldShow j filter item).
  { unfold Filter.shouldShow. f_equal. apply forKeyInFilter_reads.
    intros key. apply itemValue_updateItem. }
  unfold Filter.updateItem at 1. rewrite Hs.
  unfold Filter.updateItem.
  destruct (Filter.shouldShow j filter item); simpl.
  - rewrite removeAttribute_twice. reflexivity.
  - rewrite setAttribute_twice. reflexivity.
Qed.

Lemma updateItem_jq_twice (filter : JsObject.t) (item : Element) :
  FilterJq.updateItem filter (FilterJq.updateItem filter item)
  = FilterJq.updateItem filter item.
Proof.
  unfold FilterJq.updateItem.
  destruct (fst (FilterJq.forKeyInFilter (mkElement (attrs item) false) filter))
    eqn:E; simpl; rewrite E; reflexivity.
Qed.

(** Applying the filter to the list a second time changes nothing, in
    either join mode and in both scripts: what an item ends as depends on
    its [data-filter-<key>] attributes, which applying the filter leaves
    alone. *)
Theorem updateListFromFilter_twice
  (children : list Node) (filter : JsObject.t) (joinType : Filter.JoinType) :
  (exists children',
      Filter.updateListFromFilter (Some children) filter joinType
      = Normal (Some children')
      /\ Filter.updateListFromFilter (Some children') filter joinType
         = Normal (Some children'))
  /\ FilterJq.updateListFromFilter
       (FilterJq.updateListFromFilter (Some children) filter) filter
     = FilterJq.updateListFromFilter (Some children) filter.
Proof.
  split.
  - exists (map (Filter.updateNode joinType filter) children).
    split; [reflexivity|]. simpl. do 2 f_equal.
    rewrite map_map. apply map_ext. intros [item|data]; simpl; [|reflexivity].
    rewrite updateItem_twice. reflexivity.
  - simpl. f_equal. rewrite map_map. apply map_ext.
    intros [item|data]; simpl; [|reflexivity].
    rewrite updateItem_jq_twice. reflexivity.
Qed.

Lemma get_In (o : JsObject.t) (k v : string) :
  JsObject.get o k = Some v -> In (k, v) o.
Proof.
  intros H. rewrite (get_lookup o k (get_Some_name o k v H)) in H. revert H.
  induction o as [|[k' v'] o IH]; simpl; [discriminate|].
  destruct (String.eqb k' k) eqn:E.
  - apply String.eqb_eq in E. intros H. inversion H; subst. left. reflexivity.
  - intros H. right. apply IH, H.
Qed.

Lemma joinTypeOf_and (container : FilterContainer) :
  Filter.joinTypeOf container = Filter.JoinAnd
  <-> data_filter_join container <> Some "or".
Proof.
  unfold Filter.joinTypeOf.
  destruct (strictEq (data_filter_join container) "or") eqn:E.
  - apply strictEq_true in E. split; [discriminate|]. intros H. contradiction.
  - apply strictEq_false in E. split; [intros _; exact E|reflexivity].
Qed.

(** A container without any filter part: [setupFilter] leaves the filter
    empty and the container's [hidden] attribute as it was, and applies the
    empty filter, which shows every item unless [data-filter-join] is
    ["or"], where it hides every item. *)
Theorem setupFilter_without_filter_parts
  (hash : string) (container : FilterContainer) (children : list Node)
  (k : nat) (item : Element) :
  Filter.filterPartsOf container = [] ->
  target container = Some children ->
  nth_error children k = Some (ElementNode item) ->
  exists st children' item',
    Filter.setupFilter hash container = Normal st
    /\ Filter.currentFilter st = JsObject.empty
    /\ Filter.containerHidden st = hidden container
    /\ Filter.list_ st = Some children'
    /\ nth_error children' k = Some (ElementNode item')
    /\ (shown item' <-> data_filter_join container <> Some "or").
Proof.
  intros Hp Ht Hk. unfold Filter.setupFilter. rewrite Hp, Ht. simpl.
  eexists _, _, _. split; [reflexivity|]. simpl.
  repeat (split; [reflexivity|]).
  split.
  - apply (nth_error_updateNode
             (Filter.updateItem (Filter.joinTypeOf container) JsObject.empty));
      [reflexivity | exact Hk].
  - rewrite <- joinTypeOf_and.
    destruct (Filter.joinTypeOf container) eqn:E.
    + rewrite updateItem_and_shown. split; [reflexivity|].
      intros _ key wanted [].
    + rewrite updateItem_or_shown. split; [|discriminate].
      intros (key & wanted & [] & _).
Qed.

Lemma setupFilter_without_filter_parts_witness :
  exists st children' item',
    Filter.setupFilter ""
      (mkFilterContainer (Some "list1") (Some "or") true None []
         (Some [ElementNode Scenario.norway]))
    = Normal st
    /\ Filter.currentFilter st = JsObject.empty
    /\ Filter.containerHidden st = true
    /\ Filter.list_ st = Some children'
    /\ nth_error children' 0 = Some (ElementNode item')
    /\ ~ shown item'.
Proof.
  destruct (setupFilter_without_filter_parts ""
              (mkFilterContainer (Some "list1") (Some "or") true None []
                 (Some [ElementNode Scenario.norway]))
              [ElementNode Scenario.norway] 0 Scenario.norway
              eq_refl eq_refl eq_refl)
    as (st & children' & item' & H1 & H2 & H3 & H4 & H5 & H6).
  exists st, children', item'. repeat (split; [assumption|]).
  intros H. apply H6 in H. apply H. reflexivity.
Defined.

(** A [change] event on a filter part with a plain key other than
    [__proto__], none of whose controls is checked or selected, and none of
    whose unchecked inputs carries [data-filter-off], sets the key to the
    empty string; with join type ['and'] every item is then hidden but those
    whose attribute for the key is the empty string. *)
Theorem onChange_nothing_checked
  (pushState : bool) (i : nat) (st : Filter.State) (part : FilterPart)
  (children : list Node) (k : nat) (item : Element) :
  nth_error (Filter.filterParts st) i = Some part ->
  Pattern.plainKey (data_filter_name part) = true ->
  data_filter_name part <> "__proto__" ->
  (forall c, In c (filterControls part) -> checkedOrSelected c = false) ->
  (forall c, In c (filterControls part) -> uncheckedWithOff c = false) ->
  Filter.list_ st = Some children ->
  nth_error children k = Some (ElementNode item) ->
  itemValue (data_filter_name part) item <> Some "" ->
  exists st' children' item',
    Filter.onChange pushState Filter.JoinAnd i st = Normal st'
    /\ JsObject.get (Filter.currentFilter st') (data_filter_name part) = Some ""
    /\ Filter.list_ st' = Some children'
    /\ nth_error children' k = Some (ElementNode item')
    /\ ~ shown item'.
Proof.
  intros Hi _ Hname Hc Ho Hl Hk Hv. unfold Filter.onChange. rewrite Hi, Hl.
  simpl.
  rewrite (updateFilterPartFromControls_none _ _ _ Hc Ho).
  eexists _, _, _. split; [reflexivity|]. simpl.
  split; [apply get_set, Hname|]. split; [reflexivity|]. split.
  - apply (nth_error_updateNode
             (Filter.updateItem Filter.JoinAnd
                (JsObject.set (Filter.currentFilter st) (data_filter_name part) "")));
      [reflexivity | exact Hk].
  - rewrite updateItem_and_shown. intros H. apply Hv.
    apply (H (data_filter_name part) "").
    + apply get_In, get_set, Hname.
    + discriminate.
Qed.

Lemma onChange_nothing_checked_witness :
  exists st' children' item',
    Filter.onChange true Filter.JoinAnd 1 (Scenario.start None) = Normal st'
    /\ JsObject.get (Filter.currentFilter st') "tag" = Some ""
    /\ Filter.list_ st' = Some children'
    /\ nth_error children' 0 = Some (ElementNode item')
    /\ ~ shown item'.
Proof.
  apply (onChange_nothing_checked true 1 (Scenario.start None)
           (mkFilterPart "tag" None
              [mkControl "INPUT" false false "eco" None (Some "list1")])
           [ElementNode Scenario.norway; OtherNode " ";
            ElementNode Scenario.sweden] 0 Scenario.norway).
  - reflexivity.
  - reflexivity.
  - discriminate.
  - intros c [<-|[]]. reflexivity.
  - intros c [<-|[]]. reflexivity.
  - reflexivity.
  - reflexivity.
  - discriminate.
Defined.

End ApplyTwice.

(** ** Setting the controls and reading them back *)

Section ControlsRoundTrip.
Import Page Spec.

(** What reading a control gives once the controls were set from the value
    [v]: [v] from an input or option that stands for [v], the
    [data-filter-off] value from an input that stands for another value and
    carries one, nothing from any other control. *)
Lemma controlStep_synced (key v : string) (filter o : JsObject.t)
  (controls : list Control) :
  JsObject.get filter key = Some v ->
  fold_left (Filter.controlStep key)
    (Filter.updateControlsFromFilterPart controls filter key) o
  = fold_left
      (fun o c =>
         if standsFor v c then JsObject.set o key v
         else match offValue v c with
              | Some off => JsObject.set o key off
              | None => o
              end)
      controls o.
Proof.
  intros Hv. revert o. unfold Filter.updateControlsFromFilterPart.
  induction controls as [|c cs IH]; intros o; [reflexivity|].
  cbn [map fold_left]. rewrite IH. f_equal.
  rewrite Hv. unfold Filter.controlStep, standsFor, offValue, strictEq.
  rewrite (String.eqb_sym v).
  destruct c as [tag ch sel df off ac].
  cbn [setSelected setChecked tagName selected checked data_filter
       data_filter_off].
  destruct (String.eqb tag "OPTION") eqn:Eo;
    cbn [setSelected setChecked tagName selected checked data_filter
         data_filter_off];
    rewrite ?Eo.
  - apply String.eqb_eq in Eo. subst tag. simpl.
    destruct (String.eqb df v) eqn:Edf; [apply String.eqb_eq in Edf; subst df|]; reflexivity.
  - destruct (String.eqb tag "INPUT"); simpl;
      (destruct (String.eqb df v) eqn:Edf;
       [apply String.eqb_eq in Edf; subst df|]; reflexivity).
Qed.

Lemma fold_fires (key v : string) (controls : list Control) (o : JsObject.t)
  (x : string) :
  (forall c off, In c controls -> offValue v c = Some off -> off = v) ->
  fold_left
    (fun o c =>
       if standsFor v c then JsObject.set o key v
       else match offValue v c with
            | Some off => JsObject.set o key off
            | None => o
            end)
    controls (JsObject.set o key x)
  = JsObject.set o key
      (if existsb (fun c => standsFor v c
                            || match offValue v c with
                               | Some _ => true
                               | None => false
                               end) controls
       then v else x).
Proof.
  revert x. induction controls as [|c cs IH]; intros x H; [reflexivity|].
  cbn [fold_left existsb].
  assert (Hcs : forall c' off, In c' cs -> offValue v c' = Some off -> off = v).
  { intros c' off Hc'. apply H. right. exact Hc'. }
  destruct (standsFor v c) eqn:Es.
  - rewrite set_set, (IH v Hcs). simpl.
    destruct (existsb _ cs); reflexivity.
  - destruct (offValue v c) as [off|] eqn:Eo.
    + rewrite (H c off (or_introl eq_refl) Eo), set_set, (IH v Hcs). simpl.
      destruct (existsb _ cs); reflexivity.
    + rewrite (IH x Hcs). reflexivity.
Qed.

(** Setting the controls of a part from the filter and reading them back,
    in [collapsiblesection.js], for controls that are not the options of a
    select.  The value [v] comes back when a control can give it, and every
    [data-filter-off] that the inputs standing for other values carry is
    [v]; the empty string comes back when no input stands for [v] and no
    input standing for another value carries [data-filter-off]. *)
Theorem controls_roundtrip
  (filter filter' : JsObject.t) (key v : string) (controls : list Control) :
  (forall c, In c controls -> tagName c <> "OPTION") ->
  JsObject.get filter key = Some v ->
  ((forall c off, In c controls -> offValue v c = Some off -> off = v) ->
   (exists c, In c controls
              /\ (standsFor v c = true \/ offValue v c = Some v)) ->
   JsObject.get
     (Filter.updateFilterPartFromControls filter' key
        (Filter.updateControlsFromFilterPart controls filter key)) key
   = Some v)
  /\ ((forall c, In c controls -> standsFor v c = false /\ offValue v c = None) ->
      JsObject.get
        (Filter.updateFilterPartFromControls filter' key
           (Filter.updateControlsFromFilterPart controls filter key)) key
      = Some "").
Proof.
  intros _ Hv. pose proof (get_Some_name filter key v Hv) as Hname.
  unfold Filter.updateFilterPartFromControls.
  rewrite (controlStep_synced key v filter _ controls Hv). split.
  - intros Hoff (c & Hc & Hf). rewrite (fold_fires key v controls _ _ Hoff).
    rewrite get_set by exact Hname. f_equal.
    replace (existsb _ controls) with true; [reflexivity|].
    symmetry. apply existsb_exists. exists c. split; [exact Hc|].
    destruct Hf as [-> | ->]; [reflexivity | apply orb_true_r].
  - intros Hnone. rewrite (fold_fires key v controls).
    + rewrite get_set by exact Hname. f_equal.
      replace (existsb _ controls) with false; [reflexivity|].
      symmetry. apply not_true_is_false. intros H.
      apply existsb_exists in H. destruct H as (c & Hc & H).
      destruct (Hnone c Hc) as [Hs Ho]. rewrite Hs, Ho in H. discriminate.
    + intros c off Hc Ho. destruct (Hnone c Hc) as [_ Hn].
      rewrite Hn in Ho. discriminate.
Qed.

Lemma controls_roundtrip_witness :
  JsObject.get
    (Filter.updateFilterPartFromControls [("norway", "true")] "norway"
       (Filter.updateControlsFromFilterPart
          [mkControl "INPUT" true false "true" (Some "false") None]
          [("norway", "false")] "norway"))
    "norway"
  = Some "false".
Proof.
  apply (controls_roundtrip [("norway", "false")] [("norway", "true")] "norway"
           "false" [mkControl "INPUT" true false "true" (Some "false") None]).
  - intros c [<-|[]]. discriminate.
  - reflexivity.
  - intros c off [<-|[]]. cbv. intros H. inversion H. reflexivity.
  - exists (mkControl "INPUT" true false "true" (Some "false") None).
    split; [left; reflexivity | right; reflexivity].
Defined.

Lemma controlStep_synced_jq (key v : string) (filter o : JsObject.t)
  (controls : list Control) :
  (forall c, In c controls -> domProperties c) ->
  JsObject.get filter key = Some v ->
  fold_left (FilterJq.controlStep key)
    (FilterJq.updateControlsFromFilterPart controls filter key) o
  = fold_left
      (fun o c => if String.eqb (data_filter c) v then JsObject.set o key v else o)
      controls o.
Proof.
  intros Hd Hv. revert o. unfold FilterJq.updateControlsFromFilterPart.
  induction controls as [|c cs IH]; intros o; [reflexivity|].
  cbn [map fold_left]. rewrite IH by (intros c' Hc'; apply Hd; right; exact Hc').
  f_equal. rewrite Hv. unfold FilterJq.controlStep, strictEq.
  rewrite (String.eqb_sym v).
  pose proof (Hd c (or_introl eq_refl)) as Hc. unfold domProperties in Hc.
  destruct c as [tag ch sel df off ac].
  cbn [tagName selected checked] in Hc.
  cbn [setSelected setChecked tagName selected checked data_filter
       data_filter_off].
  destruct (String.eqb tag "OPTION");
    cbn [setSelected setChecked tagName selected checked data_filter
         data_filter_off]; subst.
  - destruct (String.eqb df v) eqn:Edf; [apply String.eqb_eq in Edf; subst df|]; reflexivity.
  - rewrite orb_false_r. destruct (String.eqb df v) eqn:Edf; [apply String.eqb_eq in Edf; subst df|]; reflexivity.
Qed.

Lemma fold_fires_jq (key v : string) (controls : list Control)
  (o : JsObject.t) (x : string) :
  fold_left
    (fun o c => if String.eqb (data_filter c) v then JsObject.set o key v else o)
    controls (JsObject.set o key x)
  = JsObject.set o key
      (if existsb (fun c => String.eqb (data_filter c) v) controls
       then v else x).
Proof.
  revert x. induction controls as [|c cs IH]; intros x; [reflexivity|].
  cbn [fold_left existsb].
  destruct (String.eqb (data_filter c) v).
  - rewrite set_set, IH. simpl. destruct (existsb _ cs); reflexivity.
  - rewrite IH. reflexivity.
Qed.

(** Setting the controls of a part from the filter and reading them back,
    in [filter_jquery.js], for controls that are not the options of a
    select: the value comes back exactly when it is the empty string or the
    [data-filter] of one of the controls. *)
Theorem controls_roundtrip_jquery
  (filter filter' : JsObject.t) (key v : string) (controls : list Control) :
  (forall c, In c controls -> tagName c <> "OPTION") ->
  (forall c, In c controls -> domProperties c) ->
  JsObject.get filter key = Some v ->
  (JsObject.get
     (FilterJq.updateFilterPartFromControls filter' key
        (FilterJq.updateControlsFromFilterPart controls filter key)) key
   = Some v
   <-> v = "" \/ exists c, In c controls /\ data_filter c = v).
Proof.
  intros _ Hd Hv. pose proof (get_Some_name filter key v Hv) as Hname.
  unfold FilterJq.updateFilterPartFromControls.
  rewrite (controlStep_synced_jq key v filter _ controls Hd Hv).
  rewrite fold_fires_jq, get_set by exact Hname.
  destruct (existsb (fun c => String.eqb (data_filter c) v) controls) eqn:E.
  - split; [|reflexivity]. intros _. right.
    apply existsb_exists in E. destruct E as (c & Hc & E).
    exists c. split; [exact Hc | apply String.eqb_eq, E].
  - split.
    + intros H. left. inversion H. reflexivity.
    + intros [-> | (c & Hc & Hc')]; [reflexivity|].
      exfalso. apply not_true_iff_false in E. apply E.
      apply existsb_exists. exists c. split; [exact Hc|].
      apply String.eqb_eq, Hc'.
Qed.

Lemma controls_roundtrip_jquery_witness :
  JsObject.get
    (FilterJq.updateFilterPartFromControls [] "country"
       (FilterJq.updateControlsFromFilterPart
          [mkControl "INPUT" true false "Norway" None None;
           mkControl "INPUT" false false "Sweden" None None]
          [("country", "Sweden")] "country"))
    "country"
  = Some "Sweden".
Proof.
  apply (controls_roundtrip_jquery [("country", "Sweden")] [] "country" "Sweden"
           [mkControl "INPUT" true false "Norway" None None;
            mkControl "INPUT" false false "Sweden" None None]).
  - intros c [<-|[<-|[]]]; discriminate.
  - intros c [<-|[<-|[]]]; reflexivity.
  - reflexivity.
  - right. exists (mkControl "INPUT" false false "Sweden" None None).
    split; [right; left; reflexivity | reflexivity].
Defined.

End ControlsRoundTrip.

(** ** What the [popstate] listeners restore *)

Section PopState.
Import Str Pattern Page Spec.

Lemma update_valueFromUrl (hash : string) (f : JsObject.t) (part : FilterPart) :
  Filter.updateFilterPartFromUrl hash f (data_filter_name part)
    (Filter.defaultValueOf part)
  = JsObject.set f (data_filter_name part) (valueFromUrl hash part).
Proof.
  reflexivity.
Qed.

Lemma all_drop (f : ascii -> bool) (n : nat) (s : string) :
  all f s = true -> all f (drop n s) = true.
Proof.
  revert s. induction n as [|n IH]; intros s H; [exact H|].
  destruct s as [|c s]; [reflexivity|]. simpl in *.
  apply andb_true_iff in H. apply IH, H.
Qed.

Lemma segmentValue_empty (key : string) : segmentValue key "" = None.
Proof.
  unfold segmentValue.
  replace (startsWith (key ++ "=") "") with false; [reflexivity|].
  destruct key; reflexivity.
Qed.

(** For a plain key and a fragment without line break, the value
    [updateFilterPartFromUrl] reads is the one of the first segment that
    gives the key a value. *)
Lemma valueFromUrl_urlValue (hash : string) (part : FilterPart) :
  plainKey (data_filter_name part) = true ->
  all notLineTerminator hash = true ->
  valueFromUrl hash part
  = urlValue (data_filter_name part) hash (Filter.defaultValueOf part).
Proof.
  intros Hk Hh. unfold valueFromUrl.
  assert (forall rest,
             matchFilterValue (data_filter_name part) rest
             = firstValue (data_filter_name part) (split ";" rest)) as E.
  { intros rest. apply matchFilterValue_segments, Hk. }
  unfold urlValue, matchAnchored, bangHere, segments.
  destruct (startsWith "#!" hash); [|reflexivity].
  rewrite (takeWhile_all _ _ (all_drop _ 2 _ Hh)).
  destruct (drop 2 hash) as [|c r] eqn:Ed.
  - cbn [isEmpty split firstValue]. rewrite segmentValue_empty. reflexivity.
  - cbn [isEmpty]. rewrite E. reflexivity.
Qed.

Lemma sync_shows (controls : list Control) (filter : JsObject.t)
  (key v : string) :
  JsObject.get filter key = Some v ->
  controlsShow v (Filter.updateControlsFromFilterPart controls filter key).
Proof.
  intros Hv c' Hc'. unfold Filter.updateControlsFromFilterPart in Hc'.
  apply in_map_iff in Hc'. destruct Hc' as (c & <- & _).
  rewrite Hv. unfold strictEq, isOn. rewrite (String.eqb_sym v).
  destruct c as [tag ch sel df off ac]. cbn [tagName data_filter].
  destruct (String.eqb tag "OPTION") eqn:E;
    cbn [setSelected setChecked tagName selected checked data_filter];
    rewrite E; reflexivity.
Qed.

Lemma nth_error_replaceNth_same {A : Type} (i : nat) (x y : A) (l : list A) :
  nth_error l i = Some y -> nth_error (Filter.replaceNth i x l) i = Some x.
Proof.
  revert i. induction l as [|a l IH]; intros [|i] H; simpl in *;
    try discriminate; [reflexivity|]. apply IH, H.
Qed.

Lemma nth_error_replaceNth_other {A : Type} (i k : nat) (x : A) (l : list A) :
  k <> i -> nth_error (Filter.replaceNth i x l) k = nth_error l k.
Proof.
  revert i k. induction l as [|a l IH]; intros [|i] [|k] H; simpl;
    try reflexivity; [contradiction|]. apply IH. lia.
Qed.

Lemma length_replaceNth {A : Type} (i : nat) (x : A) (l : list A) :
  List.length (Filter.replaceNth i x l) = List.length l.
Proof.
  revert i. induction l as [|a l IH]; intros [|i]; simpl; try reflexivity.
  rewrite IH. reflexivity.
Qed.

Lemma map_replaceNth {A B : Type} (f : A -> B) (i : nat) (x y : A) (l : list A) :
  nth_error l i = Some y -> f x = f y ->
  map f (Filter.replaceNth i x l) = map f l.
Proof.
  revert i. induction l as [|a l IH]; intros [|i] H E; simpl in *;
    try discriminate.
  - inversion H; subst. rewrite E. reflexivity.
  - rewrite (IH i H E). reflexivity.
Qed.

Lemma names_differ (parts : list FilterPart) (i k : nat) (p q : FilterPart) :
  NoDup (map data_filter_name parts) ->
  nth_error parts i = Some p -> nth_error parts k = Some q -> k <> i ->
  data_filter_name q <> data_filter_name p.
Proof.
  intros Hn Hi Hk Hne E. apply Hne.
  rewrite NoDup_nth_error in Hn. symmetry. apply Hn.
  - rewrite length_map. apply nth_error_Some. rewrite Hi. discriminate.
  - rewrite !nth_error_map, Hi, Hk. simpl. rewrite E. reflexivity.
Qed.

(** The state the [popstate] listener of the part at index [i] leaves. *)
Lemma onPopState_state (j : Filter.JoinType) (i : nat) (st : Filter.State)
  (part : FilterPart) :
  nth_error (Filter.filterParts st) i = Some part ->
  let st' := stateOf (Filter.onPopState j i st) in
  Filter.currentFilter st'
  = JsObject.set (Filter.currentFilter st) (data_filter_name part)
      (valueFromUrl (Filter.location_hash st) part)
  /\ Filter.filterParts st'
     = Filter.replaceNth i
         (setControls
            (Filter.updateControlsFromFilterPart (filterControls part)
               (Filter.currentFilter st') (data_filter_name part)) part)
         (Filter.filterParts st)
  /\ Filter.location_hash st' = Filter.location_hash st
  /\ Filter.containerHidden st' = Filter.containerHidden st
  /\ Filter.list_ st'
     = option_map (map (Filter.updateNode j (Filter.currentFilter st')))
         (Filter.list_ st).
Proof.
  intros Hi. unfold Filter.onPopState. rewrite Hi.
  rewrite update_valueFromUrl.
  destruct (Filter.list_ st) as [children|]; simpl; repeat split.
Qed.

Lemma sync_attributes (controls : list Control) (filter : JsObject.t)
  (key : string) :
  map attributesOf (Filter.updateControlsFromFilterPart controls filter key)
  = map attributesOf controls.
Proof.
  unfold Filter.updateControlsFromFilterPart. rewrite map_map.
  apply map_ext. intros c.
  destruct (String.eqb (tagName c) "OPTION"); reflexivity.
Qed.

Lemma sync_partAttributes (part : FilterPart) (filter : JsObject.t)
  (key : string) :
  partAttributes
    (setControls
       (Filter.updateControlsFromFilterPart (filterControls part) filter key)
       part)
  = partAttributes part.
Proof.
  unfold partAttributes. cbn [setControls data_filter_name data_filter_default
                              filterControls].
  rewrite sync_attributes. reflexivity.
Qed.

Lemma partAttributes_name (p q : FilterPart) :
  partAttributes p = partAttributes q ->
  data_filter_name p = data_filter_name q
  /\ Filter.defaultValueOf p = Filter.defaultValueOf q.
Proof.
  unfold partAttributes, Filter.defaultValueOf. intros H.
  inversion H as [[Hn Hd Hc]]. rewrite Hd. split; reflexivity.
Qed.

Lemma valueFromUrl_same (hash : string) (p q : FilterPart) :
  partAttributes p = partAttributes q -> valueFromUrl hash p = valueFromUrl hash q.
Proof.
  intros H. destruct (partAttributes_name p q H) as [Hn Hd].
  unfold valueFromUrl. rewrite Hn, Hd. reflexivity.
Qed.

Lemma map_name_partAttributes (l l' : list FilterPart) :
  map partAttributes l' = map partAttributes l ->
  map data_filter_name l' = map data_filter_name l.
Proof.
  intros H.
  assert (E : forall x, map data_filter_name x
                        = map (fun a => fst (fst a)) (map partAttributes x)).
  { intros x. rewrite map_map. reflexivity. }
  rewrite !E, H. reflexivity.
Qed.

Lemma popStateListeners_restores (j : Filter.JoinType) (n : nat) :
  forall (i : nat) (st : Filter.State),
    NoDup (map data_filter_name (Filter.filterParts st)) ->
    i + n <= List.length (Filter.filterParts st) ->
    let st' := Filter.popStateListeners j n i st in
    Filter.location_hash st' = Filter.location_hash st
    /\ map partAttributes (Filter.filterParts st')
       = map partAttributes (Filter.filterParts st)
    /\ (forall k, k < i ->
          nth_error (Filter.filterParts st') k
          = nth_error (Filter.filterParts st) k
          /\ forall part,
               nth_error (Filter.filterParts st) k = Some part ->
               JsObject.get (Filter.currentFilter st') (data_filter_name part)
               = JsObject.get (Filter.currentFilter st) (data_filter_name part))
    /\ (forall k part',
          i <= k < i + n ->
          nth_error (Filter.filterParts st') k = Some part' ->
          data_filter_name part' <> "__proto__" ->
          restoredFrom (Filter.location_hash st) (Filter.currentFilter st') part').
Proof.
  induction n as [|n IH]; intros i st Hn Hlen.
  - simpl. repeat split; intros; lia.
  - cbn [Filter.popStateListeners].
    destruct (nth_error (Filter.filterParts st) i) as [part|] eqn:Hi;
      [|apply nth_error_None in Hi; lia].
    destruct (onPopState_state j i st part Hi) as (Hf & Hp & Hh & _ & _).
    set (st1 := stateOf (Filter.onPopState j i st)) in *.
    set (part1 := setControls
                    (Filter.updateControlsFromFilterPart (filterControls part)
                       (Filter.currentFilter st1) (data_filter_name part)) part)
      in *.
    assert (Hkeys : map partAttributes (Filter.filterParts st1)
                    = map partAttributes (Filter.filterParts st)).
    { rewrite Hp. apply (map_replaceNth _ _ _ part);
        [exact Hi | apply sync_partAttributes]. }
    assert (Hnames : map data_filter_name (Filter.filterParts st1)
                     = map data_filter_name (Filter.filterParts st)).
    { apply map_name_partAttributes, Hkeys. }
    assert (Hn1 : NoDup (map data_filter_name (Filter.filterParts st1))).
    { rewrite Hnames. exact Hn. }
    assert (Hlen1 : S i + n <= List.length (Filter.filterParts st1)).
    { rewrite Hp, length_replaceNth. lia. }
    destruct (IH (S i) st1 Hn1 Hlen1) as (IHh & IHk & IHlt & IHge).
    split; [rewrite IHh; exact Hh|].
    split; [rewrite IHk; exact Hkeys|].
    split.
    + intros k Hk. destruct (IHlt k ltac:(lia)) as [Hnth Hget].
      assert (Hnth1 : nth_error (Filter.filterParts st1) k
                      = nth_error (Filter.filterParts st) k).
      { rewrite Hp. apply nth_error_replaceNth_other. lia. }
      split; [rewrite Hnth; exact Hnth1|].
      intros q Hq. rewrite (Hget q) by (rewrite Hnth1; exact Hq).
      rewrite Hf. apply get_set_other.
      apply (names_differ (Filter.filterParts st) i k part q Hn Hi Hq). lia.
    + intros k part' Hk Hk' Hname.
      destruct (Nat.eq_dec k i) as [->|Hne].
      * destruct (IHlt i ltac:(lia)) as [Hnth Hget].
        assert (Hnth1 : nth_error (Filter.filterParts st1) i = Some part1).
        { rewrite Hp. apply (nth_error_replaceNth_same _ _ part). exact Hi. }
        rewrite Hnth, Hnth1 in Hk'. inversion Hk'; subst part'.
        assert (Hv : JsObject.get (Filter.currentFilter st1)
                       (data_filter_name part)
                     = Some (valueFromUrl (Filter.location_hash st) part)).
        { rewrite Hf. apply get_set. exact Hname. }
        unfold restoredFrom.
        rewrite (valueFromUrl_same _ part1 part)
          by apply sync_partAttributes.
        split.
        -- rewrite (Hget part1 Hnth1). exact Hv.
        -- apply sync_shows. exact Hv.
      * rewrite <- Hh. apply (IHge k part'); [lia | exact Hk' | exact Hname].
Qed.

End PopState.

(** ** Events on a filter container *)

Section Events.
Import Str Pattern Page Spec.

Lemma withProperties_attributes (properties : list (bool * bool))
  (controls : list Control) :
  map attributesOf (Filter.withProperties properties controls)
  = map attributesOf controls.
Proof.
  revert properties. induction controls as [|c cs IH]; intros [|[a b] ps];
    try reflexivity.
  cbn [Filter.withProperties map]. rewrite IH. reflexivity.
Qed.

Lemma withControls_state (i : nat) (properties : list (bool * bool))
  (st : Filter.State) :
  let st' := Filter.withControls i properties st in
  Filter.currentFilter st' = Filter.currentFilter st
  /\ Filter.list_ st' = Filter.list_ st
  /\ Filter.location_hash st' = Filter.location_hash st
  /\ Filter.containerHidden st' = Filter.containerHidden st
  /\ map partAttributes (Filter.filterParts st')
     = map partAttributes (Filter.filterParts st)
  /\ (nth_error (Filter.filterParts st) i = None -> st' = st).
Proof.
  unfold Filter.withControls.
  destruct (nth_error (Filter.filterParts st) i) as [part|] eqn:Hi;
    cbn zeta; [|repeat split; reflexivity].
  cbn [Filter.currentFilter Filter.list_ Filter.location_hash
       Filter.containerHidden Filter.filterParts].
  repeat (split; [reflexivity|]). split; [|discriminate].
  apply (map_replaceNth _ _ _ part); [exact Hi|].
  unfold partAttributes.
  cbn [setControls data_filter_name data_filter_default filterControls].
  rewrite withProperties_attributes. reflexivity.
Qed.

(** The state the [change] listener of the part at index [i] leaves. *)
Lemma onChange_state (pushState : bool) (j : Filter.JoinType) (i : nat)
  (st : Filter.State) (part : FilterPart) :
  nth_error (Filter.filterParts st) i = Some part ->
  let st' := stateOf (Filter.onChange pushState j i st) in
  Filter.currentFilter st'
  = Filter.updateFilterPartFromControls (Filter.currentFilter st)
      (data_filter_name part) (filterControls part)
  /\ Filter.filterParts st' = Filter.filterParts st
  /\ Filter.location_hash st'
     = Filter.updateUrlFromFilterPart pushState (Filter.location_hash st)
         (Filter.currentFilter st') (data_filter_name part)
  /\ Filter.containerHidden st' = Filter.containerHidden st
  /\ Filter.list_ st'
     = option_map (map (Filter.updateNode j (Filter.currentFilter st')))
         (Filter.list_ st).
Proof.
  intros Hi. unfold Filter.onChange. rewrite Hi.
  destruct (Filter.list_ st) as [children|]; simpl; repeat split.
Qed.

Lemma onChange_idle (pushState : bool) (j : Filter.JoinType) (i : nat)
  (st : Filter.State) :
  nth_error (Filter.filterParts st) i = None ->
  Filter.onChange pushState j i st = Normal st.
Proof. intros Hi. unfold Filter.onChange. rewrite Hi. reflexivity. Qed.

Lemma onPopState_idle (j : Filter.JoinType) (i : nat) (st : Filter.State) :
  nth_error (Filter.filterParts st) i = None ->
  Filter.onPopState j i st = Normal st.
Proof. intros Hi. unfold Filter.onPopState. rewrite Hi. reflexivity. Qed.

Lemma onPopState_partAttributes (j : Filter.JoinType) (i : nat)
  (st : Filter.State) :
  map partAttributes (Filter.filterParts (stateOf (Filter.onPopState j i st)))
  = map partAttributes (Filter.filterParts st).
Proof.
  destruct (nth_error (Filter.filterParts st) i) as [part|] eqn:Hi.
  - destruct (onPopState_state j i st part Hi) as (_ & Hp & _).
    rewrite Hp. apply (map_replaceNth _ _ _ part);
      [exact Hi | apply sync_partAttributes].
  - rewrite (onPopState_idle j i st Hi). reflexivity.
Qed.

Lemma popStateListeners_partAttributes (j : Filter.JoinType) (n : nat) :
  forall (i : nat) (st : Filter.State),
    map partAttributes (Filter.filterParts (Filter.popStateListeners j n i st))
    = map partAttributes (Filter.filterParts st).
Proof.
  induction n as [|n IH]; intros i st; [reflexivity|].
  cbn [Filter.popStateListeners]. rewrite IH.
  apply onPopState_partAttributes.
Qed.

Lemma step_partAttributes (pushState : bool) (j : Filter.JoinType)
  (st : Filter.State) (ev : Filter.Event) :
  map partAttributes (Filter.filterParts (Filter.step pushState j st ev))
  = map partAttributes (Filter.filterParts st).
Proof.
  destruct ev as [i properties | hash]; cbn [Filter.step].
  - destruct (withControls_state i properties st) as (_ & _ & _ & _ & Hp & Hidle).
    destruct (nth_error (Filter.filterParts (Filter.withControls i properties st)) i)
      as [part|] eqn:Hi.
    + destruct (onChange_state pushState j i _ part Hi) as (_ & Hp' & _).
      rewrite Hp'. exact Hp.
    + rewrite (onChange_idle pushState j i _ Hi). exact Hp.
  - rewrite popStateListeners_partAttributes. reflexivity.
Qed.

Lemma run_partAttributes (pushState : bool) (j : Filter.JoinType)
  (evs : list Filter.Event) :
  forall st,
    map partAttributes (Filter.filterParts (Filter.run pushState j st evs))
    = map partAttributes (Filter.filterParts st).
Proof.
  unfold Filter.run. induction evs as [|ev evs IH]; intros st; [reflexivity|].
  cbn [fold_left]. rewrite IH. apply step_partAttributes.
Qed.

Lemma nth_error_same_attributes (l l' : list FilterPart) (i : nat)
  (part : FilterPart) :
  map partAttributes l' = map partAttributes l ->
  nth_error l i = Some part ->
  exists part', nth_error l' i = Some part'
                /\ partAttributes part' = partAttributes part.
Proof.
  intros H Hi.
  assert (E : nth_error (map partAttributes l') i
              = nth_error (map partAttributes l) i) by (rewrite H; reflexivity).
  rewrite !nth_error_map, Hi in E.
  destruct (nth_error l' i) as [part'|]; [|discriminate].
  exists part'. split; [reflexivity|]. simpl in E. congruence.
Qed.

(** What a [popstate] event does to a filter part whose key is a plain
    name other than [__proto__], whatever went before: the filter maps the
    key of the part to the value of the first segment of the new fragment
    that gives one, or to the default of the part, and the controls of the
    part, otherwise unchanged, show that value. *)
Theorem popstate_restores
  (pushState : bool) (j : Filter.JoinType) (st : Filter.State) (hash : string)
  (i : nat) (part : FilterPart) :
  NoDup (map data_filter_name (Filter.filterParts st)) ->
  all notLineTerminator hash = true ->
  nth_error (Filter.filterParts st) i = Some part ->
  plainKey (data_filter_name part) = true ->
  data_filter_name part <> "__proto__" ->
  exists part',
    nth_error
      (Filter.filterParts (Filter.step pushState j st (Filter.PopState hash))) i
    = Some part'
    /\ partAttributes part' = partAttributes part
    /\ JsObject.get
         (Filter.currentFilter (Filter.step pushState j st (Filter.PopState hash)))
         (data_filter_name part)
       = Some (urlValue (data_filter_name part) hash (Filter.defaultValueOf part))
    /\ controlsShow
         (urlValue (data_filter_name part) hash (Filter.defaultValueOf part))
         (filterControls part').
Proof.
  intros Hn Hh Hi Hk Hproto. cbn [Filter.step].
  destruct (popStateListeners_restores j
              (List.length (Filter.filterParts st)) 0 (Filter.withHash hash st)
              Hn (le_n _)) as (_ & Hp & _ & Hr).
  cbn zeta in Hp, Hr.
  destruct (nth_error_same_attributes _ _ i part Hp Hi) as (part' & Hi' & Ha).
  exists part'. split; [exact Hi'|]. split; [exact Ha|].
  assert (Hlt : i < List.length (Filter.filterParts st)).
  { apply nth_error_Some. rewrite Hi. discriminate. }
  destruct (partAttributes_name _ _ Ha) as [Hname Hdef].
  destruct (Hr i part' ltac:(cbn [Filter.withHash Filter.filterParts]; lia) Hi')
    as [Hget Hshow].
  { rewrite Hname. exact Hproto. }
  cbn [Filter.withHash Filter.location_hash] in Hget, Hshow.
  rewrite (valueFromUrl_same hash part' part Ha) in Hget, Hshow.
  rewrite (valueFromUrl_urlValue hash part Hk Hh) in Hget, Hshow.
  rewrite Hname in Hget. split; assumption.
Qed.

Lemma popstate_restores_witness :
  exists part',
    nth_error
      (Filter.filterParts
         (Filter.step true Filter.JoinAnd (Scenario.start None)
            (Filter.PopState "#!tag=eco;country=Sweden"))) 0
    = Some part'
    /\ JsObject.get
         (Filter.currentFilter
            (Filter.step true Filter.JoinAnd (Scenario.start None)
               (Filter.PopState "#!tag=eco;country=Sweden")))
         "country"
       = Some "Sweden"
    /\ map checked (filterControls part') = [false; true].
Proof.
  destruct (popstate_restores true Filter.JoinAnd (Scenario.start None)
              "#!tag=eco;country=Sweden" 0
              (mkFilterPart "country" None
                 [mkControl "INPUT" false false "Norway" None (Some "list1");
                  mkControl "INPUT" false false "Sweden" None (Some "list1")]))
    as (part' & Hi & Ha & Hget & Hshow).
  - repeat constructor; simpl; intuition discriminate.
  - reflexivity.
  - reflexivity.
  - reflexivity.
  - discriminate.
  - exists part'. split; [exact Hi|]. split; [exact Hget|].
    vm_compute in Hi. inversion Hi. reflexivity.
Defined.

(** The [change] listener writes a fragment from which [popstate] restores
    the value: when a change on a filter part gave its key a value that
    the fragment carries as it is, then after any further events, going
    back to the history entry of that change gives the key that value
    again, and the controls of the part show it. *)
Theorem popstate_after_change
  (j : Filter.JoinType) (st : Filter.State) (i : nat)
  (properties : list (bool * bool)) (part : FilterPart) (value : string)
  (events : list Filter.Event) :
  let st1 := Filter.step true j st (Filter.Change i properties) in
  let st2 := Filter.run true j st1 events in
  let st3 := Filter.step true j st2 (Filter.PopState (Filter.location_hash st1)) in
  NoDup (map data_filter_name (Filter.filterParts st)) ->
  nth_error (Filter.filterParts st) i = Some part ->
  plainKey (data_filter_name part) = true ->
  all fragmentSafe (data_filter_name part) = true ->
  JsObject.get (Filter.currentFilter st1) (data_filter_name part) = Some value ->
  value <> "" -> plainValue value = true ->
  firstOccurrenceStartsSegment (data_filter_name part)
    (Filter.startFragment (Filter.location_hash st)) = true ->
  JsObject.get (Filter.currentFilter st3) (data_filter_name part) = Some value
  /\ exists part3,
       nth_error (Filter.filterParts st3) i = Some part3
       /\ partAttributes part3 = partAttributes part
       /\ controlsShow value (filterControls part3).
Proof.
  intros st1 st2 st3 Hn Hi Hk Hs Hv Hne Hpv Hfirst.
  (* the state after the change *)
  destruct (withControls_state i properties st) as (Hwf & _ & Hwh & _ & Hwp & _).
  destruct (nth_error_same_attributes _ _ i part Hwp Hi) as (partw & Hiw & Haw).
  destruct (onChange_state true j i _ partw Hiw) as (_ & Hp1 & Hh1 & _ & _).
  fold (Filter.step true j st (Filter.Change i properties)) in Hp1, Hh1.
  fold st1 in Hp1, Hh1.
  destruct (partAttributes_name _ _ Haw) as [Hnamew _].
  rewrite Hwh, Hnamew in Hh1. cbn [Filter.updateUrlFromFilterPart] in Hh1.
  (* the parts after the further events *)
  assert (Hp2 : map partAttributes (Filter.filterParts st2)
                = map partAttributes (Filter.filterParts st)).
  { unfold st2. rewrite run_partAttributes. unfold st1.
    apply step_partAttributes. }
  assert (Hn2 : NoDup (map data_filter_name (Filter.filterParts st2))).
  { rewrite (map_name_partAttributes _ _ Hp2). exact Hn. }
  destruct (nth_error_same_attributes _ _ i part Hp2 Hi) as (part2 & Hi2 & Ha2).
  (* the popstate listeners *)
  destruct (popStateListeners_restores j
              (List.length (Filter.filterParts st2)) 0
              (Filter.withHash (Filter.location_hash st1) st2) Hn2 (le_n _))
    as (_ & Hp3 & _ & Hr).
  cbn zeta in Hp3, Hr.
  change (Filter.popStateListeners j (List.length (Filter.filterParts st2)) 0
            (Filter.withHash (Filter.location_hash st1) st2)) with st3 in Hp3, Hr.
  cbn [Filter.withHash Filter.filterParts Filter.location_hash] in Hp3, Hr.
  destruct (nth_error_same_attributes _ _ i part2 Hp3 Hi2) as (part3 & Hi3 & Ha3).
  assert (Hlt : i < List.length (Filter.filterParts st2)).
  { apply nth_error_Some. rewrite Hi2. discriminate. }
  assert (Ha : partAttributes part3 = partAttributes part).
  { rewrite Ha3. exact Ha2. }
  destruct (partAttributes_name _ _ Ha) as [Hname Hdef].
  pose proof (get_Some_name _ _ _ Hv) as Hproto.
  destruct (Hr i part3 ltac:(lia) Hi3) as [Hget Hshow].
  { rewrite Hname. exact Hproto. }
  (* the value the fragment of the change gives *)
  assert (Hval : valueFromUrl (Filter.location_hash st1) part3 = value).
  { rewrite (valueFromUrl_same _ part3 part Ha).
    pose proof (update_valueFromUrl (Filter.location_hash st1) JsObject.empty
                  part) as Hu.
    rewrite Hh1 in Hu at 1.
    rewrite (newFragmentFor_decodes _ _ value _ _ _ Hk Hs Hv Hne Hpv Hfirst)
      in Hu.
    assert (E : JsObject.get (JsObject.set JsObject.empty
                                (data_filter_name part) value)
                  (data_filter_name part)
                = JsObject.get (JsObject.set JsObject.empty
                                  (data_filter_name part)
                                  (valueFromUrl (Filter.location_hash st1) part))
                    (data_filter_name part)) by (rewrite Hu; reflexivity).
    rewrite !get_set in E by exact Hproto. inversion E. reflexivity. }
  rewrite Hval, Hname in Hget. rewrite Hval in Hshow.
  split; [exact Hget|]. exists part3. repeat split; assumption.
Qed.

Lemma popstate_after_change_witness :
  JsObject.get
    (Filter.currentFilter
       (Filter.step true Filter.JoinAnd
          (Filter.run true Filter.JoinAnd
             (Filter.step true Filter.JoinAnd (Scenario.start None)
                (Filter.Change 0 [(true, false); (false, false)]))
             [Filter.Change 0 [(false, false); (true, false)];
              Filter.Change 1 [(true, false)]])
          (Filter.PopState "#!country=Norway")))
    "country"
  = Some "Norway".
Proof.
  apply (popstate_after_change Filter.JoinAnd (Scenario.start None) 0
           [(true, false); (false, false)]
           (mkFilterPart "country" None
              [mkControl "INPUT" false false "Norway" None (Some "list1");
               mkControl "INPUT" false false "Sweden" None (Some "list1")])
           "Norway"
           [Filter.Change 0 [(false, false); (true, false)];
            Filter.Change 1 [(true, false)]]).
  - repeat constructor; simpl; intuition discriminate.
  - reflexivity.
  - reflexivity.
  - reflexivity.
  - reflexivity.
  - discriminate.
  - reflexivity.
  - reflexivity.
Defined.

End Events.

(** ** The states a filter container goes through *)

Section Reachable.
Import Str Pattern Page Spec.

Lemma matches_ext (j : Filter.JoinType) (filter : JsObject.t)
  (a b : Element) :
  (forall key, itemValue key a = itemValue key b) ->
  (matches j filter a <-> matches j filter b).
Proof.
  intros H. destruct j; unfold matches, allKeysMatch, someKeyMatchesOrIsWildcard.
  - split; intros Hm key wanted Hin Hw; [rewrite <- H | rewrite H];
      apply Hm; assumption.
  - split; intros (key & wanted & Hin & Hm); exists key, wanted;
      (split; [exact Hin|]); [rewrite <- H | rewrite H]; exact Hm.
Qed.

Lemma updateItem_shown (j : Filter.JoinType) (filter : JsObject.t)
  (item : Element) :
  shown (Filter.updateItem j filter item)
  <-> matches j filter (Filter.updateItem j filter item).
Proof.
  rewrite (matches_ext j filter _ item)
    by (intros key; apply itemValue_updateItem).
  destruct j; [apply updateItem_and_shown | apply updateItem_or_shown].
Qed.

(** Right after the filter was applied, the items shown are those that
    match it. *)
Lemma applied_listShowsMatches (j : Filter.JoinType) (st : Filter.State)
  (lst : option (list Node)) :
  Filter.list_ st
  = option_map (map (Filter.updateNode j (Filter.currentFilter st))) lst ->
  listShowsMatches j st.
Proof.
  intros Hl children k item Hc Hk. rewrite Hl in Hc.
  destruct lst as [children0|]; [|discriminate]. inversion Hc; subst children.
  rewrite nth_error_map in Hk.
  destruct (nth_error children0 k) as [[item0|data]|]; try discriminate.
  inversion Hk; subst item. apply updateItem_shown.
Qed.

Lemma setupFilter_state (hash : string) (container : FilterContainer) :
  let st := stateOf (Filter.setupFilter hash container) in
  Filter.currentFilter st
  = fst (Filter.setupFilterParts hash (data_filter_target container)
           (Filter.filterPartsOf container) JsObject.empty)
  /\ Filter.filterParts st
     = snd (Filter.setupFilterParts hash (data_filter_target container)
              (Filter.filterPartsOf container) JsObject.empty)
  /\ Filter.list_ st
     = option_map (map (Filter.updateNode (Filter.joinTypeOf container)
                          (Filter.currentFilter st)))
         (target container)
  /\ Filter.location_hash st = hash
  /\ (throws (Filter.setupFilter hash container) = true
      <-> target container = None).
Proof.
  unfold Filter.setupFilter.
  destruct (Filter.setupFilterParts hash (data_filter_target container)
              (Filter.filterPartsOf container) JsObject.empty) as [f ps].
  destruct (target container) as [children|]; simpl; repeat split;
    try discriminate; reflexivity.
Qed.

Lemma onChange_listShowsMatches (pushState : bool) (j : Filter.JoinType)
  (i : nat) (st : Filter.State) :
  listShowsMatches j st ->
  listShowsMatches j (stateOf (Filter.onChange pushState j i st)).
Proof.
  intros H. destruct (nth_error (Filter.filterParts st) i) as [part|] eqn:Hi.
  - destruct (onChange_state pushState j i st part Hi) as (_ & _ & _ & _ & Hl).
    apply (applied_listShowsMatches j _ _ Hl).
  - rewrite (onChange_idle pushState j i st Hi). exact H.
Qed.

Lemma onPopState_listShowsMatches (j : Filter.JoinType) (i : nat)
  (st : Filter.State) :
  listShowsMatches j st ->
  listShowsMatches j (stateOf (Filter.onPopState j i st)).
Proof.
  intros H. destruct (nth_error (Filter.filterParts st) i) as [part|] eqn:Hi.
  - destruct (onPopState_state j i st part Hi) as (_ & _ & _ & _ & Hl).
    apply (applied_listShowsMatches j _ _ Hl).
  - rewrite (onPopState_idle j i st Hi). exact H.
Qed.

Lemma step_listShowsMatches (pushState : bool) (j : Filter.JoinType)
  (st : Filter.State) (ev : Filter.Event) :
  listShowsMatches j st -> listShowsMatches j (Filter.step pushState j st ev).
Proof.
  intros H. destruct ev as [i properties | hash]; cbn [Filter.step].
  - apply onChange_listShowsMatches.
    destruct (withControls_state i properties st) as (Hf & Hl & _).
    intros children k item Hc Hk. rewrite Hf. rewrite Hl in Hc.
    apply (H children k item Hc Hk).
  - assert (H0 : listShowsMatches j (Filter.withHash hash st)) by exact H.
    revert H0. generalize (Filter.withHash hash st).
    generalize 0. induction (List.length (Filter.filterParts st)) as [|n IH];
      intros i s Hs; [exact Hs|].
    cbn [Filter.popStateListeners]. apply IH.
    apply onPopState_listShowsMatches, Hs.
Qed.

Lemma run_listShowsMatches (pushState : bool) (j : Filter.JoinType)
  (evs : list Filter.Event) :
  forall st, listShowsMatches j st ->
             listShowsMatches j (Filter.run pushState j st evs).
Proof.
  unfold Filter.run. induction evs as [|ev evs IH]; intros st H; [exact H|].
  cbn [fold_left]. apply IH, step_listShowsMatches, H.
Qed.

(** For a container whose filter parts have plain keys: once [setupFilter]
    has run, and after any sequence of [change] and [popstate] events, the
    items of the list that are shown are those that match the current
    filter: every key's wanted value is ["*"] or the item's attribute with
    join type ['and'], some key's with ['or']. *)
Theorem list_shows_matching_items
  (pushState : bool) (hash : string) (container : FilterContainer)
  (events : list Filter.Event) (children : list Node) (k : nat)
  (item : Element) :
  let joinType := Filter.joinTypeOf container in
  let st := Filter.run pushState joinType
              (stateOf (Filter.setupFilter hash container)) events in
  plainNames (Filter.filterPartsOf container) ->
  Filter.list_ st = Some children ->
  nth_error children k = Some (ElementNode item) ->
  (shown item <-> matches joinType (Filter.currentFilter st) item).
Proof.
  intros joinType st _. revert children k item.
  change (listShowsMatches joinType st). apply run_listShowsMatches.
  destruct (setupFilter_state hash container) as (_ & _ & Hl & _).
  apply (applied_listShowsMatches _ _ _ Hl).
Qed.

Lemma list_shows_matching_items_witness :
  shown Scenario.norway
  <-> matches Filter.JoinAnd [("country", "Norway"); ("tag", "eco")]
        Scenario.norway.
Proof.
  apply (list_shows_matching_items true "" (Scenario.container None)
           [Filter.Change 0 [(true, false); (false, false)];
            Filter.Change 1 [(true, false)]]
           [ElementNode Scenario.norway; OtherNode " ";
            ElementNode (Scenario.hide Scenario.sweden)] 0 Scenario.norway);
    try reflexivity.
  intros part [<-|[<-|[]]]; reflexivity.
Defined.

Lemma list_None_iff (lst lst' : option (list Node)) (j : Filter.JoinType)
  (f : JsObject.t) :
  lst' = option_map (map (Filter.updateNode j f)) lst ->
  (lst' = None <-> lst = None).
Proof. intros ->. destruct lst; simpl; split; congruence. Qed.

Lemma step_list_None (pushState : bool) (j : Filter.JoinType)
  (st : Filter.State) (ev : Filter.Event) :
  Filter.list_ (Filter.step pushState j st ev) = None
  <-> Filter.list_ st = None.
Proof.
  destruct ev as [i properties | hash]; cbn [Filter.step].
  - destruct (withControls_state i properties st) as (_ & Hl & _).
    rewrite <- Hl.
    destruct (nth_error (Filter.filterParts (Filter.withControls i properties st)) i)
      as [part|] eqn:Hi.
    + destruct (onChange_state pushState j i _ part Hi) as (_ & _ & _ & _ & Hl').
      apply (list_None_iff _ _ _ _ Hl').
    + rewrite (onChange_idle pushState j i _ Hi). reflexivity.
  - change (Filter.list_ st) with (Filter.list_ (Filter.withHash hash st)).
    generalize (Filter.withHash hash st). generalize 0.
    induction (List.length (Filter.filterParts st)) as [|n IH]; intros i s;
      [reflexivity|].
    cbn [Filter.popStateListeners]. rewrite IH.
    destruct (nth_error (Filter.filterParts s) i) as [part|] eqn:Hi.
    + destruct (onPopState_state j i s part Hi) as (_ & _ & _ & _ & Hl').
      apply (list_None_iff _ _ _ _ Hl').
    + rewrite (onPopState_idle j i s Hi). reflexivity.
Qed.

Lemma run_list_None (pushState : bool) (j : Filter.JoinType)
  (evs : list Filter.Event) :
  forall st, Filter.list_ (Filter.run pushState j st evs) = None
             <-> Filter.list_ st = None.
Proof.
  unfold Filter.run. induction evs as [|ev evs IH]; intros st; [reflexivity|].
  cbn [fold_left]. rewrite IH. apply step_list_None.
Qed.

Lemma onChange_throws (pushState : bool) (j : Filter.JoinType) (i : nat)
  (st : Filter.State) (part : FilterPart) :
  nth_error (Filter.filterParts st) i = Some part ->
  (throws (Filter.onChange pushState j i st) = true <-> Filter.list_ st = None).
Proof.
  intros Hi. unfold Filter.onChange. rewrite Hi.
  destruct (Filter.list_ st); simpl; split; congruence.
Qed.

Lemma onPopState_throws (j : Filter.JoinType) (i : nat)
  (st : Filter.State) (part : FilterPart) :
  nth_error (Filter.filterParts st) i = Some part ->
  (throws (Filter.onPopState j i st) = true <-> Filter.list_ st = None).
Proof.
  intros Hi. unfold Filter.onPopState. rewrite Hi.
  destruct (Filter.list_ st); simpl; split; congruence.
Qed.

(** For a container whose filter parts have plain keys, the filter script
    throws exactly when the list is missing: [setupFilter] throws if and
    only if no element has the id given by [data-filter-target], and so
    does, after any sequence of events, every [change] and [popstate]
    listener of the container. *)
Theorem filter_throws_iff_no_list
  (pushState : bool) (hash : string) (container : FilterContainer)
  (events : list Filter.Event) (i : nat) (part : FilterPart) :
  let joinType := Filter.joinTypeOf container in
  let st := Filter.run pushState joinType
              (stateOf (Filter.setupFilter hash container)) events in
  plainNames (Filter.filterPartsOf container) ->
  nth_error (Filter.filterParts st) i = Some part ->
  (throws (Filter.setupFilter hash container) = true <-> target container = None)
  /\ (throws (Filter.onChange pushState joinType i st) = true
      <-> target container = None)
  /\ (throws (Filter.onPopState joinType i st) = true
      <-> target container = None).
Proof.
  intros joinType st _ Hi.
  destruct (setupFilter_state hash container) as (_ & _ & Hl & _ & Ht).
  assert (Hnone : Filter.list_ st = None <-> target container = None).
  { unfold st. rewrite run_list_None. apply (list_None_iff _ _ _ _ Hl). }
  split; [exact Ht|]. split.
  - rewrite (onChange_throws pushState joinType i st part Hi). exact Hnone.
  - rewrite (onPopState_throws joinType i st part Hi). exact Hnone.
Qed.

Lemma filter_throws_iff_no_list_witness :
  throws
    (Filter.onChange true Filter.JoinAnd 0
       (Filter.run true Filter.JoinAnd
          (stateOf
             (Filter.setupFilter ""
                (mkFilterContainer (Some "list1") None true None
                   [Scenario.country] None)))
          [Filter.PopState "#!country=Norway"]))
  = true.
Proof.
  apply (filter_throws_iff_no_list true ""
           (mkFilterContainer (Some "list1") None true None
              [Scenario.country] None)
           [Filter.PopState "#!country=Norway"] 0
           (mkFilterPart "country" None
              [mkControl "INPUT" true false "Norway" None (Some "list1");
               mkControl "INPUT" false false "Sweden" None (Some "list1")])).
  - intros part [<-|[]]. reflexivity.
  - reflexivity.
  - reflexivity.
Defined.

End Reachable.

Section AriaControls.
Import Page Spec.

Lemma setupFilterPart_aria (hash : string) (listId : option string)
  (part : FilterPart) (f : JsObject.t) :
  Forall (fun c => aria_controls c = Some (Filter.listIdText listId))
    (filterControls (snd (Filter.setupFilterPart hash listId part f))).
Proof.
  unfold Filter.setupFilterPart. cbn [snd setControls filterControls].
  unfold Filter.updateControlsFromFilterPart. rewrite map_map.
  apply Forall_forall. intros c Hc. apply in_map_iff in Hc.
  destruct Hc as (c0 & <- & _).
  destruct (String.eqb (tagName (setAriaControls (Filter.listIdText listId) c0))
              "OPTION"); reflexivity.
Qed.

Lemma setupFilterParts_aria (hash : string) (listId : option string)
  (parts : list FilterPart) :
  forall f,
    Forall (fun p =>
              Forall (fun c => aria_controls c = Some (Filter.listIdText listId))
                (filterControls p))
      (snd (Filter.setupFilterParts hash listId parts f)).
Proof.
  induction parts as [|part parts IH]; intros f; [constructor|].
  cbn [Filter.setupFilterParts].
  pose proof (setupFilterPart_aria hash listId part f) as H.
  destruct (Filter.setupFilterPart hash listId part f) as [f1 part1].
  specialize (IH f1).
  destruct (Filter.setupFilterParts hash listId parts f1) as [f2 parts2].
  constructor; assumption.
Qed.

(** For a container whose filter parts have plain keys, every control of
    every filter part carries [aria-controls] once [setupFilter] has run,
    and keeps it whatever events follow: its value is the
    [data-filter-target] of the container, and the text ["null"] when the
    container has no such attribute. *)
Theorem controls_aria_controls
  (pushState : bool) (hash : string) (container : FilterContainer)
  (events : list Filter.Event) (part : FilterPart) (c : Control) :
  let st := Filter.run pushState (Filter.joinTypeOf container)
              (stateOf (Filter.setupFilter hash container)) events in
  plainNames (Filter.filterPartsOf container) ->
  In part (Filter.filterParts st) -> In c (filterControls part) ->
  aria_controls c
  = Some match data_filter_target container with
         | Some listId => listId
         | None => "null"
         end.
Proof.
  intros st _ Hp Hc.
  change (match data_filter_target container with
          | Some listId => listId
          | None => "null"
          end) with (Filter.listIdText (data_filter_target container)).
  pose proof (run_partAttributes pushState (Filter.joinTypeOf container) events
                (stateOf (Filter.setupFilter hash container))) as Hrun.
  fold st in Hrun.
  destruct (setupFilter_state hash container) as (_ & Hparts & _).
  cbn zeta in Hparts. rewrite Hparts in Hrun.
  pose proof (setupFilterParts_aria hash (data_filter_target container)
                (Filter.filterPartsOf container) JsObject.empty) as Haria.
  assert (Hin : In (partAttributes part) (map partAttributes (Filter.filterParts st)))
    by (apply in_map, Hp).
  rewrite Hrun in Hin. apply in_map_iff in Hin.
  destruct Hin as (part0 & Hattr & Hin0).
  rewrite Forall_forall in Haria. specialize (Haria part0 Hin0).
  rewrite Forall_forall in Haria.
  assert (Hc' : In (attributesOf c) (map attributesOf (filterControls part)))
    by (apply in_map, Hc).
  unfold partAttributes in Hattr. inversion Hattr as [[Hn Hd Hcs]].
  rewrite <- Hcs in Hc'. apply in_map_iff in Hc'.
  destruct Hc' as (c0 & Hc0 & Hin1).
  assert (Ha : aria_controls c0 = aria_controls c)
    by (unfold attributesOf in Hc0; congruence).
  rewrite <- Ha. apply Haria, Hin1.
Qed.

Lemma controls_aria_controls_witness :
  Forall
    (fun part =>
       Forall (fun c => aria_controls c = Some "null") (filterControls part))
    (Filter.filterParts
       (Filter.run true Filter.JoinAnd
          (stateOf
             (Filter.setupFilter ""
                (mkFilterContainer None None true None [Scenario.country]
                   (Some [ElementNode Scenario.norway]))))
          [Filter.PopState "#!country=Norway"])).
Proof.
  apply Forall_forall. intros part Hp. apply Forall_forall. intros c Hc.
  apply (controls_aria_controls true ""
           (mkFilterContainer None None true None [Scenario.country]
              (Some [ElementNode Scenario.norway]))
           [Filter.PopState "#!country=Norway"] part c);
    [|exact Hp | exact Hc].
  intros p [<-|[]]. reflexivity.
Defined.

End AriaControls.

(** ** What [init] makes of a collapsible section *)

Section CollapsibleSetup.
Import Str Collapsible Spec.

Lemma moveChildren_all (headingChildren triggerChildren : list Node) :
  CollapsibleSection.moveChildren headingChildren triggerChildren
  = ([], (triggerChildren ++ headingChildren)%list).
Proof.
  revert triggerChildren.
  induction headingChildren as [|n ns IH]; intros tc; simpl.
  - rewrite app_nil_r. reflexivity.
  - rewrite IH, <- app_assoc. reflexivity.
Qed.

(** What [init] makes of a section that has a heading and a contents
    element with an [id], in [collapsiblesection.js]: the child nodes of
    the heading are in the button, in their order, and the button is the
    only child of the heading; the button has [type], [aria-controls] when
    the id is not empty, and [aria-expanded="false"]; the first contents
    element has [aria-hidden="true"]; [" collapsed"] and [" scripted"] are
    appended to the class attribute of the section. *)
Theorem init_sets_up
  (s : Section) (h : Heading) (c : Attr.t) (cs : list Attr.t) (id : string) :
  heading s = Some h -> contents s = c :: cs ->
  Attr.getAttribute "id" c = Some id ->
  CollapsibleSection.init (CollapsibleSection.new s)
  = Normal
      (mkCollapsibleSection
         (mkSection
            ((className s ++ " collapsed") ++ " scripted")
            (Some (mkHeading [] true))
            (Attr.setAttribute "aria-hidden" "true" c :: cs))
         true
         (Some
            (mkTrigger
               (("type", "button")
                  :: (if isEmpty id then [] else [("aria-controls", id)])
                  ++ [("aria-expanded", "false")])%list
               (h_children h) true))).
Proof.
  destruct s as [cn hd ct]. simpl. intros -> -> Hid.
  unfold CollapsibleSection.init, CollapsibleSection.this_heading,
    CollapsibleSection.this_contents. simpl. rewrite Hid.
  rewrite moveChildren_all.
  destruct id as [|a id]; reflexivity.
Qed.

Lemma init_sets_up_witness :
  CollapsibleSection.init
    (CollapsibleSection.new
       (mkSection "collapsibleSection"
          (Some (mkHeading ["More"; "details"] false))
          [[("class", "contents"); ("id", "details")]]))
  = Normal
      (mkCollapsibleSection
         (mkSection "collapsibleSection collapsed scripted"
            (Some (mkHeading [] true))
            [[("class", "contents"); ("id", "details"); ("aria-hidden", "true")]])
         true
         (Some
            (mkTrigger
               [("type", "button"); ("aria-controls", "details");
                ("aria-expanded", "false")]
               ["More"; "details"] true))).
Proof.
  apply (init_sets_up
           (mkSection "collapsibleSection"
              (Some (mkHeading ["More"; "details"] false))
              [[("class", "contents"); ("id", "details")]])
           (mkHeading ["More"; "details"] false)
           [("class", "contents"); ("id", "details")] [] "details");
    reflexivity.
Defined.

End CollapsibleSetup.

Section Variants.
Import Str Collapsible Spec.

Lemma classes_forms (cn : string) (o : CollapsibleSection) (x : string) :
  (collapsed o = true
   /\ (className (section o) = (cn ++ " collapsed") ++ " scripted"
       \/ className (section o) = (cn ++ " scripted") ++ " collapsed"))
  \/ (collapsed o = false /\ className (section o) = cn ++ " scripted") ->
  (In x (classes o)
   <-> In x (classList cn) \/ x = "scripted"
       \/ (x = "collapsed" /\ collapsed o = true)).
Proof.
  destruct (classList_app_class cn) as [Hc Hs].
  destruct (classList_app_class (cn ++ " collapsed")) as [_ Hcs].
  destruct (classList_app_class (cn ++ " scripted")) as [Hsc _].
  unfold classes.
  intros [[Hcol [Hcl|Hcl]] | [Hcol Hcl]]; rewrite Hcl, Hcol.
  - rewrite Hcs, Hc, !in_app_iff. simpl. intuition congruence.
  - rewrite Hsc, Hs, !in_app_iff. simpl. intuition congruence.
  - rewrite Hs, in_app_iff. simpl. intuition congruence.
Qed.

(** A click on the trigger takes the two variants from the same state to
    the same state. *)
Lemma onclick_samePage (cn : string) (ov oj : CollapsibleSection) :
  cut " collapsed" cn = None -> ~ In "collapsed" (classList cn) ->
  CollapsibleSection.Toggled cn ov ->
  tl (contents (section ov)) = [] ->
  samePage ov oj ->
  CollapsibleSection.Toggled cn (stateOf (CollapsibleSection.onclick ov))
  /\ tl (contents (section (stateOf (CollapsibleSection.onclick ov)))) = []
  /\ samePage (stateOf (CollapsibleSection.onclick ov))
       (CollapsibleSectionJq.onclick oj).
Proof.
  intros Hcut Hnot Htog Htl (Ht & Hh & Hc & Hcol & Hcl).
  destruct (onclick_toggled cn ov Hcut Htog)
    as (ov' & Hclick & Htog' & Hcol' & Hh' & Htl').
  rewrite Hclick. cbn [stateOf].
  split; [exact Htog'|]. split; [rewrite Htl'; exact Htl|].
  assert (Hforms' :
           (collapsed ov' = true
            /\ (className (section ov') = (cn ++ " collapsed") ++ " scripted"
                \/ className (section ov') = (cn ++ " scripted") ++ " collapsed"))
           \/ (collapsed ov' = false
               /\ className (section ov') = cn ++ " scripted")).
  { destruct Htog' as [? ? ? _ _ _ _ H]. exact H. }
  pose proof Htog as [t c cs Htr Hct _ _ Hforms].
  rewrite Hct in Htl. cbn [tl] in Htl. subst cs.
  unfold CollapsibleSection.onclick in Hclick.
  rewrite (setCollapseState_normal _ ov t c [] Htr Hct) in Hclick.
  inversion Hclick as [Hov']. clear Hclick.
  destruct (setCollapseState_jq_toggled (negb (collapsed oj)) oj)
    as (_ & Hjcol & Hjcl & _ & _).
  unfold samePage. split; [|split; [|split; [|split]]].
  - cbn [trigger]. unfold CollapsibleSectionJq.onclick,
      CollapsibleSectionJq.setCollapseState.
    rewrite <- Hcol.
    destruct (negb (collapsed ov)); cbn; rewrite <- Ht, Htr; reflexivity.
  - cbn [section heading]. unfold CollapsibleSectionJq.onclick,
      CollapsibleSectionJq.setCollapseState.
    destruct (negb (collapsed oj)); cbn; exact Hh.
  - cbn [section contents].
    unfold CollapsibleSectionJq.onclick,
      CollapsibleSectionJq.setCollapseState,
      CollapsibleSectionJq.contentsAttr.
    rewrite <- Hcol.
    destruct (negb (collapsed ov)); cbn; rewrite <- Hc, Hct; reflexivity.
  - cbn [collapsed]. unfold CollapsibleSectionJq.onclick.
    rewrite Hjcol, Hcol. reflexivity.
  - intros x.
    pose proof (classes_forms cn ov' x Hforms') as Hv'.
    pose proof (classes_forms cn ov x Hforms) as Hv.
    pose proof (Hjcl x) as Hj. pose proof (Hcl x) as Hx.
    assert (Hn : x = "collapsed" -> ~ In x (classList cn))
      by (intros ->; exact Hnot).
    assert (Hs : x = "scripted" -> x <> "collapsed")
      by (intros ->; discriminate).
    rewrite Hcol' in Hv'. rewrite <- Hcol in Hj.
    unfold CollapsibleSectionJq.onclick. rewrite <- Hcol.
    rewrite <- Hov' in Hv'.
    destruct (collapsed ov); cbn [negb] in *; rewrite Hv', Hj, <- Hx, Hv.
    + split.
      * intros [H|[H|[_ H]]]; [| |discriminate H].
        -- split; [left; exact H | intros E; exact (Hn E H)].
        -- split; [right; left; exact H | exact (Hs H)].
      * intros [[H|[H|[H _]]] Hne];
          [left; exact H | right; left; exact H | contradiction].
    + split.
      * intros [H|[H|[H _]]];
          [left; left; exact H | left; right; left; exact H | right; exact H].
      * intros [[H|[H|[_ H]]]|H];
          [left; exact H | right; left; exact H | discriminate H |].
        right. right. split; [exact H | reflexivity].
Qed.

Lemma init_samePage (s : Section) (h : Heading) (c : Attr.t) (id : string) :
  heading s = Some h -> contents s = [c] ->
  Attr.getAttribute "id" c = Some id ->
  samePage (stateOf (CollapsibleSection.init (CollapsibleSection.new s)))
    (CollapsibleSectionJq.init (CollapsibleSectionJq.new s)).
Proof.
  destruct s as [cn hd ct]. simpl. intros -> -> Hid.
  unfold CollapsibleSection.init, CollapsibleSection.this_heading,
    CollapsibleSection.this_contents. simpl. rewrite Hid.
  rewrite moveChildren_all.
  unfold CollapsibleSectionJq.init, CollapsibleSectionJq.contentsId.
  cbn [CollapsibleSectionJq.new section contents heading]. rewrite Hid.
  unfold samePage. split; [|split; [|split; [|split]]].
  - destruct (Nat.ltb 0 (String.length id)); reflexivity.
  - reflexivity.
  - reflexivity.
  - reflexivity.
  - intros x. unfold classes.
    destruct (classList_app_class cn) as [Hc _].
    destruct (classList_app_class (cn ++ " collapsed")) as [_ Hcs].
    destruct (Nat.ltb 0 (String.length id));
      cbn [CollapsibleSection.setCollapseState stateOf section className
           withClassName withTrigger withContents withCollapsed trigger
           contents heading CollapsibleSectionJq.setCollapseState
           CollapsibleSectionJq.new withHeading];
      rewrite Hcs, Hc, (classList_addClass "scripted" _ eq_refl),
        (classList_addClass "collapsed" _ eq_refl), !in_app_iff; simpl;
      intuition congruence.
Qed.

Lemma init_contents_tail (s : Section) (h : Heading) (c : Attr.t)
  (cs : list Attr.t) (id : string) :
  heading s = Some h -> contents s = c :: cs ->
  Attr.getAttribute "id" c = Some id ->
  exists o,
    CollapsibleSection.init (CollapsibleSection.new s) = Normal o
    /\ tl (contents (section o)) = cs.
Proof.
  destruct s as [cn hd ct]. simpl. intros -> -> Hid.
  unfold CollapsibleSection.init, CollapsibleSection.this_heading,
    CollapsibleSection.this_contents. simpl. rewrite Hid.
  rewrite moveChildren_all. eexists. split; reflexivity.
Qed.

(** On a section with a heading and one contents element that has an [id],
    whose class attribute holds neither the class [collapsed] nor the text
    [" collapsed"], the two variants of the collapsible section agree:
    after [init] and any number of clicks on the trigger, the trigger, the
    heading and the contents element are the same, and so are the
    [collapsed] flag and the set of classes of the section. *)
Theorem variants_agree
  (s : Section) (h : Heading) (c : Attr.t) (id : string) (n : nat) :
  heading s = Some h -> contents s = [c] ->
  Attr.getAttribute "id" c = Some id ->
  cut " collapsed" (className s) = None ->
  ~ In "collapsed" (classList (className s)) ->
  samePage
    (CollapsibleSection.clicks n
       (stateOf (CollapsibleSection.init (CollapsibleSection.new s))))
    (CollapsibleSectionJq.clicks n
       (CollapsibleSectionJq.init (CollapsibleSectionJq.new s))).
Proof.
  intros Hh Hc Hid Hcut Hnot.
  pose proof (init_samePage s h c id Hh Hc Hid) as Hsame.
  destruct (init_contents_tail s h c [] id Hh Hc Hid) as (o & Hinit & Htl).
  pose proof (init_toggled s h c [] o Hh Hc Hinit) as Htog.
  rewrite Hinit in *. cbn [stateOf] in *.
  clear Hinit. revert o Htog Htl Hsame.
  generalize (CollapsibleSectionJq.init (CollapsibleSectionJq.new s)).
  induction n as [|n IH]; intros oj ov Htog Htl Hsame; [exact Hsame|].
  cbn [CollapsibleSection.clicks CollapsibleSectionJq.clicks].
  destruct (onclick_samePage (className s) ov oj Hcut Hnot Htog Htl Hsame)
    as (Htog' & Htl' & Hsame').
  apply IH; assumption.
Qed.

Lemma variants_agree_witness :
  samePage
    (CollapsibleSection.clicks 3
       (stateOf
          (CollapsibleSection.init
             (CollapsibleSection.new
                (mkSection "collapsibleSection"
                   (Some (mkHeading ["Details"] false))
                   [[("id", "details")]])))))
    (CollapsibleSectionJq.clicks 3
       (CollapsibleSectionJq.init
          (CollapsibleSectionJq.new
             (mkSection "collapsibleSection"
                (Some (mkHeading ["Details"] false))
                [[("id", "details")]])))).
Proof.
  apply (variants_agree
           (mkSection "collapsibleSection" (Some (mkHeading ["Details"] false))
              [[("id", "details")]])
           (mkHeading ["Details"] false) [("id", "details")] "details" 3).
  - reflexivity.
  - reflexivity.
  - reflexivity.
  - reflexivity.
  - simpl. intros [H|[]]. discriminate.
Defined.

End Variants.

(** ** [init] in the jQuery variant, and the script as a whole *)

Section JqueryInit.
Import Str Collapsible Spec.

(** The jQuery variant sets up every section, whatever it holds: after
    [init] the section has the classes [collapsed] and [scripted] besides
    those it had, every contents element has [aria-hidden="true"], and the
    [collapsed] flag is set; there is a trigger exactly when the section
    has a heading. *)
Theorem init_jquery_marks_every_section (s : Section) :
  let o := CollapsibleSectionJq.init (CollapsibleSectionJq.new s) in
  collapsed o = true
  /\ (forall x, In x (classes o)
                <-> In x (classList (className s)) \/ x = "collapsed"
                    \/ x = "scripted")
  /\ (forall c, In c (contents (section o)) ->
                Attr.getAttribute "aria-hidden" c = Some "true")
  /\ List.length (contents (section o)) = List.length (contents s)
  /\ (trigger o = None <-> heading s = None).
Proof.
  destruct s as [cn hd ct].
  unfold CollapsibleSectionJq.init. cbv zeta.
  match goal with
  | |- context [CollapsibleSectionJq.setCollapseState true ?x] =>
      destruct (setCollapseState_jq_toggled true x)
        as ([_ _ Hh] & Hcol & Hcl & Htr & Hlen);
      set (o := CollapsibleSectionJq.setCollapseState true x) in *
  end.
  split; [exact Hcol|]. split; [|split; [exact Hh|split]].
  - intros x. unfold classes in *.
    cbn [withClassName section className].
    rewrite (classList_addClass "scripted" _ eq_refl), Hcl.
    destruct hd; cbn; tauto.
  - cbn [withClassName section contents]. rewrite Hlen.
    destruct hd; reflexivity.
  - cbn [withClassName trigger].
    destruct (trigger o) as [t|] eqn:Et; destruct hd as [h|];
      cbn in Htr; split; intros H; try discriminate; reflexivity.
Qed.

End JqueryInit.

Section WholeScript.
Import Str Collapsible Page Spec.

Lemma init_throws_lacksId (s : Section) :
  throws (CollapsibleSection.init (CollapsibleSection.new s)) = true
  <-> lacksId s.
Proof.
  destruct s as [cn hd ct]. unfold lacksId.
  unfold CollapsibleSection.init, CollapsibleSection.this_heading,
    CollapsibleSection.this_contents. simpl.
  destruct hd as [h|]; [|split; [discriminate | intros (h & c & cs & H & _);
                                                   discriminate]].
  destruct ct as [|c cs];
    [split; [discriminate | intros (h' & c & cs & _ & H & _); discriminate]|].
  simpl. destruct (Attr.getAttribute "id" c) as [id|] eqn:Hid.
  - rewrite moveChildren_all. simpl. split; [discriminate|].
    intros (h' & c' & cs' & _ & Hc & Hn). inversion Hc; subst.
    rewrite Hid in Hn. discriminate.
  - simpl. split; [|reflexivity]. intros _. exists h, c, cs. auto.
Qed.

Lemma initSections_throws (sections : list Section) :
  throws (Script.initSections sections) = true
  <-> exists s, In s sections /\ lacksId s.
Proof.
  induction sections as [|s ss IH]; simpl.
  - split; [discriminate | intros (s & [] & _)].
  - pose proof (init_throws_lacksId s) as Hs.
    destruct (CollapsibleSection.init (CollapsibleSection.new s)) as [o|o].
    + simpl in Hs.
      assert (E : throws
                    match Script.initSections ss with
                    | Normal (os, unreached) => Normal (o :: os, unreached)
                    | Throw (os, unreached) => Throw (o :: os, unreached)
                    end
                  = throws (Script.initSections ss)).
      { destruct (Script.initSections ss) as [[os un]|[os un]]; reflexivity. }
      rewrite E, IH. split.
      * intros (x & Hx & Hl). exists x. split; [right; exact Hx | exact Hl].
      * intros (x & [<-|Hx] & Hl).
        -- apply Hs in Hl. discriminate.
        -- exists x. split; assumption.
    + simpl. split; [|reflexivity]. intros _. exists s.
      split; [left; reflexivity | apply Hs; reflexivity].
Qed.

Lemma setupFilters_throws (hash : string) (containers : list FilterContainer) :
  throws (Script.setupFilters hash containers) = true
  <-> exists fc, In fc containers /\ target fc = None.
Proof.
  induction containers as [|fc fcs IH]; simpl.
  - split; [discriminate | intros (s & [] & _)].
  - destruct (setupFilter_state hash fc) as (_ & _ & _ & _ & Hs).
    destruct (Filter.setupFilter hash fc) as [st|st].
    + simpl in Hs.
      assert (E : throws
                    match Script.setupFilters hash fcs with
                    | Normal (sts, unreached) => Normal (st :: sts, unreached)
                    | Throw (sts, unreached) => Throw (st :: sts, unreached)
                    end
                  = throws (Script.setupFilters hash fcs)).
      { destruct (Script.setupFilters hash fcs) as [[os un]|[os un]];
          reflexivity. }
      rewrite E, IH. split.
      * intros (x & Hx & Hl). exists x. split; [right; exact Hx | exact Hl].
      * intros (x & [<-|Hx] & Hl).
        -- apply Hs in Hl. discriminate.
        -- exists x. split; assumption.
    + simpl. split; [|reflexivity]. intros _. exists fc.
      split; [left; reflexivity | apply Hs; reflexivity].
Qed.

Lemma initSections_normal (sections : list Section) :
  throws (Script.initSections sections) = false ->
  Script.initSections sections
  = Normal
      (map (fun s => stateOf (CollapsibleSection.init (CollapsibleSection.new s)))
         sections, []).
Proof.
  induction sections as [|s ss IH]; simpl; [reflexivity|].
  destruct (CollapsibleSection.init (CollapsibleSection.new s)) as [o|o];
    [|discriminate].
  destruct (Script.initSections ss) as [[os un]|[os un]]; simpl;
    [|discriminate].
  intros _. specialize (IH eq_refl). inversion IH. reflexivity.
Qed.

Lemma setupFilters_normal (hash : string) (containers : list FilterContainer) :
  throws (Script.setupFilters hash containers) = false ->
  Script.setupFilters hash containers
  = Normal (map (fun fc => stateOf (Filter.setupFilter hash fc)) containers, []).
Proof.
  induction containers as [|fc fcs IH]; simpl; [reflexivity|].
  destruct (Filter.setupFilter hash fc) as [st|st]; [|discriminate].
  destruct (Script.setupFilters hash fcs) as [[os un]|[os un]]; simpl;
    [|discriminate].
  intros _. specialize (IH eq_refl). inversion IH. reflexivity.
Qed.

(** On a page whose filter parts have plain keys, the script
    [collapsiblesection.js] ends with an error exactly when the page holds
    a collapsible section whose first contents element has no [id], or a
    filter container whose list does not exist.  Otherwise every section
    and every filter container was set up. *)
Theorem main_throws_iff (doc : Script.Document) :
  (forall fc, In fc (Script.filterContainers doc) ->
              plainNames (Filter.filterPartsOf fc)) ->
  (throws (Script.main doc) = true
   <-> (exists s, In s (Script.collapsibleSections doc) /\ lacksId s)
       \/ (exists fc, In fc (Script.filterContainers doc) /\ target fc = None))
  /\ (throws (Script.main doc) = false ->
      Script.main doc
      = Normal
          (Script.mkLoaded
             (map (fun s =>
                     stateOf (CollapsibleSection.init (CollapsibleSection.new s)))
                (Script.collapsibleSections doc))
             []
             (map (fun fc => stateOf (Filter.setupFilter (Script.hash doc) fc))
                (Script.filterContainers doc))
             [])).
Proof.
  intros _.
  pose proof (initSections_throws (Script.collapsibleSections doc)) as Hs.
  pose proof (setupFilters_throws (Script.hash doc) (Script.filterContainers doc))
    as Hf.
  pose proof (initSections_normal (Script.collapsibleSections doc)) as Hsn.
  pose proof (setupFilters_normal (Script.hash doc) (Script.filterContainers doc))
    as Hfn.
  unfold Script.main.
  destruct (Script.initSections (Script.collapsibleSections doc))
    as [[os un]|[os un]].
  - destruct (Script.setupFilters (Script.hash doc) (Script.filterContainers doc))
      as [[sts left]|[sts left]]; simpl in *.
    + split.
      * split; [discriminate|]. intros [H|H]; [apply Hs in H | apply Hf in H];
          discriminate.
      * intros _. specialize (Hsn eq_refl). specialize (Hfn eq_refl).
        inversion Hsn. inversion Hfn. reflexivity.
    + split; [|discriminate]. split; [|reflexivity].
      intros _. right. apply Hf. reflexivity.
  - simpl in *. split; [|discriminate]. split; [|reflexivity].
    intros _. left. apply Hs. reflexivity.
Qed.

Lemma main_throws_iff_witness :
  Script.main
    (Script.mkDocument
       [mkSection "collapsibleSection" (Some (mkHeading ["Details"] false))
          [[("id", "details")]]]
       [Scenario.container None] "#!country=Norway")
  = Normal
      (Script.mkLoaded
         [mkCollapsibleSection
            (mkSection "collapsibleSection collapsed scripted"
               (Some (mkHeading [] true))
               [[("id", "details"); ("aria-hidden", "true")]])
            true
            (Some
               (mkTrigger
                  [("type", "button"); ("aria-controls", "details");
                   ("aria-expanded", "false")]
                  ["Details"] true))]
         []
         [stateOf (Filter.setupFilter "#!country=Norway" (Scenario.container None))]
         []).
Proof.
  apply (main_throws_iff
           (Script.mkDocument
              [mkSection "collapsibleSection"
                 (Some (mkHeading ["Details"] false)) [[("id", "details")]]]
              [Scenario.container None] "#!country=Norway")).
  - intros fc [<-|[]] part [<-|[<-|[]]]; reflexivity.
  - reflexivity.
Defined.

Lemma initSections_stops (pre post : list Section) (s : Section) :
  (forall s', In s' pre -> ~ lacksId s') -> lacksId s ->
  Script.initSections (pre ++ s :: post)
  = Throw
      ((map (fun s' =>
               stateOf (CollapsibleSection.init (CollapsibleSection.new s')))
          pre
        ++ [mkCollapsibleSection s false
              (Some (mkTrigger [("type", "button")] [] false))])%list,
       post).
Proof.
  intros Hpre Hs. induction pre as [|p pre IH]; simpl.
  - destruct Hs as (h & c & cs & Hh & Hc & Hid).
    destruct s as [cn hd ct]. simpl in Hh, Hc. subst hd ct.
    unfold CollapsibleSection.init, CollapsibleSection.this_heading,
      CollapsibleSection.this_contents. simpl. rewrite Hid. reflexivity.
  - pose proof (init_throws_lacksId p) as Hp.
    destruct (CollapsibleSection.init (CollapsibleSection.new p)) as [o|o].
    + rewrite IH by (intros s' Hs'; apply Hpre; right; exact Hs').
      reflexivity.
    + exfalso. apply (Hpre p (or_introl eq_refl)). apply Hp. reflexivity.
Qed.

(** A collapsible section whose first contents element has no [id] stops
    the script: the sections before it are set up; the section itself is
    left as it was, without the classes [collapsed] and [scripted], its
    button created but not inserted; the sections after it are not
    reached, and no filter container of the page is set up. *)
Theorem main_stops_at_section_without_id
  (doc : Script.Document) (pre post : list Section) (s : Section) :
  Script.collapsibleSections doc = (pre ++ s :: post)%list ->
  (forall s', In s' pre -> ~ lacksId s') -> lacksId s ->
  Script.main doc
  = Throw
      (Script.mkLoaded
         (map (fun s' =>
                 stateOf (CollapsibleSection.init (CollapsibleSection.new s')))
            pre
          ++ [mkCollapsibleSection s false
                (Some (mkTrigger [("type", "button")] [] false))])%list
         post [] (Script.filterContainers doc)).
Proof.
  intros Hdoc Hpre Hs. unfold Script.main.
  rewrite Hdoc, (initSections_stops pre post s Hpre Hs). reflexivity.
Qed.

Lemma main_stops_at_section_without_id_witness :
  Script.main
    (Script.mkDocument
       [mkSection "collapsibleSection" (Some (mkHeading ["Details"] false))
          [[("class", "contents")]];
        mkSection "collapsibleSection" (Some (mkHeading ["More"] false))
          [[("id", "more")]]]
       [Scenario.container None] "")
  = Throw
      (Script.mkLoaded
         [mkCollapsibleSection
            (mkSection "collapsibleSection"
               (Some (mkHeading ["Details"] false)) [[("class", "contents")]])
            false (Some (mkTrigger [("type", "button")] [] false))]
         [mkSection "collapsibleSection" (Some (mkHeading ["More"] false))
            [[("id", "more")]]]
         [] [Scenario.container None]).
Proof.
  apply (main_stops_at_section_without_id
           (Script.mkDocument
              [mkSection "collapsibleSection"
                 (Some (mkHeading ["Details"] false)) [[("class", "contents")]];
               mkSection "collapsibleSection" (Some (mkHeading ["More"] false))
                 [[("id", "more")]]]
              [Scenario.container None] "")
           []
           [mkSection "collapsibleSection" (Some (mkHeading ["More"] false))
              [[("id", "more")]]]
           (mkSection "collapsibleSection" (Some (mkHeading ["Details"] false))
              [[("class", "contents")]])).
  - reflexivity.
  - intros s' [].
  - exists (mkHeading ["Details"] false), [("class", "contents")], [].
    repeat split.
Defined.

End WholeScript.

(** ** The empty value in the fragment *)

Section EmptyValue.
Import Str Pattern Spec.

Lemma cut_none_prefix (p x y : string) :
  p <> "" -> cut p (x ++ y) = None -> cut p x = None.
Proof.
  intros Hp. induction x as [|c x IH]; intros H.
  - destruct p; [contradiction | reflexivity].
  - simpl append in H. destruct (cut_none_tail _ _ _ H) as [Hs Hc].
    specialize (IH Hc).
    destruct (startsWith p (String c x)) eqn:E.
    + apply (startsWith_app_r _ _ y) in E. simpl append in E. congruence.
    + destruct p as [|a p]; [contradiction|].
      cbn [cut]. rewrite E, IH. reflexivity.
Qed.

Lemma cut_none_suffix (p x y : string) :
  cut p (x ++ y) = None -> cut p y = None.
Proof.
  induction x as [|c x IH]; intros H; [exact H|].
  simpl append in H. apply IH. apply (cut_none_tail _ _ _ H).
Qed.

Lemma cut_before_none (p b x a : string) :
  p <> "" -> cut p (b ++ x) = Some (b, a) -> cut p b = None.
Proof.
  intros Hp. revert a. induction b as [|c b IH]; intros a H.
  - destruct p; [contradiction | reflexivity].
  - simpl append in H.
    destruct (cut_some_tail _ _ _ _ _ H) as [[E _] | (b' & E & Hs & Hc)];
      [discriminate|].
    inversion E; subst b'. specialize (IH _ Hc).
    destruct (startsWith p (String c b)) eqn:Es.
    + apply (startsWith_app_r _ _ x) in Es. simpl append in Es. congruence.
    + destruct p as [|d p]; [contradiction|].
      cbn [cut]. rewrite Es, IH. reflexivity.
Qed.

Lemma startsAfter_cut (p s : string) :
  startsAfter ";" p s = true -> cut p s <> None.
Proof.
  induction s as [|c s IH]; [discriminate|].
  cbn [startsAfter]. intros H. apply orb_true_iff in H.
  assert (Hs : cut p s <> None).
  { destruct H as [H|H]; [|apply IH, H].
    apply andb_true_iff in H. destruct H as [_ H].
    destruct s; cbn [cut]; rewrite H; discriminate. }
  cbn [cut]. destruct (startsWith p (String c s)); [discriminate|].
  destruct (cut p s) as [[b a]|]; [discriminate | contradiction].
Qed.

(** A text that does not hold [key=] gives the key no value. *)
Lemma cut_none_firstValue (key s : string) :
  plainKey key = true -> cut (key ++ "=") s = None ->
  firstValue key (split ";" s) = None.
Proof.
  intros Hk Hc. rewrite <- (matchFilterValue_segments key s Hk).
  unfold matchFilterValue.
  destruct (segmentHere key s) as [v|] eqn:E1.
  - apply segmentHere_starts in E1.
    destruct s; simpl in Hc; rewrite E1 in Hc; discriminate.
  - destruct (segmentAfterSemicolon key s) as [v|] eqn:E2; [|reflexivity].
    apply segmentAfterSemicolon_starts in E2.
    apply startsAfter_cut in E2. contradiction.
Qed.

Lemma firstValue_app (key : string) (l1 l2 : list string) :
  firstValue key (l1 ++ l2)
  = match firstValue key l1 with
    | Some v => Some v
    | None => firstValue key l2
    end.
Proof.
  induction l1 as [|seg l1 IH]; simpl; [reflexivity|].
  destruct (segmentValue key seg); [reflexivity | exact IH].
Qed.

Lemma segmentValue_no_value (key : string) :
  segmentValue key (key ++ "=") = None.
Proof.
  unfold segmentValue.
  pose proof (startsWith_app (key ++ "=") "") as Hs.
  pose proof (drop_app (key ++ "=") "") as Hd.
  rewrite append_nil_r in Hs, Hd. rewrite Hs, Hd. reflexivity.
Qed.

(** Between two separators, [key=] alone gives the key no value when the
    texts around it do not hold [key=]. *)
Lemma firstValue_around (key b rest : string) :
  plainKey key = true ->
  b = "" \/ endsWithChar ";" b = true -> stopsAt notSemicolon rest ->
  cut (key ++ "=") b = None -> cut (key ++ "=") rest = None ->
  firstValue key (split ";" (b ++ (key ++ "=") ++ rest)) = None.
Proof.
  intros Hk Hb Hrest Hcb Hcr.
  pose proof (plainKey_notSemicolon key Hk) as HpS.
  assert (Htail : firstValue key (split ";" ((key ++ "=") ++ rest)) = None).
  { destruct rest as [|c rest'].
    - rewrite append_nil_r, (split_word _ HpS). simpl.
      rewrite segmentValue_no_value. reflexivity.
    - simpl in Hrest. unfold notSemicolon in Hrest.
      apply negb_false_iff, Ascii.eqb_eq in Hrest. subst c.
      rewrite split_app_semicolon, (split_word _ HpS), firstValue_app.
      simpl. rewrite segmentValue_no_value.
      apply (cut_none_firstValue key rest' Hk).
      apply (cut_none_suffix _ ";" rest'). exact Hcr. }
  destruct Hb as [-> | Hb]; [exact Htail|].
  destruct (endsWithChar_split _ _ Hb) as (b' & ->).
  rewrite append_assoc. simpl append at 2.
  rewrite split_app_semicolon, firstValue_app, Htail.
  rewrite (cut_none_firstValue key b' Hk); [reflexivity|].
  apply (cut_none_prefix _ b' ";"); [apply key_eq_not_empty | exact Hcb].
Qed.

Lemma newFragmentFor_empty_value
  (hash key defaultValue : string) (filter filter' : JsObject.t) :
  plainKey key = true -> all fragmentSafe key = true ->
  JsObject.get filter key = Some "" ->
  firstOccurrenceStartsSegment key (Filter.startFragment hash) = true ->
  occursAtMostOnce (key ++ "=") (Filter.startFragment hash) = true ->
  Filter.updateFilterPartFromUrl (Filter.newFragmentFor hash filter key)
    filter' key defaultValue
  = JsObject.set filter' key defaultValue.
Proof.
  intros Hk Hsafe Hget Hfirst Honce.
  pose proof (plainKey_notSemicolon key Hk) as HpS.
  pose proof (safeKey_notLineTerminator key Hsafe) as HpL.
  pose proof (plainKey_notDollar key Hk) as HpD.
  unfold Filter.newFragmentFor, Filter.valueText. rewrite Hget.
  unfold firstOccurrenceStartsSegment in Hfirst.
  unfold occursAtMostOnce in Honce.
  unfold matchFilterPart, replaceFilterPart, matchFilterPart.
  change (key ++ "=" ++ "") with (key ++ "=").
  unfold Filter.startFragment in *.
  destruct (matchUnanchored hash) as [r|] eqn:E.
  - destruct (matchUnanchored_rest _ _ E) as [HrL Hrne].
    destruct (cut (key ++ "=") ("#!" ++ r)) as [[before after]|] eqn:Ecut.
    + destruct (before_shape before Hfirst) as (b & -> & Hb).
      apply cut_after_bang in Ecut.
      pose proof (cut_eq _ _ _ _ Ecut) as Hr.
      rewrite (getSubstitution_literal _ _ _ _ HpD).
      destruct (cut (key ++ "=") after) eqn:Eafter; [discriminate|].
      replace (("#!" ++ b) ++ (key ++ "=") ++ dropWhile notSemicolon after)
        with ("#!" ++ (b ++ (key ++ "=") ++ dropWhile notSemicolon after)).
      2:{ rewrite !append_assoc. reflexivity. }
      rewrite decode_segments.
      * rewrite firstValue_around; try assumption.
        -- reflexivity.
        -- apply dropWhile_stops.
        -- rewrite Hr in Ecut.
           apply (cut_before_none _ _ _ _ (key_eq_not_empty key) Ecut).
        -- apply (cut_none_suffix _ (takeWhile notSemicolon after)).
           rewrite takeWhile_dropWhile. exact Eafter.
      * exact Hk.
      * rewrite Hr, !all_app in HrL.
        apply andb_true_iff in HrL. destruct HrL as [HbL HrL].
        apply andb_true_iff in HrL. destruct HrL as [_ HaL].
        rewrite (all_app _ b), (all_app _ (key ++ "=")), HbL, HpL. simpl.
        apply all_dropWhile. exact HaL.
      * intros Hempty. destruct b; [|discriminate Hempty].
        destruct key; discriminate Hempty.
    + apply cut_none_after_bang in Ecut.
      replace ((("#!" ++ r) ++ ";") ++ key ++ "=")
        with ("#!" ++ (r ++ String ";" (key ++ "="))).
      2:{ rewrite !append_assoc. reflexivity. }
      rewrite decode_segments.
      * rewrite split_app_semicolon, firstValue_app,
          (cut_none_firstValue key r Hk Ecut), (split_word _ HpS).
        simpl. rewrite segmentValue_no_value. reflexivity.
      * exact Hk.
      * rewrite (all_app _ r), HrL. simpl. exact HpL.
      * destruct r; discriminate.
  - destruct (cut (key ++ "=") "#!") as [[before after]|] eqn:Ecut.
    + exfalso. destruct (before_shape before Hfirst) as (b & -> & _).
      apply (cut_after_bang _ b after "") in Ecut.
      apply cut_eq in Ecut. destruct b; [|discriminate Ecut].
      destruct key; discriminate Ecut.
    + rewrite decode_segments.
      * rewrite (split_word _ HpS). simpl.
        rewrite segmentValue_no_value. reflexivity.
      * exact Hk.
      * exact HpL.
      * destruct key; discriminate.
Qed.

(** The empty value does not survive the fragment in
    [collapsiblesection.js]: written by [updateUrlFromFilterPart] and read
    back by [updateFilterPartFromUrl], it comes back as the default value.
    In [filter_jquery.js], where the default is the empty string, it comes
    back as it was. *)
Theorem url_roundtrip_empty_value
  (hash key defaultValue : string) (filter filter' : JsObject.t) :
  plainKey key = true -> all fragmentSafe key = true ->
  JsObject.get filter key = Some "" ->
  firstOccurrenceStartsSegment key (Filter.startFragment hash) = true ->
  occursAtMostOnce (key ++ "=") (Filter.startFragment hash) = true ->
  JsObject.get
    (Filter.updateFilterPartFromUrl
       (Filter.updateUrlFromFilterPart true hash filter key)
       filter' key defaultValue) key
  = Some defaultValue
  /\ JsObject.get
       (FilterJq.updateFilterPartFromUrl
          (FilterJq.updateUrlFromFilterPart true hash filter key)
          filter' key) key
     = Some "".
Proof.
  intros Hk Hsafe Hget Hfirst Honce.
  pose proof (get_Some_name _ _ _ Hget) as Hname. split.
  - cbn [Filter.updateUrlFromFilterPart].
    rewrite (newFragmentFor_empty_value hash key defaultValue filter filter'
               Hk Hsafe Hget Hfirst Honce).
    apply get_set, Hname.
  - change (FilterJq.updateFilterPartFromUrl
              (FilterJq.updateUrlFromFilterPart true hash filter key)
              filter' key)
      with (Filter.updateFilterPartFromUrl
              (Filter.newFragmentFor hash filter key) filter' key "").
    rewrite (newFragmentFor_empty_value hash key "" filter filter'
               Hk Hsafe Hget Hfirst Honce).
    apply get_set, Hname.
Qed.

Lemma url_roundtrip_empty_value_witness :
  JsObject.get
    (Filter.updateFilterPartFromUrl
       (Filter.updateUrlFromFilterPart true "#!country=Norway;tag=eco"
          [("country", "Norway"); ("tag", "")] "tag")
       [("country", "Norway"); ("tag", "")] "tag" "*") "tag"
  = Some "*"
  /\ JsObject.get
       (FilterJq.updateFilterPartFromUrl
          (FilterJq.updateUrlFromFilterPart true "#!country=Norway;tag=eco"
             [("country", "Norway"); ("tag", "")] "tag")
          [("country", "Norway"); ("tag", "")] "tag") "tag"
     = Some "".
Proof.
  apply (url_roundtrip_empty_value "#!country=Norway;tag=eco" "tag" "*"
           [("country", "Norway"); ("tag", "")]
           [("country", "Norway"); ("tag", "")]); reflexivity.
Defined.

End EmptyValue.

(** ** Page load, and browsers without [history.pushState] *)

Section PageLoad.
Import Str Pattern Page Spec.

Lemma setupFilterPart_state (hash : string) (listId : option string)
  (part : FilterPart) (f : JsObject.t) :
  let f' := fst (Filter.setupFilterPart hash listId part f) in
  let part' := snd (Filter.setupFilterPart hash listId part f) in
  f' = JsObject.set f (data_filter_name part) (valueFromUrl hash part)
  /\ data_filter_name part' = data_filter_name part
  /\ data_filter_default part' = data_filter_default part
  /\ map data_filter (filterControls part') = map data_filter (filterControls part)
  /\ (data_filter_name part <> "__proto__" -> restoredFrom hash f' part').
Proof.
  unfold Filter.setupFilterPart. cbn [fst snd].
  rewrite update_valueFromUrl, set_set.
  split; [reflexivity|]. split; [reflexivity|]. split; [reflexivity|]. split.
  - cbn [setControls filterControls].
    unfold Filter.updateControlsFromFilterPart. rewrite !map_map.
    apply map_ext. intros c.
    destruct (String.eqb (tagName (setAriaControls (Filter.listIdText listId) c))
                "OPTION"); reflexivity.
  - intros Hproto. unfold restoredFrom.
    assert (Hv : valueFromUrl hash
                   (setControls
                      (Filter.updateControlsFromFilterPart
                         (map (setAriaControls (Filter.listIdText listId))
                            (filterControls part))
                         (JsObject.set f (data_filter_name part)
                            (valueFromUrl hash part))
                         (data_filter_name part)) part)
                 = valueFromUrl hash part) by reflexivity.
    rewrite Hv. cbn [setControls data_filter_name filterControls].
    split; [apply get_set, Hproto|]. apply sync_shows, get_set, Hproto.
Qed.

Lemma setupFilterParts_other_keys (hash : string) (listId : option string)
  (parts : list FilterPart) :
  forall f key,
    ~ In key (map data_filter_name parts) ->
    JsObject.get (fst (Filter.setupFilterParts hash listId parts f)) key
    = JsObject.get f key.
Proof.
  induction parts as [|part parts IH]; intros f key Hk; [reflexivity|].
  cbn [Filter.setupFilterParts].
  destruct (setupFilterPart_state hash listId part f) as (Hf & _).
  destruct (Filter.setupFilterPart hash listId part f) as [f1 part1].
  cbn [fst snd] in Hf.
  specialize (IH f1 key).
  destruct (Filter.setupFilterParts hash listId parts f1) as [f2 parts2].
  cbn [fst] in *. rewrite IH by (intros H; apply Hk; right; exact H).
  rewrite Hf. apply get_set_other. intros ->. apply Hk. left. reflexivity.
Qed.

Lemma setupFilterParts_restores (hash : string) (listId : option string)
  (parts : list FilterPart) :
  forall f k part,
    NoDup (map data_filter_name parts) ->
    nth_error parts k = Some part ->
    data_filter_name part <> "__proto__" ->
    exists part',
      nth_error (snd (Filter.setupFilterParts hash listId parts f)) k = Some part'
      /\ data_filter_name part' = data_filter_name part
      /\ data_filter_default part' = data_filter_default part
      /\ map data_filter (filterControls part')
         = map data_filter (filterControls part)
      /\ restoredFrom hash (fst (Filter.setupFilterParts hash listId parts f))
           part'.
Proof.
  induction parts as [|p parts IH]; intros f k part Hn Hk Hproto;
    [destruct k; discriminate|].
  cbn [Filter.setupFilterParts].
  destruct (setupFilterPart_state hash listId p f) as (Hf & Hname & Hdef & Hcs & Hr).
  pose proof (setupFilterParts_other_keys hash listId parts
                (fst (Filter.setupFilterPart hash listId p f))) as Hother.
  destruct (Filter.setupFilterPart hash listId p f) as [f1 p1].
  cbn [fst snd] in *.
  specialize (IH f1). cbn [map] in Hn. apply NoDup_cons_iff in Hn.
  destruct Hn as [Hnotin Hn'].
  destruct (Filter.setupFilterParts hash listId parts f1) as [f2 parts2] eqn:E.
  cbn [fst snd] in *.
  destruct k as [|k]; cbn [nth_error] in *.
  - inversion Hk; subst p. exists p1. split; [reflexivity|].
    repeat (split; [assumption|]).
    destruct (Hr Hproto) as [Hget Hshow]. split; [|exact Hshow].
    rewrite Hname. rewrite Hother by exact Hnotin.
    rewrite <- Hname. exact Hget.
  - apply (IH k part Hn' Hk Hproto).
Qed.

(** On page load [setupFilter] takes the filter from the fragment: for
    every filter part, with a key other than [__proto__], of a container
    whose parts have plain keys, all different, the filter maps the key of
    the part to the value of the first segment of the fragment that gives
    one, or to the default of the part, and the controls of the part show
    that value; the [hidden] attribute of the container is removed. *)
Theorem setupFilter_reads_fragment
  (hash : string) (container : FilterContainer) (k : nat) (part : FilterPart) :
  NoDup (map data_filter_name (Filter.filterPartsOf container)) ->
  plainNames (Filter.filterPartsOf container) ->
  all notLineTerminator hash = true ->
  nth_error (Filter.filterPartsOf container) k = Some part ->
  data_filter_name part <> "__proto__" ->
  exists part',
    nth_error (Filter.filterParts (stateOf (Filter.setupFilter hash container))) k
    = Some part'
    /\ data_filter_name part' = data_filter_name part
    /\ map data_filter (filterControls part')
       = map data_filter (filterControls part)
    /\ JsObject.get
         (Filter.currentFilter (stateOf (Filter.setupFilter hash container)))
         (data_filter_name part)
       = Some (urlValue (data_filter_name part) hash (Filter.defaultValueOf part))
    /\ controlsShow
         (urlValue (data_filter_name part) hash (Filter.defaultValueOf part))
         (filterControls part')
    /\ Filter.containerHidden (stateOf (Filter.setupFilter hash container))
       = false.
Proof.
  intros Hn Hplain Hh Hk Hproto.
  pose proof (Hplain part (nth_error_In _ _ Hk)) as Hp.
  destruct (setupFilter_state hash container) as (Hf & Hparts & _).
  cbn zeta in Hf, Hparts. rewrite Hf, Hparts.
  destruct (setupFilterParts_restores hash (data_filter_target container)
              (Filter.filterPartsOf container) JsObject.empty k part Hn Hk
              Hproto)
    as (part' & Hk' & Hname & Hdef & Hcs & Hget & Hshow).
  exists part'. split; [exact Hk'|]. split; [exact Hname|].
  split; [exact Hcs|].
  assert (Hv : valueFromUrl hash part'
               = urlValue (data_filter_name part) hash
                   (Filter.defaultValueOf part)).
  { rewrite <- (valueFromUrl_urlValue hash part Hp Hh).
    unfold valueFromUrl, Filter.defaultValueOf. rewrite Hname, Hdef.
    reflexivity. }
  rewrite Hv, Hname in Hget. rewrite Hv in Hshow.
  split; [exact Hget|]. split; [exact Hshow|].
  unfold Filter.setupFilter.
  destruct (Filter.setupFilterParts hash (data_filter_target container)
              (Filter.filterPartsOf container) JsObject.empty) as [f ps].
  destruct (Filter.filterPartsOf container) as [|p0 ps0];
    [destruct k; discriminate|].
  destruct (Filter.updateListFromFilter _ _ _); reflexivity.
Qed.

Lemma setupFilter_reads_fragment_witness :
  exists part',
    nth_error
      (Filter.filterParts
         (stateOf
            (Filter.setupFilter "#!tag=eco;country=Sweden"
               (Scenario.container None)))) 0
    = Some part'
    /\ JsObject.get
         (Filter.currentFilter
            (stateOf
               (Filter.setupFilter "#!tag=eco;country=Sweden"
                  (Scenario.container None))))
         "country"
       = Some "Sweden"
    /\ map checked (filterControls part') = [false; true]
    /\ Filter.containerHidden
         (stateOf
            (Filter.setupFilter "#!tag=eco;country=Sweden"
               (Scenario.container None)))
       = false.
Proof.
  destruct (setupFilter_reads_fragment "#!tag=eco;country=Sweden"
              (Scenario.container None) 0 Scenario.country)
    as (part' & Hk & _ & _ & Hget & _ & Hhid).
  - repeat constructor; simpl; intuition discriminate.
  - intros p [<-|[<-|[]]]; reflexivity.
  - reflexivity.
  - reflexivity.
  - discriminate.
  - exists part'. split; [exact Hk|]. split; [exact Hget|].
    split; [|exact Hhid]. vm_compute in Hk. inversion Hk. reflexivity.
Defined.

End PageLoad.

Section WithoutPushState.
Import Page Spec.

Lemma step_without_pushState (j : Filter.JoinType) (a b : Filter.State)
  (ev : Filter.Event) :
  Filter.withHash "" a = Filter.withHash "" b ->
  Filter.withHash "" (Filter.step false j a ev)
  = Filter.withHash "" (Filter.step true j b ev)
  /\ (forall i properties, ev = Filter.Change i properties ->
        Filter.location_hash (Filter.step false j a ev) = Filter.location_hash a).
Proof.
  intros H. unfold Filter.withHash in H. inversion H as [[Hf Hp Hl Hc]].
  destruct ev as [i properties | hash]; cbn [Filter.step].
  - unfold Filter.withControls, Filter.onChange. rewrite <- Hp.
    destruct (nth_error (Filter.filterParts a) i) as [part|] eqn:Hi.
    + cbn [Filter.filterParts Filter.currentFilter Filter.list_
           Filter.containerHidden Filter.location_hash].
      rewrite (nth_error_replaceNth_same _ _ part _ Hi).
      cbn [setControls data_filter_name filterControls].
      rewrite <- Hf, <- Hl, <- Hc. cbn [Filter.updateUrlFromFilterPart].
      destruct (Filter.updateListFromFilter (Filter.list_ a) _ j);
        cbn [stateOf]; split; try reflexivity; intros; reflexivity.
    + rewrite Hi, <- Hp, Hi. cbn [stateOf]. split; [exact H|].
      intros; reflexivity.
  - split; [|intros; discriminate].
    replace (Filter.withHash hash a) with (Filter.withHash hash b);
      [rewrite Hp; reflexivity|].
    unfold Filter.withHash. rewrite Hf, Hp, Hl, Hc. reflexivity.
Qed.

(** Without [history.pushState] the script leaves [location.hash] alone,
    and does to the filter, the controls and the list what it does with
    it. *)
Theorem without_pushState
  (j : Filter.JoinType) (events : list Filter.Event) (st : Filter.State) :
  Filter.currentFilter (Filter.run false j st events)
  = Filter.currentFilter (Filter.run true j st events)
  /\ Filter.filterParts (Filter.run false j st events)
     = Filter.filterParts (Filter.run true j st events)
  /\ Filter.list_ (Filter.run false j st events)
     = Filter.list_ (Filter.run true j st events)
  /\ (Forall (fun ev => exists i properties, ev = Filter.Change i properties)
        events ->
      Filter.location_hash (Filter.run false j st events)
      = Filter.location_hash st).
Proof.
  assert (H : forall a b,
             Filter.withHash "" a = Filter.withHash "" b ->
             Filter.withHash "" (Filter.run false j a events)
             = Filter.withHash "" (Filter.run true j b events)
             /\ (Forall (fun ev => exists i properties,
                            ev = Filter.Change i properties) events ->
                 Filter.location_hash (Filter.run false j a events)
                 = Filter.location_hash a)).
  { unfold Filter.run. induction events as [|ev evs IH]; intros a b Hab.
    - split; [exact Hab | reflexivity].
    - cbn [fold_left].
      destruct (step_without_pushState j a b ev Hab) as [Hstep Hhash].
      destruct (IH _ _ Hstep) as [Hrun Hrest].
      split; [exact Hrun|]. intros Hall.
      inversion Hall as [|? ? (i & properties & Hev) Hevs]; subst.
      rewrite (Hrest Hevs). apply (Hhash i properties eq_refl). }
  destruct (H st st eq_refl) as [Hrun Hhash].
  unfold Filter.withHash in Hrun. inversion Hrun as [[Hf Hp Hl Hc]].
  repeat split; assumption.
Qed.

End WithoutPushState.

(** ** Clicks on the trigger *)

Section Clicks.
Import Str Collapsible Spec.

Lemma clicks_collapsed (cn : string) (n : nat) :
  forall o,
    cut " collapsed" cn = None -> CollapsibleSection.Toggled cn o ->
    collapsed (CollapsibleSection.clicks n o)
    = if Nat.even n then collapsed o else negb (collapsed o).
Proof.
  induction n as [|n IH]; intros o Hcut Htog; [reflexivity|].
  cbn [CollapsibleSection.clicks].
  destruct (onclick_toggled cn o Hcut Htog) as (o' & Hclick & Htog' & Hcol & _).
  rewrite Hclick. cbn [stateOf]. rewrite (IH o' Hcut Htog'), Hcol.
  rewrite Nat.even_succ, <- Nat.negb_even.
  destruct (Nat.even n); cbn [negb]; [reflexivity | apply negb_involutive].
Qed.

(** Each click on the trigger flips the section, in
    [collapsiblesection.js]: for a section that [init] set up and whose
    class attribute holds neither the class [collapsed] nor the text
    [" collapsed"], after [n] clicks the section is collapsed exactly when
    [n] is even, and [aria-expanded] on the trigger, [aria-hidden] on the
    first contents element and the class [collapsed] say so. *)
Theorem clicks_alternate
  (s : Section) (h : Heading) (c : Attr.t) (cs : list Attr.t) (id : string)
  (n : nat) :
  heading s = Some h -> contents s = c :: cs ->
  Attr.getAttribute "id" c = Some id ->
  cut " collapsed" (className s) = None ->
  ~ In "collapsed" (classList (className s)) ->
  let o := CollapsibleSection.clicks n
             (stateOf (CollapsibleSection.init (CollapsibleSection.new s))) in
  collapsed o = Nat.even n
  /\ ariaExpanded o = Some (Some (stringOfBool (Nat.odd n)))
  /\ hd_error (ariaHidden o) = Some (Some (stringOfBool (Nat.even n)))
  /\ (In "collapsed" (classes o) <-> Nat.even n = true)
  /\ In "scripted" (classes o).
Proof.
  intros Hh Hc Hid Hcut Hnot o.
  destruct (init_contents_tail s h c cs id Hh Hc Hid) as (o0 & Hinit & _).
  pose proof (init_toggled s h c cs o0 Hh Hc Hinit) as Htog0.
  assert (Hcol0 : collapsed o0 = true).
  { revert Hinit. destruct s as [cn hd ct]. simpl in Hh, Hc. subst hd ct.
    unfold CollapsibleSection.init, CollapsibleSection.this_heading,
      CollapsibleSection.this_contents. simpl. rewrite Hid.
    rewrite moveChildren_all. intros H. inversion H. reflexivity. }
  subst o. rewrite Hinit. cbn [stateOf].
  pose proof (clicks_collapsed (className s) n o0 Hcut Htog0) as Hcol.
  rewrite Hcol0 in Hcol.
  assert (Heven : collapsed (CollapsibleSection.clicks n o0) = Nat.even n)
    by (rewrite Hcol; destruct (Nat.even n); reflexivity).
  pose proof (clicks_toggled (className s) n o0 Hcut Htog0)
    as [t c' cs' Ht Hct Hexp Hhid Hforms].
  split; [exact Heven|]. split; [|split; [|split]].
  - unfold ariaExpanded. rewrite Ht. cbn [option_map]. rewrite Hexp, Heven.
    rewrite Nat.negb_even. reflexivity.
  - unfold ariaHidden. rewrite Hct. cbn [map hd_error]. rewrite Hhid, Heven.
    reflexivity.
  - rewrite (classes_forms (className s) _ "collapsed" Hforms), Heven.
    split.
    + intros [H|[H|[_ H]]]; [contradiction | discriminate | exact H].
    + intros H. right. right. split; [reflexivity | exact H].
  - rewrite (classes_forms (className s) _ "scripted" Hforms).
    right. left. reflexivity.
Qed.

Lemma clicks_alternate_witness :
  collapsed
    (CollapsibleSection.clicks 3
       (stateOf
          (CollapsibleSection.init
             (CollapsibleSection.new
                (mkSection "collapsibleSection"
                   (Some (mkHeading ["Details"] false))
                   [[("id", "details")]])))))
  = false.
Proof.
  assert (Hnot : ~ In "collapsed" (classList "collapsibleSection")).
  { simpl. intros [H|[]]. discriminate. }
  destruct (clicks_alternate
              (mkSection "collapsibleSection"
                 (Some (mkHeading ["Details"] false)) [[("id", "details")]])
              (mkHeading ["Details"] false) [("id", "details")] [] "details" 3
              eq_refl eq_refl eq_refl eq_refl Hnot) as [H _].
  exact H.
Defined.

Lemma clicks_jq_collapsed (n : nat) :
  forall o,
    collapsed (CollapsibleSectionJq.clicks n o)
    = if Nat.even n then collapsed o else negb (collapsed o).
Proof.
  induction n as [|n IH]; intros o; [reflexivity|].
  cbn [CollapsibleSectionJq.clicks]. rewrite IH.
  unfold CollapsibleSectionJq.onclick.
  destruct (setCollapseState_jq_toggled (negb (collapsed o)) o)
    as (_ & Hcol & _).
  rewrite Hcol, Nat.even_succ, <- Nat.negb_even.
  destruct (Nat.even n); cbn [negb]; [reflexivity | apply negb_involutive].
Qed.

(** Each click on the trigger flips the section in the jQuery variant
    too, whatever the section holds: after [init] and [n] clicks the
    section is collapsed exactly when [n] is even, and the class
    [collapsed], [aria-expanded] on the trigger and [aria-hidden] on every
    contents element say so. *)
Theorem clicks_alternate_jquery (s : Section) (n : nat) :
  let o := CollapsibleSectionJq.clicks n
             (CollapsibleSectionJq.init (CollapsibleSectionJq.new s)) in
  collapsed o = Nat.even n
  /\ (In "collapsed" (classes o) <-> Nat.even n = true)
  /\ (forall t, trigger o = Some t ->
                Attr.getAttribute "aria-expanded" (t_attrs t)
                = Some (stringOfBool (Nat.odd n)))
  /\ (forall c, In c (contents (section o)) ->
                Attr.getAttribute "aria-hidden" c
                = Some (stringOfBool (Nat.even n))).
Proof.
  intros o.
  pose proof (init_jq_toggled s) as Htog0.
  assert (Hcol0 : collapsed (CollapsibleSectionJq.init (CollapsibleSectionJq.new s))
                  = true).
  { unfold CollapsibleSectionJq.init. cbv zeta.
    match goal with
    | |- context [CollapsibleSectionJq.setCollapseState true ?x] =>
        destruct (setCollapseState_jq_toggled true x) as (_ & Hcol & _)
    end.
    exact Hcol. }
  pose proof (clicks_jq_collapsed n
                (CollapsibleSectionJq.init (CollapsibleSectionJq.new s))) as Hcol.
  rewrite Hcol0 in Hcol.
  assert (Heven : collapsed o = Nat.even n)
    by (unfold o; rewrite Hcol; destruct (Nat.even n); reflexivity).
  pose proof (clicks_jq_toggled n _ Htog0) as [Hc Ht Hh].
  fold o in Hc, Ht, Hh.
  split; [exact Heven|]. split; [|split].
  - rewrite <- Heven. symmetry. exact Hc.
  - intros t Htr. rewrite (Ht t Htr), Heven, Nat.negb_even. reflexivity.
  - intros c Hin. rewrite (Hh c Hin), Heven. reflexivity.
Qed.

End Clicks.
